(** * foyer/xml_writer.py: a shallow embedding of the Foyer XML writer

    The writer turns a parameterised ParmEd [Structure] into an lxml tree:
    it emits one section per force, canonicalises the atom-type tuple of
    every bonded term, sorts and de-duplicates the sections, and infers the
    two global 1-4 scaling factors from the list of adjusts.

    Layout of this file:
    - [PyFloat] : Python 3 floats (IEEE binary64) with [round], [str], and
                  the three numpy helpers the writer uses;
    - [Py]      : the builtins [sorted], [set], [range], [str] on integers,
                  and the list slices the writer takes;
    - [ET]      : the part of lxml.etree the writer touches;
    - [Atom], [Bond], ... : the attributes of the ParmEd objects it reads;
    - exceptions and the monad of statements that mutate an element;
    - the functions of xml_writer.py, one definition each, under their
      own names;
    - the vocabulary of the properties and a few sample topologies;
    - the properties, grouped by the function they are about;
    - further properties: the canonical keys and the make-up of an entry,
      every case of the Lennard-Jones scale, the de-duplicator on any tree,
      [_elements_equal] as an equivalence, and a call of [write_foyer] seen
      from outside. *)

From Stdlib Require Import ZArith List Bool Ascii String Decimal DecimalString.
From Stdlib Require Import Lia Permutation Sorted RelationClasses.
From Stdlib Require Import PrimFloat SpecFloat FloatOps.
Import ListNotations.

Set Warnings "-inexact-float".

#[local] Open Scope string_scope.
#[local] Open Scope Z_scope.

(* ================================================================= *)
(** ** Python floats *)

(** A Python [float] is an IEEE binary64 value; Rocq's primitive floats are
    the same format with the same round-to-nearest-even arithmetic, so [+],
    [*], [/] and comparisons are taken from [PrimFloat].  What Python adds on
    top (the [ZeroDivisionError] of [/], the correctly rounded decimal
    [round], the shortest round-tripping [repr]) is written out here over the
    exact value [m * 2^e] that [Prim2SF] exposes.  The semantics is that of
    Python 3: [round] rounds half to even on the exact value, and [str] of a
    float is its [repr].  The numbers a ParmEd object holds are taken to be
    Python floats, not numpy scalars. *)
Module PyFloat.

(** The binary64 value nearest to [n / d] (ties to even), with sign [s]:
    what C's [strtod] returns for a decimal numeral. *)
Definition of_ratio (s : bool) (n d : positive) : float :=
  SF2Prim (SFdiv prec emax (S754_finite s n 0) (S754_finite false d 0)).

(** [n / d] rounded to an integer, ties to even. *)
Definition div_half_even (n d : Z) : Z :=
  let q := n / d in
  match (2 * (n mod d) ?= d) with
  | Lt => q
  | Gt => q + 1
  | Eq => if Z.even q then q else q + 1
  end.

(** The exact value [m * 2^e * 10^k] of a scaled finite float, as a
    fraction of two positive integers. *)
Definition scaled (m : positive) (e k : Z) : Z * Z :=
  let num := Zpos m * (if 0 <=? e then 2 ^ e else 1)
                    * (if 0 <=? k then 10 ^ k else 1) in
  let den := (if 0 <=? e then 1 else 2 ^ (- e))
             * (if 0 <=? k then 1 else 10 ^ (- k)) in
  (num, den).

Definition signed_zero (s : bool) : float := if s then neg_zero else zero.

(** The value [n * 10^(-k)] read back as a float. *)
Definition of_decimal (s : bool) (n : Z) (k : Z) : float :=
  match n with
  | Zpos p =>
      if (0 <=? k)%Z
      then match (10 ^ k)%Z with Zpos d => of_ratio s p d | _ => nan end
      else match (n * 10 ^ (- k))%Z with Zpos q => of_ratio s q 1 | _ => nan end
  | _ => signed_zero s
  end.

(** [round(x, ndigits)] of Python 3: the exact value of [x] is rounded
    half-to-even to [ndigits] decimals and the decimal is read back;
    infinities and nan are returned unchanged. *)
Definition round (x : float) (ndigits : Z) : float :=
  match Prim2SF x with
  | S754_finite s m e =>
      let '(num, den) := scaled m e ndigits in
      of_decimal s (div_half_even num den) ndigits
  | _ => x
  end.

(** C's [rint]: nearest integer, ties to even. *)
Definition rint (x : float) : float :=
  match Prim2SF x with
  | S754_finite s m e =>
      let '(num, den) := scaled m e 0 in
      of_decimal s (div_half_even num den) 0
  | _ => x
  end.

(** [a / b] with [from __future__ import division]. *)
Definition div_checked (a b : float) : option float :=
  if PrimFloat.eqb b zero then None else Some (PrimFloat.div a b).

(** [x ** 0.5].  For [x >= 0] this is the square root; a negative base
    gives a complex number in Python 3, which the writer never expects
    (well depths are non-negative) and which is left as nan here. *)
Definition pow_half (x : float) : float := PrimFloat.sqrt x.

(** *** [repr]: the shortest decimal that reads back as the same float *)

(** [dec_digits fuel n]: how many decimal digits the positive [n] has. *)
Fixpoint dec_digits (fuel : nat) (n : Z) : Z :=
  match fuel with
  | O => 0
  | S fuel' => if n <? 10 then 1 else 1 + dec_digits fuel' (n / 10)
  end.

(** [lead_zeros fuel num den]: the least [j] with [num * 10^j >= den]. *)
Fixpoint lead_zeros (fuel : nat) (num den : Z) : Z :=
  match fuel with
  | O => 0
  | S fuel' => if den <=? num then 0 else 1 + lead_zeros fuel' (num * 10) den
  end.

(** The decimal point position [k] of a positive [num / den]:
    [10^(k-1) <= num / den < 10^k]. *)
Definition decpt_of (num den : Z) : Z :=
  if den <=? num then dec_digits 400 (num / den)
  else 1 - lead_zeros 400 num den.

(** Candidates with [p] significant digits around [m * 2^e], each kept
    only when it reads back as [x]; the nearer one first. *)
Definition candidates (x : float) (m : positive) (e k p : Z) : list Z :=
  let '(num, den) := scaled m e (p - k) in
  let lo := num / den in
  let r := num mod den in
  let back c := PrimFloat.eqb (of_decimal false c (p - k)) (PrimFloat.abs x) in
  let order :=
    if r =? 0 then [lo]
    else match (2 * r ?= den) with
         | Lt => [lo; lo + 1]
         | Gt => [lo + 1; lo]
         | Eq => if Z.even lo then [lo; lo + 1] else [lo + 1; lo]
         end in
  filter back order.

Fixpoint shortest (fuel : nat) (x : float) (m : positive) (e k p : Z) : Z * Z :=
  match fuel with
  | O => (Zpos m, 0)
  | S fuel' =>
      match candidates x m e k p with
      | c :: _ => (c, p)
      | [] => shortest fuel' x m e k (p + 1)
      end
  end.

Fixpoint strip_zeros (fuel : nat) (c : Z) : Z :=
  match fuel with
  | O => c
  | S fuel' => if (c mod 10 =? 0) && (0 <? c) then strip_zeros fuel' (c / 10) else c
  end.

Definition str_of_Z (z : Z) : string := NilZero.string_of_int (Z.to_int z).

Fixpoint zeros (n : nat) : string :=
  match n with O => "" | S n' => String "0" (zeros n') end.

(** Python's [float_repr_style = 'short'] layout of a digit string [ds]
    whose value is [0.ds * 10^k]. *)
Definition layout (ds : string) (k : Z) : string :=
  let n := Z.of_nat (String.length ds) in
  if (-4 <? k) && (k <=? 16) then
    if k <=? 0 then "0." ++ zeros (Z.to_nat (- k)) ++ ds
    else if n <=? k then ds ++ zeros (Z.to_nat (k - n)) ++ ".0"
    else substring 0 (Z.to_nat k) ds ++ "."
         ++ substring (Z.to_nat k) (Z.to_nat (n - k)) ds
  else
    let ex := k - 1 in
    let mant := match ds with
                | String d EmptyString => String d EmptyString
                | String d rest => String d ("." ++ rest)
                | EmptyString => ""
                end in
    let exs := str_of_Z (Z.abs ex) in
    mant ++ "e" ++ (if ex <? 0 then "-" else "+")
         ++ (if Z.abs ex <? 10 then "0" else "") ++ exs.

(** [str(x)] for a float [x] (Python 3, where [str] is [repr]). *)
Definition str (x : float) : string :=
  match Prim2SF x with
  | S754_nan => "nan"
  | S754_infinity s => if s then "-inf" else "inf"
  | S754_zero s => if s then "-0.0" else "0.0"
  | S754_finite s m e =>
      let '(num, den) := scaled m e 0 in
      let k := decpt_of num den in
      let '(c, p) := shortest 17 x m e k 1 in
      (* a carry such as 9.5 -> 10 moves the point one place *)
      let k' := k + (dec_digits 400 c - p) in
      let ds := str_of_Z (strip_zeros 400 c) in
      (if s then "-" else "") ++ layout ds k'
  end.

(** *** numpy *)

Definition rtol : float := 1e-05%float.
Definition atol : float := 1e-08%float.

(** [np.isclose(a, b)] with the default tolerances: [|a - b| <= atol +
    rtol * |b|] on finite operands, plain equality otherwise. *)
Definition isclose (a b : float) : bool :=
  if is_finite a && is_finite b
  then PrimFloat.leb (PrimFloat.abs (PrimFloat.sub a b))
                     (PrimFloat.add atol (PrimFloat.mul rtol (PrimFloat.abs b)))
  else PrimFloat.eqb a b.

(** [ndarray.round(decimals)] for [decimals >= 0]: multiply by the power
    of ten, [rint], divide back. *)
Definition np_round (x : float) (decimals : Z) : float :=
  let f := of_decimal false (10 ^ decimals) 0 in
  PrimFloat.div (rint (PrimFloat.mul x f)) f.

Fixpoint insert_sorted (x : float) (l : list float) : list float :=
  match l with
  | [] => [x]
  | y :: l' => if PrimFloat.ltb y x then y :: insert_sorted x l' else x :: l
  end.

Fixpoint drop_repeats (l : list float) : list float :=
  match l with
  | [] => []
  | x :: l' =>
      match l' with
      | y :: _ => if PrimFloat.eqb x y then drop_repeats l' else x :: drop_repeats l'
      | [] => [x]
      end
  end.

(** [np.unique(a)]: the sorted distinct values of [a]. *)
Definition np_unique (l : list float) : list float :=
  drop_repeats (fold_right insert_sorted [] l).

End PyFloat.

(* ================================================================= *)
(** ** Python builtins *)

Module Py.

(** [str(n)] for an [int]. *)
Definition str_int (n : Z) : string := NilZero.string_of_int (Z.to_int n).

(** [sorted(l)]: a stable sort that only ever asks [y < x].  An element
    is placed before the first one that is not smaller than it. *)
Section Sorted.
Context {A : Type} (lt : A -> A -> bool).

Fixpoint insert (x : A) (l : list A) : list A :=
  match l with
  | [] => [x]
  | y :: l' => if lt y x then y :: insert x l' else x :: l
  end.

Definition sorted (l : list A) : list A := fold_right insert [] l.
End Sorted.

(** [l[::2]] and the slice assignment [l[::2] = v]. *)
Fixpoint step2 {A} (l : list A) : list A :=
  match l with
  | x :: _ :: l' => x :: step2 l'
  | _ => l
  end.

Fixpoint set_step2 {A} (l v : list A) : list A :=
  match l, v with
  | _ :: y :: l', x :: v' => x :: y :: set_step2 l' v'
  | [_], [x] => [x]
  | _, _ => l
  end.

(** [l[0], l[2] = l[2], l[0]]. *)
Definition swap02 {A} (l : list A) : list A :=
  match l with
  | a :: b :: c :: l' => c :: b :: a :: l'
  | _ => l
  end.

(** [l[1:] = v]. *)
Definition set_tail {A} (l v : list A) : list A :=
  match l with
  | x :: _ => x :: v
  | [] => v
  end.

(** [l[i]] on a list of strings that is long enough. *)
Definition item (l : list string) (i : Z) : string :=
  nth (Z.to_nat i) l "".

(** [l[-1]]. *)
Definition last_item (l : list string) : string := last l "".

(** [range(n)]. *)
Definition range (n : nat) : list Z := map Z.of_nat (seq 0 n).

(** [set(l)] for floats: the distinct values of [l] under [==], in the
    order in which they are first met.  (A nan is unequal to itself; the
    writer has no nan scale in view and none is considered below.) *)
Fixpoint set_add (x : float) (s : list float) : list float :=
  match s with
  | [] => [x]
  | y :: s' => if PrimFloat.eqb y x then s else y :: set_add x s'
  end.

Definition pyset (l : list float) : list float :=
  fold_left (fun s x => set_add x s) l [].

Definition is_not_None {A} (o : option A) : bool :=
  match o with Some _ => true | None => false end.

End Py.

(* ================================================================= *)
(** ** lxml.etree *)

Module ET.

(** An element: tag, text, tail, attributes in insertion order, children. *)
#[warnings="-register-all"]
Inductive Element : Type :=
  mkElement (tag : string) (text tail : option string)
            (attrib : list (string * string)) (children : list Element).

Definition tag (e : Element) := let '(mkElement t _ _ _ _) := e in t.
Definition text (e : Element) := let '(mkElement _ t _ _ _) := e in t.
Definition tail (e : Element) := let '(mkElement _ _ t _ _) := e in t.
Definition attrib (e : Element) := let '(mkElement _ _ _ a _) := e in a.
Definition children (e : Element) := let '(mkElement _ _ _ _ c) := e in c.

(** [ET.Element(tag)]. *)
Definition Element_ (t : string) : Element := mkElement t None None [] [].

Fixpoint assoc_set (a : list (string * string)) (k v : string) :=
  match a with
  | [] => [(k, v)]
  | (k', v') :: a' =>
      if String.eqb k' k then (k, v) :: a' else (k', v') :: assoc_set a' k v
  end.

Fixpoint assoc_get (a : list (string * string)) (k : string) : option string :=
  match a with
  | [] => None
  | (k', v) :: a' => if String.eqb k' k then Some v else assoc_get a' k
  end.

(** [e.set(k, v)]: overwrite in place or add at the end. *)
Definition set (e : Element) (k v : string) : Element :=
  let '(mkElement t tx tl a c) := e in mkElement t tx tl (assoc_set a k v) c.

(** [e.get(k)]. *)
Definition get (e : Element) (k : string) : option string :=
  assoc_get (attrib e) k.

(** Appending a child, as [ET.SubElement(parent, tag)] does. *)
Definition append (parent child : Element) : Element :=
  let '(mkElement t tx tl a c) := parent in mkElement t tx tl a (c ++ [child])%list.

(** [parent[:] = cs]. *)
Definition set_children (parent : Element) (cs : list Element) : Element :=
  let '(mkElement t tx tl a _) := parent in mkElement t tx tl a cs.

Definition opt_eqb (a b : option string) : bool :=
  match a, b with
  | Some x, Some y => String.eqb x y
  | None, None => true
  | _, _ => false
  end.

(** [a1 == a2] on two attribute mappings: equal as dictionaries, whatever
    the insertion order. *)
Definition attrib_eqb (a1 a2 : list (string * string)) : bool :=
  (List.length a1 =? List.length a2)%nat
  && forallb (fun kv => opt_eqb (assoc_get a2 (fst kv)) (Some (snd kv))) a1.

End ET.
Export ET.

(* ================================================================= *)
(** ** ParmEd objects *)

(** Only the attributes that xml_writer.py reads.  Numbers are Python
    floats, except indices and the periodicity of a dihedral, which are
    ints.  The [type] of a bonded term is [None] until it is assigned. *)
Module AtomType.
Record t := { name : string; sigma : float; epsilon : float }.
End AtomType.

Module Atom.
Record t := { idx : Z; type : string; atom_type : AtomType.t;
              mass : float; charge : float }.
End Atom.

Module BondType.
Record t := { req : float; k : float }.
End BondType.

Module Bond.
Record t := { atom1 : Atom.t; atom2 : Atom.t; type : option BondType.t }.
End Bond.

Module AngleType.
Record t := { theteq : float; k : float }.
End AngleType.

Module Angle.
Record t := { atom1 : Atom.t; atom2 : Atom.t; atom3 : Atom.t;
              type : option AngleType.t }.
End Angle.

Module DihedralType.
Record t := { per : Z; phase : float; phi_k : float }.
End DihedralType.

Module Dihedral.
Record t := { atom1 : Atom.t; atom2 : Atom.t; atom3 : Atom.t; atom4 : Atom.t;
              improper : bool; type : option DihedralType.t }.
End Dihedral.

Module RBTorsionType.
Record t := { c0 : float; c1 : float; c2 : float;
              c3 : float; c4 : float; c5 : float }.
End RBTorsionType.

Module RBTorsion.
Record t := { atom1 : Atom.t; atom2 : Atom.t; atom3 : Atom.t; atom4 : Atom.t;
              type : option RBTorsionType.t }.
End RBTorsion.

Module NonbondedExceptionType.
Record t := { sigma : float; epsilon : float; chgscale : float }.
End NonbondedExceptionType.

Module Adjust.
Record t := { atom1 : Atom.t; atom2 : Atom.t; type : NonbondedExceptionType.t }.
End Adjust.

Module Structure.
Record t := { atoms : list Atom.t; bonds : list Bond.t; angles : list Angle.t;
              dihedrals : list Dihedral.t; rb_torsions : list RBTorsion.t;
              adjusts : list Adjust.t }.
End Structure.

(** The five name-keyed dictionaries of a [foyer.Forcefield]. *)
Module Forcefield.
Record t := { atomTypeClasses : list (string * string);
              atomTypeElements : list (string * string);
              atomTypeDefinitions : list (string * string);
              atomTypeDesc : list (string * string);
              atomTypeRefs : list (string * string) }.
End Forcefield.

(* ================================================================= *)
(** ** Exceptions and the emitter monad *)

(** The exceptions that leave the writer, one constructor per [raise] site
    plus the three runtime errors of the expressions it evaluates. *)
Inductive PyError : Type :=
| Unparametrized                    (* Exception("Cannot write Foyer XML ...") *)
| InconsistentCoulomb14             (* ValueError, _infer_coulomb14scale *)
| SigmaMismatch (adj : Adjust.t) (found expected : float)
                                    (* ValueError, _infer_lj14scale *)
| InconsistentLJ14 (scales : list float) (* ValueError, _infer_lj14scale *)
| AttributeError
| KeyError
| IndexError
| ZeroDivisionError.

Inductive result (A : Type) : Type :=
| Ok (a : A)
| Raise (e : PyError).
Arguments Ok {A} a.
Arguments Raise {A} e.

(** A statement that mutates an object of type [S] in place and may raise:
    the object as it is when the statement ends, and how it ends. *)
Definition M (S A : Type) : Type := S -> S * result A.

Definition ret {S A} (a : A) : M S A := fun s => (s, Ok a).

Definition bind {S A B} (m : M S A) (f : A -> M S B) : M S B :=
  fun s => match m s with
           | (s', Ok a) => f a s'
           | (s', Raise e) => (s', Raise e)
           end.

Definition raise {S A} (e : PyError) : M S A := fun s => (s, Raise e).

Definition lift {S A} (r : result A) : M S A := fun s => (s, r).

Definition modify {S} (f : S -> S) : M S unit := fun s => (f s, Ok tt).

Declare Scope py_scope.
Delimit Scope py_scope with py.
Notation "x <- m ;; k" := (bind m (fun x => k))
  (at level 61, m at next level, right associativity) : py_scope.
Notation "m ;; k" := (bind m (fun _ => k))
  (at level 61, right associativity) : py_scope.
#[local] Open Scope py_scope.

(** [for x in l: body]. *)
Fixpoint for_ {S A} (l : list A) (body : A -> M S unit) : M S unit :=
  match l with
  | [] => ret tt
  | x :: l' => body x ;; for_ l' body
  end.

(** [child = ET.SubElement(parent, tag)] followed by the statements [body]
    that fill [child]: the child hangs under the parent from the start, so
    it is there whether [body] ends normally or raises. *)
Definition SubElement {A} (t : string) (body : M Element A) : M Element A :=
  fun parent =>
    let '(child, r) := body (Element_ t) in (append parent child, r).

(** [e.set(k, v)] as a statement on the element in scope. *)
Definition set_ (k v : string) : M Element unit := modify (fun e => set e k v).

(** Two sibling sections filled side by side, as [_write_atoms] does. *)
Definition SubElement2 {A} (t1 t2 : string) (body : M (Element * Element) A)
  : M Element A :=
  fun parent =>
    let '((c1, c2), r) := body (Element_ t1, Element_ t2) in
    (append (append parent c1) c2, r).

Definition in_fst {A} (m : M Element A) : M (Element * Element) A :=
  fun s => let '(c1, r) := m (fst s) in ((c1, snd s), r).

Definition in_snd {A} (m : M Element A) : M (Element * Element) A :=
  fun s => let '(c2, r) := m (snd s) in ((fst s, c2), r).


(** [x.type.attr] where [x.type] may be [None]. *)
Definition dot {T} (o : option T) : result T :=
  match o with
  | Some ty => Ok ty
  | None => Raise AttributeError
  end.

(** [len(xs) > 0 and xs[0].type is not None]. *)
Definition first_has_type {X T} (type : X -> option T) (xs : list X) : bool :=
  (0 <? Z.of_nat (List.length xs))
  && match xs with
     | x :: _ => Py.is_not_None (type x)
     | [] => false
     end.

(** [a / b] on floats. *)
Definition truediv (a b : float) : result float :=
  match PyFloat.div_checked a b with
  | Some q => Ok q
  | None => Raise ZeroDivisionError
  end.

(** [d[k]] on a dictionary. *)
Definition getitem (d : list (string * string)) (k : string) : result string :=
  match assoc_get d k with
  | Some v => Ok v
  | None => Raise KeyError
  end.

(* ================================================================= *)
(** ** foyer/xml_writer.py *)

#[local] Open Scope float_scope.

Definition np_pi : float := 3.141592653589793.

(** *** [_infer_coulomb14scale] *)
Definition _infer_coulomb14scale (struct : Structure.t) : result float :=
  let coul14 := map (fun t => NonbondedExceptionType.chgscale (Adjust.type t))
                    (Structure.adjusts struct) in
  if (Z.of_nat (List.length (Py.pyset coul14)) =? 1)%Z then
    match coul14 with
    | x :: _ => Ok x
    | [] => Raise IndexError
    end
  else Raise InconsistentCoulomb14.

(** *** [_infer_lj14scale] *)

(** The body of the loop over the adjusts; the state is the list
    [lj14scale] that the loop appends to. *)
Definition lj14_body (adj : Adjust.t) : M (list float) unit :=
  let type1 := Atom.atom_type (Adjust.atom1 adj) in
  let type2 := Atom.atom_type (Adjust.atom2 adj) in
  let expected_sigma := (AtomType.sigma type1 + AtomType.sigma type2) * 0.5 in
  let expected_epsilon :=
    PyFloat.pow_half (AtomType.epsilon type1 * AtomType.epsilon type2) in
  if negb (PyFloat.isclose (NonbondedExceptionType.sigma (Adjust.type adj))
                           expected_sigma)
  then raise (SigmaMismatch adj (NonbondedExceptionType.sigma (Adjust.type adj))
                            expected_sigma)
  else
    q <- lift (truediv (NonbondedExceptionType.epsilon (Adjust.type adj))
                       expected_epsilon) ;;
    modify (fun lj14scale => (lj14scale ++ [q])%list).

Definition _infer_lj14scale (struct : Structure.t) : result float :=
  match for_ (Structure.adjusts struct) lj14_body [] with
  | (_, Raise e) => Raise e
  | (lj14scale, Ok _) =>
      let unique_lj14_scales :=
        PyFloat.np_unique (map (fun x => PyFloat.np_round x 8) lj14scale) in
      if (Z.of_nat (List.length unique_lj14_scales) =? 1)%Z then
        match lj14scale with
        | x :: _ => Ok x
        | [] => Raise IndexError
        end
      else Raise (InconsistentLJ14 unique_lj14_scales)
  end.

(** *** [_elements_equal] *)

(** [e2] is [None] on the first call of the de-duplicator, hence the
    [option]; the second line compares [e1.tag] with itself, as the source
    does. *)
Fixpoint _elements_equal (e1 : Element) (e2 : option Element) {struct e1} : bool :=
  match e2 with
  | None => false                                  (* type(e1) != type(e2) *)
  | Some e2 =>
      let '(mkElement tag1 text1 tail1 attrib1 children1) := e1 in
      if negb (String.eqb tag1 tag1) then false
      else if negb (ET.opt_eqb text1 (text e2)) then false
      else if negb (ET.opt_eqb tail1 (tail e2)) then false
      else if negb (ET.attrib_eqb attrib1 (attrib e2)) then false
      else if negb (List.length children1 =? List.length (children e2))%nat then false
      else (fix all_zip (cs1 cs2 : list Element) : bool :=
              match cs1, cs2 with
              | c1 :: cs1', c2 :: cs2' =>
                  _elements_equal c1 (Some c2) && all_zip cs1' cs2'
              | _, _ => true
              end) children1 (children e2)
  end.

(** *** [_remove_duplicate_elements] *)

Definition sortby : list (string * list string) :=
  [("AtomTypes", ["name"]);
   ("HarmonicBondForce", ["type1"; "type2"]);
   ("HarmonicAngleForce", ["type1"; "type2"; "type3"]);
   ("PeriodicTorsionForce", ["type1"; "type2"; "type3"; "type4"]);
   ("RBTorsionForce", ["type1"; "type2"; "type3"; "type4"]);
   ("NonbondedForce", ["type"])].

Fixpoint sortby_get (d : list (string * list string)) (k : string)
  : result (list string) :=
  match d with
  | [] => Raise KeyError
  | (k', v) :: d' => if String.eqb k' k then Ok v else sortby_get d' k
  end.

(** The order of sort keys: tuples of attribute values compared left to
    right, strings by their characters.  A missing attribute ([elem.get]
    returns [None]) is placed before every string, which is the order of
    Python 2; Python 3 refuses to compare [None] with a string.  Every entry
    the emitters build carries all the keys of its section. *)
Definition key_lt1 (a b : option string) : bool :=
  match a, b with
  | None, Some _ => true
  | Some x, Some y => String.ltb x y
  | _, _ => false
  end.

Fixpoint key_lt (a b : list (option string)) : bool :=
  match a, b with
  | [], _ :: _ => true
  | x :: a', y :: b' => if ET.opt_eqb x y then key_lt a' b' else key_lt1 x y
  | _, _ => false
  end.

(** [sorted(child, key=lambda elem: tuple(elem.get(id) for id in
    sortby[child.tag]))]; the key function, and with it the dictionary
    lookup, runs only when there is an element to sort. *)
Definition sorted_children (child : Element) : result (list Element) :=
  match children child with
  | [] => Ok []
  | elems =>
      match sortby_get sortby (tag child) with
      | Raise e => Raise e
      | Ok ids =>
          let key elem := map (fun id => get elem id) ids in
          Ok (Py.sorted (fun a b => key_lt (key a) (key b)) elems)
      end
  end.

(** The inner loop: the entries that stay, and [prev] when it ends. *)
Fixpoint scan (prev : option Element) (elems : list Element)
  : option Element * list Element :=
  match elems with
  | [] => (prev, [])
  | elem :: rest =>
      if _elements_equal elem prev then scan prev rest
      else let '(prev', kept) := scan (Some elem) rest in (prev', elem :: kept)
  end.

(** The outer loop over the sections; [prev] is set once, before it. *)
Fixpoint dedup_sections (unique : bool) (prev : option Element)
         (sections : list Element) : list Element * result unit :=
  match sections with
  | [] => ([], Ok tt)
  | child :: rest =>
      if negb unique && negb (String.eqb (tag child) "AtomTypes") then
        let '(rest', r) := dedup_sections unique prev rest in (child :: rest', r)
      else
        match sorted_children child with
        | Raise e => (child :: rest, Raise e)
        | Ok elems =>
            let '(prev', kept) := scan prev elems in
            let '(rest', r) := dedup_sections unique prev' rest in
            (set_children child kept :: rest', r)
        end
  end.

Definition _remove_duplicate_elements (unique : bool) : M Element unit :=
  fun root =>
    let '(sections, r) := dedup_sections unique None (children root) in
    (set_children root sections, r).

(** *** [_write_atoms] *)

Definition atomtype_attrs : list (string * string) :=
  [("name", "name");
   ("class", "forcefield.atomTypeClasses[name]");
   ("element", "forcefield.atomTypeElements[name]");
   ("mass", "atom.mass");
   ("def", "forcefield.atomTypeDefinitions[name]");
   ("desc", "forcefield.atomTypeDesc[name]");
   ("doi", "forcefield.atomTypeRefs[name]")].

(** [forcefield.d[name]]: an [AttributeError] when [forcefield] is [None],
    a [KeyError] when the name is not in the dictionary. *)
Definition ff_lookup (forcefield : option Forcefield.t)
           (d : Forcefield.t -> list (string * string)) (name : string)
  : result string :=
  match forcefield with
  | None => Raise AttributeError
  | Some ff => getitem (d ff) name
  end.

(** [str(eval(val))] for the seven expressions of [atomtype_attrs], in the
    scope of the loop body ([name], [atom], [forcefield]). *)
Definition str_eval (val name : string) (atom : Atom.t)
           (forcefield : option Forcefield.t) : result string :=
  if String.eqb val "name" then Ok name
  else if String.eqb val "forcefield.atomTypeClasses[name]"
  then ff_lookup forcefield Forcefield.atomTypeClasses name
  else if String.eqb val "forcefield.atomTypeElements[name]"
  then ff_lookup forcefield Forcefield.atomTypeElements name
  else if String.eqb val "atom.mass" then Ok (PyFloat.str (Atom.mass atom))
  else if String.eqb val "forcefield.atomTypeDefinitions[name]"
  then ff_lookup forcefield Forcefield.atomTypeDefinitions name
  else if String.eqb val "forcefield.atomTypeDesc[name]"
  then ff_lookup forcefield Forcefield.atomTypeDesc name
  else if String.eqb val "forcefield.atomTypeRefs[name]"
  then ff_lookup forcefield Forcefield.atomTypeRefs name
  else Raise AttributeError.

(** The statements that fill the [Type] element of one atom. *)
Definition atomtype_entry (atom : Atom.t) (forcefield : option Forcefield.t)
  : M Element unit :=
  let name := AtomType.name (Atom.atom_type atom) in
  for_ atomtype_attrs (fun '(key, val) =>
    let label := match str_eval val name atom forcefield with
                 | Ok label => label
                 | Raise _ => ""           (* except (AttributeError, KeyError) *)
                 end in
    set_ key label).

(** The statements that fill the [Atom] element of one atom. *)
Definition nb_force_entry (atom : Atom.t) (unique : bool) : M Element unit :=
  let name := AtomType.name (Atom.atom_type atom) in
  (if negb unique then set_ "id" (Py.str_int (Atom.idx atom)) else ret tt) ;;
  set_ "type" name ;;
  set_ "charge" (PyFloat.str (PyFloat.round (Atom.charge atom) 4)) ;;
  set_ "sigma"
       (PyFloat.str (PyFloat.round (AtomType.sigma (Atom.atom_type atom)) 4)) ;;
  set_ "epsilon"
       (PyFloat.str
          (PyFloat.round (AtomType.epsilon (Atom.atom_type atom) * 4.184) 6)).

Definition _write_atoms (self : Structure.t) (atoms : list Atom.t)
           (forcefield : option Forcefield.t) (unique : bool) : M Element unit :=
  SubElement2 "AtomTypes" "NonbondedForce" (
    coulomb14scale <- lift (_infer_coulomb14scale self) ;;
    in_snd (set_ "coulomb14scale" (PyFloat.str coulomb14scale)) ;;
    lj14scale <- lift (_infer_lj14scale self) ;;
    in_snd (set_ "lj14scale" (PyFloat.str lj14scale)) ;;
    for_ atoms (fun atom =>
      in_fst (SubElement "Type" (atomtype_entry atom forcefield)) ;;
      in_snd (SubElement "Atom" (nb_force_entry atom unique)))).

(** [for id in range(n): e.set('type{}'.format(id+1), atypes[id])]. *)
Definition set_types (n : nat) (atypes : list string) : M Element unit :=
  for_ (Py.range n) (fun id =>
    set_ ("type" ++ Py.str_int (id + 1)) (Py.item atypes id)).

(** *** [_write_bonds] *)
Definition bond_entry (bond : Bond.t) (unique : bool) : M Element unit :=
  let atypes := [Atom.type (Bond.atom1 bond); Atom.type (Bond.atom2 bond)] in
  atypes <- (if unique then ret (Py.sorted String.ltb atypes)
             else
               set_ "id1" (Py.str_int (Atom.idx (Bond.atom1 bond))) ;;
               set_ "id2" (Py.str_int (Atom.idx (Bond.atom2 bond))) ;;
               ret atypes) ;;
  set_types 2 atypes ;;
  ty <- lift (dot (Bond.type bond)) ;;
  set_ "length" (PyFloat.str (PyFloat.round (BondType.req ty / 10) 4)) ;;
  ty <- lift (dot (Bond.type bond)) ;;
  set_ "k" (PyFloat.str (PyFloat.round (BondType.k ty * 4.184 * 200) 1)).

Definition _write_bonds (bonds : list Bond.t) (unique : bool) : M Element unit :=
  SubElement "HarmonicBondForce" (
    for_ bonds (fun bond => SubElement "Bond" (bond_entry bond unique))).

(** *** [_write_angles] *)
Definition angle_entry (angle : Angle.t) (unique : bool) : M Element unit :=
  let atypes := [Atom.type (Angle.atom1 angle);
                 Atom.type (Angle.atom2 angle);
                 Atom.type (Angle.atom3 angle)] in
  atypes <- (if unique
             then (* Sort the first and last atom types *)
               ret (Py.set_step2 atypes (Py.sorted String.ltb (Py.step2 atypes)))
             else
               set_ "id1" (Py.str_int (Atom.idx (Angle.atom1 angle))) ;;
               set_ "id2" (Py.str_int (Atom.idx (Angle.atom2 angle))) ;;
               set_ "id3" (Py.str_int (Atom.idx (Angle.atom3 angle))) ;;
               ret atypes) ;;
  set_types 3 atypes ;;
  ty <- lift (dot (Angle.type angle)) ;;
  set_ "angle"
       (PyFloat.str (PyFloat.round (AngleType.theteq ty * (np_pi / 180)) 10)) ;;
  ty <- lift (dot (Angle.type angle)) ;;
  set_ "k" (PyFloat.str (PyFloat.round (AngleType.k ty * 4.184 * 2) 3)).

Definition _write_angles (angles : list Angle.t) (unique : bool)
  : M Element unit :=
  SubElement "HarmonicAngleForce" (
    for_ angles (fun angle => SubElement "Angle" (angle_entry angle unique))).

(** *** [_write_periodic_torsions] *)
Definition dihedral_entry (dihedral : Dihedral.t) (unique : bool)
  : M Element unit :=
  let atypes := [Atom.type (Dihedral.atom1 dihedral);
                 Atom.type (Dihedral.atom2 dihedral);
                 Atom.type (Dihedral.atom3 dihedral);
                 Atom.type (Dihedral.atom4 dihedral)] in
  atypes <- (if Dihedral.improper dihedral then
               (* We want the central atom listed first and then sort the
                  remaining atom types. *)
               let atypes := Py.swap02 atypes in
               if unique
               then ret (Py.set_tail atypes (Py.sorted String.ltb (tl atypes)))
               else
                 set_ "id1" (Py.str_int (Atom.idx (Dihedral.atom3 dihedral))) ;;
                 set_ "id2" (Py.str_int (Atom.idx (Dihedral.atom2 dihedral))) ;;
                 set_ "id3" (Py.str_int (Atom.idx (Dihedral.atom1 dihedral))) ;;
                 set_ "id4" (Py.str_int (Atom.idx (Dihedral.atom4 dihedral))) ;;
                 ret atypes
             else
               if unique
               then
                 if String.ltb (Py.last_item atypes) (Py.item atypes 0)
                 then ret (List.rev atypes)
                 else ret atypes
               else
                 set_ "id1" (Py.str_int (Atom.idx (Dihedral.atom1 dihedral))) ;;
                 set_ "id2" (Py.str_int (Atom.idx (Dihedral.atom2 dihedral))) ;;
                 set_ "id3" (Py.str_int (Atom.idx (Dihedral.atom3 dihedral))) ;;
                 set_ "id4" (Py.str_int (Atom.idx (Dihedral.atom4 dihedral))) ;;
                 ret atypes) ;;
  set_types 4 atypes ;;
  ty <- lift (dot (Dihedral.type dihedral)) ;;
  set_ "periodicity1" (Py.str_int (DihedralType.per ty)) ;;
  ty <- lift (dot (Dihedral.type dihedral)) ;;
  set_ "phase1"
       (PyFloat.str (PyFloat.round (DihedralType.phase ty * (np_pi / 180)) 8)) ;;
  ty <- lift (dot (Dihedral.type dihedral)) ;;
  set_ "k1" (PyFloat.str (PyFloat.round (DihedralType.phi_k ty * 4.184) 3)).

Definition _write_periodic_torsions (dihedrals : list Dihedral.t) (unique : bool)
  : M Element unit :=
  SubElement "PeriodicTorsionForce" (
    for_ dihedrals (fun dihedral =>
      let dihedral_type :=
        if Dihedral.improper dihedral then "Improper" else "Proper" in
      SubElement dihedral_type (dihedral_entry dihedral unique))).

(** *** [_write_rb_torsions] *)

(** [getattr(rb_torsion.type, 'c{}'.format(c_id))]. *)
Definition getattr_c (ty : option RBTorsionType.t) (c_id : Z) : result float :=
  match ty with
  | None => Raise AttributeError
  | Some ty =>
      match c_id with
      | 0%Z => Ok (RBTorsionType.c0 ty)
      | 1%Z => Ok (RBTorsionType.c1 ty)
      | 2%Z => Ok (RBTorsionType.c2 ty)
      | 3%Z => Ok (RBTorsionType.c3 ty)
      | 4%Z => Ok (RBTorsionType.c4 ty)
      | 5%Z => Ok (RBTorsionType.c5 ty)
      | _ => Raise AttributeError
      end
  end.

Definition rb_torsion_entry (rb_torsion : RBTorsion.t) (unique : bool)
  : M Element unit :=
  let atypes := [Atom.type (RBTorsion.atom1 rb_torsion);
                 Atom.type (RBTorsion.atom2 rb_torsion);
                 Atom.type (RBTorsion.atom3 rb_torsion);
                 Atom.type (RBTorsion.atom4 rb_torsion)] in
  atypes <- (if unique
             then
               if String.ltb (Py.last_item atypes) (Py.item atypes 0)
               then ret (List.rev atypes)
               else ret atypes
             else
               set_ "id1" (Py.str_int (Atom.idx (RBTorsion.atom1 rb_torsion))) ;;
               set_ "id2" (Py.str_int (Atom.idx (RBTorsion.atom2 rb_torsion))) ;;
               set_ "id3" (Py.str_int (Atom.idx (RBTorsion.atom3 rb_torsion))) ;;
               set_ "id4" (Py.str_int (Atom.idx (RBTorsion.atom4 rb_torsion))) ;;
               ret atypes) ;;
  set_types 4 atypes ;;
  for_ (Py.range 6) (fun c_id =>
    c <- lift (getattr_c (RBTorsion.type rb_torsion) c_id) ;;
    set_ ("c" ++ Py.str_int c_id) (PyFloat.str (PyFloat.round (c * 4.184) 4))).

Definition _write_rb_torsions (rb_torsions : list RBTorsion.t) (unique : bool)
  : M Element unit :=
  SubElement "RBTorsionForce" (
    for_ rb_torsions (fun rb_torsion =>
      SubElement "Proper" (rb_torsion_entry rb_torsion unique))).

(** *** [write_foyer] *)

(** What a call leaves behind: the tree held by the local [root] (there is
    none until [ET.Element('ForceField')] runs) and the files written. *)
Record World := { tree : option Element; files : list (string * Element) }.

Definition no_output : World := {| tree := None; files := [] |}.

(** [root = ET.Element(t)] and the statements that work on [root]. *)
Definition new_tree {A} (t : string) (body : M Element A) : M World A :=
  fun w =>
    let '(root, r) := body (Element_ t) in
    ({| tree := Some root; files := files w |}, r).

(** [ET.ElementTree(root).write(filename, pretty_print=True)]. *)
Definition write (filename : string) : M World unit :=
  fun w =>
    match tree w with
    | Some root => ({| tree := tree w; files := (filename, root) :: files w |}, Ok tt)
    | None => (w, Ok tt)
    end.

Definition write_foyer (self : Structure.t) (filename : string)
           (forcefield : option Forcefield.t) (unique : bool) : M World unit :=
  (* Assume if a Structure has a bond and bond type that the Structure is
     parameterized. *)
  if negb (first_has_type Bond.type (Structure.bonds self))
  then raise Unparametrized
  else
    new_tree "ForceField" (
      _write_atoms self (Structure.atoms self) forcefield unique ;;
      (if first_has_type Bond.type (Structure.bonds self)
       then _write_bonds (Structure.bonds self) unique else ret tt) ;;
      (if first_has_type Angle.type (Structure.angles self)
       then _write_angles (Structure.angles self) unique else ret tt) ;;
      (if first_has_type Dihedral.type (Structure.dihedrals self)
       then _write_periodic_torsions (Structure.dihedrals self) unique
       else ret tt) ;;
      (if first_has_type RBTorsion.type (Structure.rb_torsions self)
       then _write_rb_torsions (Structure.rb_torsions self) unique
       else ret tt) ;;
      _remove_duplicate_elements unique) ;;
    write filename.

(* ================================================================= *)
(** ** Vocabulary of the properties *)

(** The names [type1 .. typeN] and [id1 .. idN], built as the source builds
    them, and the values an element holds under them. *)
Definition type_keys (n : nat) : list string :=
  map (fun id => "type" ++ Py.str_int (id + 1)) (Py.range n).

Definition id_keys (n : nat) : list string :=
  map (fun id => "id" ++ Py.str_int (id + 1)) (Py.range n).

Definition emitted_types (n : nat) (e : Element) : list (option string) :=
  map (get e) (type_keys n).

Definition emitted_ids (n : nat) (e : Element) : list (option string) :=
  map (get e) (id_keys n).

(** The element an entry body leaves under its parent, and how it ended. *)
Definition entry_of (t : string) (body : M Element unit) : Element :=
  fst (body (Element_ t)).

Definition outcome_of (t : string) (body : M Element unit) : result unit :=
  snd (body (Element_ t)).

(** The first section of a tree with a given tag. *)
Definition section_of (root : Element) (t : string) : option Element :=
  find (fun c => String.eqb (tag c) t) (children root).

(** [a] may stand before [b] in a list sorted with [lt]. *)
Definition before {A} (lt : A -> A -> bool) (a b : A) : Prop := lt b a = false.

(** The scale-and-round table of the specification, one row per field: the
    factor is applied as the source writes it, then [round], then [str]. *)
Record conversion := { transform : float -> float; places : Z }.

Definition convert (row : conversion) (x : float) : string :=
  PyFloat.str (PyFloat.round (transform row x) (places row)).

Definition charge_row := {| transform := fun x => x; places := 4 |}.
Definition sigma_row := {| transform := fun x => x; places := 4 |}.
Definition epsilon_row := {| transform := fun x => x * 4.184; places := 6 |}.
Definition bond_length_row := {| transform := fun x => x / 10; places := 4 |}.
Definition bond_k_row := {| transform := fun x => x * 4.184 * 200; places := 1 |}.
Definition angle_row := {| transform := fun x => x * (np_pi / 180); places := 10 |}.
Definition angle_k_row := {| transform := fun x => x * 4.184 * 2; places := 3 |}.
Definition phase_row := {| transform := fun x => x * (np_pi / 180); places := 8 |}.
Definition torsion_k_row := {| transform := fun x => x * 4.184; places := 3 |}.
Definition rb_row := {| transform := fun x => x * 4.184; places := 4 |}.

Definition conversion_table : list conversion :=
  [charge_row; sigma_row; epsilon_row; bond_length_row; bond_k_row;
   angle_row; angle_k_row; phase_row; torsion_k_row; rb_row].

(** The adjusts of a structure as the Lennard-Jones inference sees them. *)
Definition expected_sigma (adj : Adjust.t) : float :=
  (AtomType.sigma (Atom.atom_type (Adjust.atom1 adj))
   + AtomType.sigma (Atom.atom_type (Adjust.atom2 adj))) * 0.5.

Definition expected_epsilon (adj : Adjust.t) : float :=
  PyFloat.pow_half (AtomType.epsilon (Atom.atom_type (Adjust.atom1 adj))
                    * AtomType.epsilon (Atom.atom_type (Adjust.atom2 adj))).

Definition sigma_close (adj : Adjust.t) : bool :=
  PyFloat.isclose (NonbondedExceptionType.sigma (Adjust.type adj))
                  (expected_sigma adj).

Definition ratio (adj : Adjust.t) : float :=
  NonbondedExceptionType.epsilon (Adjust.type adj) / expected_epsilon adj.

(** The topology counts as unparameterised. *)
Definition unparametrized (self : Structure.t) : Prop :=
  Structure.bonds self = []
  \/ exists bond rest, Structure.bonds self = bond :: rest /\ Bond.type bond = None.

(** The de-duplicator as the specification asks for it: the last kept
    entry starts afresh in every section.  Everything else is as in
    [dedup_sections]. *)
Fixpoint dedup_sections_scoped (unique : bool) (sections : list Element)
  : list Element * result unit :=
  match sections with
  | [] => ([], Ok tt)
  | child :: rest =>
      if negb unique && negb (String.eqb (tag child) "AtomTypes") then
        let '(rest', r) := dedup_sections_scoped unique rest in (child :: rest', r)
      else
        match sorted_children child with
        | Raise e => (child :: rest, Raise e)
        | Ok elems =>
            let '(_, kept) := scan None elems in
            let '(rest', r) := dedup_sections_scoped unique rest in
            (set_children child kept :: rest', r)
        end
  end.

Definition remove_duplicates_scoped (unique : bool) : M Element unit :=
  fun root =>
    let '(sections, r) := dedup_sections_scoped unique (children root) in
    (set_children root sections, r).

(** The five emitters in the order and under the tests of [write_foyer]. *)
Definition emit_sections (self : Structure.t) (forcefield : option Forcefield.t)
           (unique : bool) : M Element unit :=
  _write_atoms self (Structure.atoms self) forcefield unique ;;
  (if first_has_type Bond.type (Structure.bonds self)
   then _write_bonds (Structure.bonds self) unique else ret tt) ;;
  (if first_has_type Angle.type (Structure.angles self)
   then _write_angles (Structure.angles self) unique else ret tt) ;;
  (if first_has_type Dihedral.type (Structure.dihedrals self)
   then _write_periodic_torsions (Structure.dihedrals self) unique
   else ret tt) ;;
  (if first_has_type RBTorsion.type (Structure.rb_torsions self)
   then _write_rb_torsions (Structure.rb_torsions self) unique
   else ret tt).

(** An attribute that tells the entries of one section from those of the
    sections before it: [charge], [length], [angle], [phase1], [c0]. *)
Definition has (e : Element) (k : string) : bool := Py.is_not_None (get e k).

Definition level (e : Element) : nat :=
  if has e "c0" then 5
  else if has e "phase1" then 4
  else if has e "angle" then 3
  else if has e "length" then 2
  else if has e "charge" then 1
  else 0.

(** The entries of each section sit on one level, and the levels grow from
    one section to the next. *)
Fixpoint levels_increasing (lo : nat) (sections : list Element) : Prop :=
  match sections with
  | [] => True
  | s :: rest =>
      exists n, (lo <= n)%nat
                /\ Forall (fun e => level e = n) (children s)
                /\ levels_increasing (S n) rest
  end.

Definition below (lo : nat) (prev : option Element) : Prop :=
  match prev with
  | None => True
  | Some p => (level p < lo)%nat
  end.


(** ** Vocabulary of the further properties *)

(** The sort key of an entry for the attribute names [ids], as the lambda
    of [_remove_duplicate_elements] builds it, and the order on keys. *)
Definition entry_key (ids : list string) (elem : Element) : list (option string) :=
  map (fun id => get elem id) ids.

Definition key_le (a b : list (option string)) : Prop := key_lt b a = false.

Definition entry_le (ids : list string) (a b : Element) : Prop :=
  key_le (entry_key ids a) (entry_key ids b).

(** [l] is [l'] with some elements left out. *)
Inductive subsequence {A : Type} : list A -> list A -> Prop :=
| sub_nil : subsequence [] []
| sub_skip (x : A) (l l' : list A) : subsequence l l' -> subsequence l (x :: l')
| sub_keep (x : A) (l l' : list A) : subsequence l l' -> subsequence (x :: l) (x :: l').

(** What may become of a section: the same element but for its entries,
    which are some of the old ones, possibly in another order. *)
Definition pruned (c c' : Element) : Prop :=
  tag c' = tag c /\ text c' = text c /\ tail c' = tail c /\ attrib c' = attrib c
  /\ exists l, Permutation l (children c) /\ subsequence (children c') l.

(** No entry equals the one before it. *)
Definition no_repeat (l : list Element) : Prop :=
  Sorted (fun a b => _elements_equal b (Some a) = false) l.

(** The sections the de-duplicator works on. *)
Definition processed (unique : bool) (c : Element) : bool :=
  unique || String.eqb (tag c) "AtomTypes".




(** The sections as the emitters leave them, before the de-duplicator:
    one entry per atom or term, in the order of the topology. *)
Definition section_if (cond : bool) (s : Element) : list Element :=
  if cond then [s] else [].

Definition emitted_sections (self : Structure.t) (forcefield : option Forcefield.t)
           (unique : bool) (c l : float) : list Element :=
  ([mkElement "AtomTypes" None None []
      (map (fun a => entry_of "Type" (atomtype_entry a forcefield))
           (Structure.atoms self));
    mkElement "NonbondedForce" None None
      [("coulomb14scale", PyFloat.str c); ("lj14scale", PyFloat.str l)]
      (map (fun a => entry_of "Atom" (nb_force_entry a unique))
           (Structure.atoms self))]
   ++ section_if (first_has_type Bond.type (Structure.bonds self))
        (mkElement "HarmonicBondForce" None None []
           (map (fun b => entry_of "Bond" (bond_entry b unique))
                (Structure.bonds self)))
   ++ section_if (first_has_type Angle.type (Structure.angles self))
        (mkElement "HarmonicAngleForce" None None []
           (map (fun a => entry_of "Angle" (angle_entry a unique))
                (Structure.angles self)))
   ++ section_if (first_has_type Dihedral.type (Structure.dihedrals self))
        (mkElement "PeriodicTorsionForce" None None []
           (map (fun d => entry_of (if Dihedral.improper d
                                    then "Improper" else "Proper")
                                   (dihedral_entry d unique))
                (Structure.dihedrals self)))
   ++ section_if (first_has_type RBTorsion.type (Structure.rb_torsions self))
        (mkElement "RBTorsionForce" None None []
           (map (fun t => entry_of "Proper" (rb_torsion_entry t unique))
                (Structure.rb_torsions self))))%list.

(** Every entry of [s] is in [s'], or equal for [_elements_equal] to one
    that is; every entry of [s'] is one of [s]. *)
Definition represents (s s' : Element) : Prop :=
  tag s' = tag s
  /\ (forall k, In k (children s') -> In k (children s))
  /\ (forall e, In e (children s) ->
                exists k, In k (children s')
                          /\ (e = k \/ _elements_equal e (Some k) = true)).

(** [forcefield.d[name]] under the [try] of [_write_atoms]: the value, or
    the empty string when there is no force field or no such name. *)
Definition annotation (forcefield : option Forcefield.t)
           (d : Forcefield.t -> list (string * string)) (name : string) : string :=
  match forcefield with
  | Some ff => match assoc_get (d ff) name with
               | Some v => v
               | None => ""
               end
  | None => ""
  end.

(** The attribute names of an element, in the order in which they were
    first set. *)
Definition attribute_names (e : Element) : list string := map fst (attrib e).


(** An element as lxml can hold it: at every node the attribute names are
    distinct, as the keys of a dictionary are. *)
Fixpoint distinct (ks : list string) : bool :=
  match ks with
  | [] => true
  | k :: ks' => negb (existsb (String.eqb k) ks') && distinct ks'
  end.

Fixpoint well_formed (e : Element) : bool :=
  let '(mkElement _ _ _ a cs) := e in
  distinct (map fst a) && forallb well_formed cs.

(** [all([_elements_equal(c1, c2) for c1, c2 in zip(cs1, cs2)])]. *)
Fixpoint all_equal (cs1 cs2 : list Element) : bool :=
  match cs1, cs2 with
  | c1 :: cs1', c2 :: cs2' => _elements_equal c1 (Some c2) && all_equal cs1' cs2'
  | _, _ => true
  end.

(** A section in which the sort key settles the entry: any two entries
    have different keys or are equal for [_elements_equal]. *)
Definition consistent (ids : list string) (l : list Element) : bool :=
  forallb (fun a =>
    forallb (fun b =>
      key_lt (entry_key ids a) (entry_key ids b)
      || key_lt (entry_key ids b) (entry_key ids a)
      || _elements_equal b (Some a)) l) l.

(** Every entry has a larger key than the one before it: one entry per
    key. *)
Definition one_per_key (ids : list string) (l : list Element) : Prop :=
  StronglySorted (fun a b => key_lt (entry_key ids a) (entry_key ids b) = true) l.

(** The same term with its atoms listed from the other end. *)
Definition flip_bond (b : Bond.t) : Bond.t :=
  Bond.Build_t (Bond.atom2 b) (Bond.atom1 b) (Bond.type b).

Definition flip_angle (a : Angle.t) : Angle.t :=
  Angle.Build_t (Angle.atom3 a) (Angle.atom2 a) (Angle.atom1 a) (Angle.type a).

Definition flip_dihedral (d : Dihedral.t) : Dihedral.t :=
  Dihedral.Build_t (Dihedral.atom4 d) (Dihedral.atom3 d) (Dihedral.atom2 d)
                   (Dihedral.atom1 d) (Dihedral.improper d) (Dihedral.type d).

Definition flip_rb (rb : RBTorsion.t) : RBTorsion.t :=
  RBTorsion.Build_t (RBTorsion.atom4 rb) (RBTorsion.atom3 rb) (RBTorsion.atom2 rb)
                    (RBTorsion.atom1 rb) (RBTorsion.type rb).

(** A torsion whose two readings get one key: the end names differ or the
    inner names agree. *)
Definition reversible (a1 a2 a3 a4 : Atom.t) : Prop :=
  Atom.type a1 <> Atom.type a4 \/ Atom.type a2 = Atom.type a3.

(** The lists of bonded terms of a structure with some terms listed from
    the other end: any bond and angle, and the proper torsions that are
    [reversible]. *)
Definition bonds_relisted (l l' : list Bond.t) : Prop :=
  Forall2 (fun b b' => b' = b \/ b' = flip_bond b) l l'.

Definition angles_relisted (l l' : list Angle.t) : Prop :=
  Forall2 (fun a a' => a' = a \/ a' = flip_angle a) l l'.

Definition dihedrals_relisted (l l' : list Dihedral.t) : Prop :=
  Forall2 (fun d d' =>
             d' = d
             \/ (d' = flip_dihedral d /\ Dihedral.improper d = false
                 /\ reversible (Dihedral.atom1 d) (Dihedral.atom2 d)
                               (Dihedral.atom3 d) (Dihedral.atom4 d))) l l'.

Definition rb_torsions_relisted (l l' : list RBTorsion.t) : Prop :=
  Forall2 (fun r r' =>
             r' = r
             \/ (r' = flip_rb r
                 /\ reversible (RBTorsion.atom1 r) (RBTorsion.atom2 r)
                               (RBTorsion.atom3 r) (RBTorsion.atom4 r))) l l'.



(** ** Sample topologies *)

Module Examples.

Definition CT : AtomType.t :=
  {| AtomType.name := "CT"; AtomType.sigma := 3.5; AtomType.epsilon := 0.066 |}.
Definition OS : AtomType.t :=
  {| AtomType.name := "OS"; AtomType.sigma := 2.9; AtomType.epsilon := 0.14 |}.
Definition HC : AtomType.t :=
  {| AtomType.name := "HC"; AtomType.sigma := 2.5; AtomType.epsilon := 0.03 |}.
(** A hydroxyl hydrogen: no Lennard-Jones site of its own. *)
Definition HO : AtomType.t :=
  {| AtomType.name := "HO"; AtomType.sigma := 0; AtomType.epsilon := 0 |}.
Definition OH : AtomType.t :=
  {| AtomType.name := "OH"; AtomType.sigma := 3.12; AtomType.epsilon := 0.17 |}.
Definition F : AtomType.t :=
  {| AtomType.name := "F"; AtomType.sigma := 2.95; AtomType.epsilon := 0.053 |}.
Definition CA : AtomType.t :=
  {| AtomType.name := "CA"; AtomType.sigma := 3.55; AtomType.epsilon := 0.07 |}.

Definition atom (i : Z) (ty : AtomType.t) (m q : float) : Atom.t :=
  {| Atom.idx := i; Atom.type := AtomType.name ty; Atom.atom_type := ty;
     Atom.mass := m; Atom.charge := q |}.

(** An atom that only carries a type name. *)
Definition named (i : Z) (n : string) : Atom.t :=
  atom i {| AtomType.name := n; AtomType.sigma := 3; AtomType.epsilon := 0.1 |}
       12.011 0.

Definition bond_CT_CT : BondType.t := {| BondType.req := 1.529; BondType.k := 268 |}.
Definition bond_CT_OS : BondType.t := {| BondType.req := 1.41; BondType.k := 320 |}.
Definition angle_C_C_O : AngleType.t := {| AngleType.theteq := 109.5; AngleType.k := 50 |}.
Definition angle_C_O_C : AngleType.t := {| AngleType.theteq := 109.5; AngleType.k := 60 |}.
Definition torsion_C_C_O_C : DihedralType.t :=
  {| DihedralType.per := 3; DihedralType.phase := 0; DihedralType.phi_k := 0.383 |}.
Definition rb_C_C_O_C : RBTorsionType.t :=
  {| RBTorsionType.c0 := 0.65; RBTorsionType.c1 := -0.25; RBTorsionType.c2 := 0.67;
     RBTorsionType.c3 := 0; RBTorsionType.c4 := 0; RBTorsionType.c5 := 0 |}.
Definition pair14_CT_CT : NonbondedExceptionType.t :=
  {| NonbondedExceptionType.sigma := 3.5; NonbondedExceptionType.epsilon := 0.033;
     NonbondedExceptionType.chgscale := 0.5 |}.

(** *** Diethyl ether, heavy atoms only: C0-C1-O2-C3-C4.
    Its two C-C-O-C torsions are listed in the direction of the chain, so
    one reads (CT, CT, OS, CT) and the other (CT, OS, CT, CT). *)
Definition c0 := atom 0 CT 12.011 (-0.18).
Definition c1 := atom 1 CT 12.011 0.14.
Definition o2 := atom 2 OS 15.9994 (-0.4).
Definition c3 := atom 3 CT 12.011 0.14.
Definition c4 := atom 4 CT 12.011 (-0.18).

Definition torsion_fwd : Dihedral.t :=
  Dihedral.Build_t c0 c1 o2 c3 false (Some torsion_C_C_O_C).
Definition torsion_bwd : Dihedral.t :=
  Dihedral.Build_t c1 o2 c3 c4 false (Some torsion_C_C_O_C).
Definition rb_fwd : RBTorsion.t := RBTorsion.Build_t c0 c1 o2 c3 (Some rb_C_C_O_C).
Definition rb_bwd : RBTorsion.t := RBTorsion.Build_t c1 o2 c3 c4 (Some rb_C_C_O_C).

Definition diethyl_ether : Structure.t :=
  {| Structure.atoms := [c0; c1; o2; c3; c4];
     Structure.bonds := [Bond.Build_t c0 c1 (Some bond_CT_CT);
                         Bond.Build_t c1 o2 (Some bond_CT_OS);
                         Bond.Build_t o2 c3 (Some bond_CT_OS);
                         Bond.Build_t c3 c4 (Some bond_CT_CT)];
     Structure.angles := [Angle.Build_t c0 c1 o2 (Some angle_C_C_O);
                          Angle.Build_t c1 o2 c3 (Some angle_C_O_C);
                          Angle.Build_t o2 c3 c4 (Some angle_C_C_O)];
     Structure.dihedrals := [torsion_fwd; torsion_bwd];
     Structure.rb_torsions := [];
     Structure.adjusts := [Adjust.Build_t c0 c3 pair14_CT_CT;
                           Adjust.Build_t c1 c4 pair14_CT_CT] |}.

(** *** An improper whose atoms are listed H, N, C, O; C is the centre. *)
Definition improper_HNCO : Dihedral.t :=
  Dihedral.Build_t (named 0 "H") (named 1 "N") (named 2 "C") (named 3 "O") true
    (Some {| DihedralType.per := 2; DihedralType.phase := 180;
             DihedralType.phi_k := 10.5 |}).


(** *** Methanol, H3-C0-O1-H2: the pair H3...H2 ends on the hydroxyl
    hydrogen, whose well depth is zero. *)
Definition m_c := atom 0 CT 12.011 0.145.
Definition m_o := atom 1 OH 15.9994 (-0.683).
Definition m_ho := atom 2 HO 1.008 0.418.
Definition m_hc := atom 3 HC 1.008 0.04.

Definition pair14_HC_HO : NonbondedExceptionType.t :=
  {| NonbondedExceptionType.sigma := 1.25; NonbondedExceptionType.epsilon := 0;
     NonbondedExceptionType.chgscale := 0.5 |}.

Definition methanol : Structure.t :=
  {| Structure.atoms := [m_c; m_o; m_ho; m_hc];
     Structure.bonds := [Bond.Build_t m_c m_o (Some bond_CT_OS);
                         Bond.Build_t m_o m_ho (Some {| BondType.req := 0.945; BondType.k := 553 |});
                         Bond.Build_t m_c m_hc (Some {| BondType.req := 1.09; BondType.k := 340 |})];
     Structure.angles := []; Structure.dihedrals := []; Structure.rb_torsions := [];
     Structure.adjusts := [Adjust.Build_t m_hc m_ho pair14_HC_HO] |}.

(** *** Water: bonds with types, and no pair of atoms three bonds apart. *)
Definition w_o := atom 0 OH 15.9994 (-0.834).
Definition w_h1 := atom 1 HO 1.008 0.417.
Definition w_h2 := atom 2 HO 1.008 0.417.

Definition water : Structure.t :=
  let oh := Some {| BondType.req := 0.9572; BondType.k := 450 |} in
  {| Structure.atoms := [w_o; w_h1; w_h2];
     Structure.bonds := [Bond.Build_t w_o w_h1 oh; Bond.Build_t w_o w_h2 oh];
     Structure.angles := []; Structure.dihedrals := []; Structure.rb_torsions := [];
     Structure.adjusts := [] |}.

(** *** A fluorine atom, with the mass of the periodic table. *)
Definition fluorine : Atom.t := atom 0 F 18.9984032 (-0.22).

(** *** Four aromatic carbons that carry a proper and an improper torsion
    with the same constants. *)
Definition r0 := atom 0 CA 12.011 0.
Definition r1 := atom 1 CA 12.011 0.
Definition r2 := atom 2 CA 12.011 0.
Definition r3 := atom 3 CA 12.011 0.

Definition torsion_CA : DihedralType.t :=
  {| DihedralType.per := 2; DihedralType.phase := 180; DihedralType.phi_k := 1.1 |}.

Definition ring : Structure.t :=
  let cc := Some {| BondType.req := 1.4; BondType.k := 469 |} in
  {| Structure.atoms := [r0; r1; r2; r3];
     Structure.bonds := [Bond.Build_t r0 r1 cc; Bond.Build_t r1 r2 cc;
                         Bond.Build_t r2 r3 cc];
     Structure.angles := [];
     Structure.dihedrals := [Dihedral.Build_t r0 r1 r2 r3 false (Some torsion_CA);
                             Dihedral.Build_t r0 r1 r2 r3 true (Some torsion_CA)];
     Structure.rb_torsions := [];
     Structure.adjusts := [Adjust.Build_t r0 r3
                             {| NonbondedExceptionType.sigma := 3.55;
                                NonbondedExceptionType.epsilon := 0.035;
                                NonbondedExceptionType.chgscale := 0.5 |}] |}.

(** *** Two elements that differ in their tag only. *)
Definition proper_elem : Element :=
  mkElement "Proper" None None [("type1", "CA"); ("k1", "4.602")] [].
Definition improper_elem : Element :=
  mkElement "Improper" None None [("type1", "CA"); ("k1", "4.602")] [].

(** *** A tree whose torsion sections hold the same entry. *)
Definition torsion_elem : Element :=
  mkElement "Proper" None None
    [("type1", "CT"); ("type2", "CT"); ("type3", "CT"); ("type4", "CT")] [].


(** *** A bond section out of order and with a repeated entry. *)
Definition bond_elem (type1 type2 length k : string) : Element :=
  mkElement "Bond" None None
    [("type1", type1); ("type2", type2); ("length", length); ("k", k)] [].

(** Two bonds between the same types with different lengths. *)
Definition bond_short : Element := bond_elem "CT" "OS" "0.141" "267776.0".
Definition bond_long : Element := bond_elem "CT" "OS" "0.143" "267776.0".

Definition unsorted_bonds : Element :=
  mkElement "ForceField" None None []
    [mkElement "HarmonicBondForce" None None []
       [bond_short; bond_elem "CT" "CT" "0.1529" "224262.4"; bond_short]].

(** *** Diethyl ether with its bonds and angles listed from the other end. *)
Definition diethyl_ether_relisted : Structure.t :=
  {| Structure.atoms := Structure.atoms diethyl_ether;
     Structure.bonds := map flip_bond (Structure.bonds diethyl_ether);
     Structure.angles := map flip_angle (Structure.angles diethyl_ether);
     Structure.dihedrals := Structure.dihedrals diethyl_ether;
     Structure.rb_torsions := Structure.rb_torsions diethyl_ether;
     Structure.adjusts := Structure.adjusts diethyl_ether |}.



End Examples.

(* ================================================================= *)
(** * Properties *)

Import Examples.

(** Unfolds the body of an entry down to its [bind]s. *)
Ltac run_entry :=
  cbv [entry_of outcome_of bond_entry angle_entry dihedral_entry rb_torsion_entry].

(** ** Order on atom-type names *)

Lemma ltb_asym (a b : string) : String.ltb a b = true -> String.ltb b a = false.
Proof.
  unfold String.ltb. rewrite (String.compare_antisym a b).
  destruct (String.compare b a); simpl; congruence.
Qed.

Lemma ltb_trichotomy (a b : string) :
  String.ltb a b = false -> String.ltb b a = false -> a = b.
Proof.
  unfold String.ltb. rewrite (String.compare_antisym a b).
  destruct (String.compare b a) eqn:E; simpl; try congruence.
  intros _ _. symmetry. now apply String.compare_eq_iff.
Qed.

Lemma ltb_irrefl (a : string) : String.ltb a a = false.
Proof.
  destruct (String.ltb a a) eqn:E; [|reflexivity].
  now rewrite (ltb_asym _ _ E) in E.
Qed.

Lemma not_ltb_leb (a b : string) : String.ltb b a = false -> String.leb a b = true.
Proof.
  unfold String.ltb, String.leb. rewrite (String.compare_antisym a b).
  destruct (String.compare b a); simpl; congruence.
Qed.

(** ** [sorted] returns a sorted permutation *)

Section SortedFacts.
Context {A : Type} (lt : A -> A -> bool).
Hypothesis lt_asym : forall a b, lt a b = true -> lt b a = false.

Lemma insert_perm (x : A) (l : list A) : Permutation (Py.insert lt x l) (x :: l).
Proof.
  induction l as [|y l IH]; simpl.
  - apply Permutation_refl.
  - destruct (lt y x).
    + eapply perm_trans; [apply perm_skip, IH | apply perm_swap].
    + apply Permutation_refl.
Qed.

Lemma sorted_perm (l : list A) : Permutation (Py.sorted lt l) l.
Proof.
  induction l as [|x l IH]; simpl.
  - constructor.
  - eapply perm_trans; [apply insert_perm | now apply perm_skip].
Qed.

Lemma insert_hd (x y : A) (l : list A) :
  before lt y x -> HdRel (before lt) y l -> HdRel (before lt) y (Py.insert lt x l).
Proof.
  unfold before. intros Hyx Hl. destruct l as [|z l]; simpl.
  - now constructor.
  - destruct (lt z x); constructor; auto. now inversion Hl.
Qed.

Lemma insert_Sorted (x : A) (l : list A) :
  Sorted (before lt) l -> Sorted (before lt) (Py.insert lt x l).
Proof.
  induction l as [|y l IH]; simpl; intros Hs.
  - repeat constructor.
  - inversion Hs as [|? ? Hl Hhd]; subst.
    destruct (lt y x) eqn:E.
    + constructor; [now apply IH|].
      apply insert_hd; [now apply lt_asym | assumption].
    + constructor; [assumption | now constructor].
Qed.

Lemma sorted_Sorted (l : list A) : Sorted (before lt) (Py.sorted lt l).
Proof.
  induction l as [|x l IH]; simpl.
  - constructor.
  - now apply insert_Sorted.
Qed.

End SortedFacts.

(** On three names the result is an ascending rearrangement. *)
Lemma sorted3 (a b c : string) :
  exists x y z,
    Py.sorted String.ltb [a; b; c] = [x; y; z]
    /\ Permutation [x; y; z] [a; b; c]
    /\ String.leb x y = true /\ String.leb y z = true.
Proof.
  pose proof (sorted_perm String.ltb [a; b; c]) as P.
  pose proof (sorted_Sorted String.ltb ltb_asym [a; b; c]) as S.
  destruct (Py.sorted String.ltb [a; b; c]) as [|x [|y [|z [|w l]]]] eqn:E;
    try (apply Permutation_length in P; simpl in P; discriminate).
  exists x, y, z. repeat split; auto.
  - inversion S as [|? ? _ H]; subst. inversion H; subst.
    now apply not_ltb_leb.
  - inversion S as [|? ? S' _]; subst. inversion S' as [|? ? _ H]; subst.
    inversion H; subst. now apply not_ltb_leb.
Qed.

(** ** The type tuple of each kind of entry *)

(** Unique mode, bonds: the two names, sorted. *)
Lemma bond_types_unique (bond : Bond.t) :
  emitted_types 2 (entry_of "Bond" (bond_entry bond true))
  = map Some (Py.sorted String.ltb
                [Atom.type (Bond.atom1 bond); Atom.type (Bond.atom2 bond)]).
Proof.
  run_entry. cbv [Py.sorted fold_right Py.insert].
  destruct (Bond.type bond), (String.ltb _ _); reflexivity.
Qed.

(** Unique mode, angles: the end names sorted, the middle one in place. *)
Lemma angle_types_unique (angle : Angle.t) :
  emitted_types 3 (entry_of "Angle" (angle_entry angle true))
  = match Py.sorted String.ltb
            [Atom.type (Angle.atom1 angle); Atom.type (Angle.atom3 angle)] with
    | [x; z] => map Some [x; Atom.type (Angle.atom2 angle); z]
    | _ => []
    end.
Proof.
  run_entry. cbv [Py.sorted fold_right Py.insert Py.step2 Py.set_step2].
  destruct (Angle.type angle), (String.ltb _ _); reflexivity.
Qed.

(** Unique mode, proper torsions: reversed when the first name is greater
    than the last, left alone otherwise. *)
Lemma proper_types_unique (a1 a2 a3 a4 : Atom.t) (ty : option DihedralType.t) :
  emitted_types 4
    (entry_of "Proper"
       (dihedral_entry (Dihedral.Build_t a1 a2 a3 a4 false ty) true))
  = map Some (if String.ltb (Atom.type a4) (Atom.type a1)
              then [Atom.type a4; Atom.type a3; Atom.type a2; Atom.type a1]
              else [Atom.type a1; Atom.type a2; Atom.type a3; Atom.type a4]).
Proof.
  run_entry. cbv [Dihedral.improper Py.last_item Py.item last nth Z.to_nat].
  destruct ty, (String.ltb _ _); reflexivity.
Qed.

Lemma rb_types_unique (rb : RBTorsion.t) :
  emitted_types 4 (entry_of "Proper" (rb_torsion_entry rb true))
  = map Some
      (if String.ltb (Atom.type (RBTorsion.atom4 rb)) (Atom.type (RBTorsion.atom1 rb))
       then [Atom.type (RBTorsion.atom4 rb); Atom.type (RBTorsion.atom3 rb);
             Atom.type (RBTorsion.atom2 rb); Atom.type (RBTorsion.atom1 rb)]
       else [Atom.type (RBTorsion.atom1 rb); Atom.type (RBTorsion.atom2 rb);
             Atom.type (RBTorsion.atom3 rb); Atom.type (RBTorsion.atom4 rb)]).
Proof.
  run_entry. cbv [Py.last_item Py.item last nth Z.to_nat].
  destruct (RBTorsion.type rb), (String.ltb _ _); reflexivity.
Qed.

(** ** Reading a term backwards *)

Lemma sorted2_sym (a b : string) :
  Py.sorted String.ltb [a; b] = Py.sorted String.ltb [b; a].
Proof.
  cbv [Py.sorted fold_right Py.insert].
  destruct (String.ltb b a) eqn:Hba, (String.ltb a b) eqn:Hab; try reflexivity.
  - now rewrite (ltb_asym _ _ Hba) in Hab.
  - now rewrite (ltb_trichotomy _ _ Hab Hba).
Qed.

(** A bond read end-to-start gets the same key. *)
Lemma bond_key_symmetric (a1 a2 : Atom.t) (ty ty' : option BondType.t) :
  emitted_types 2 (entry_of "Bond" (bond_entry (Bond.Build_t a1 a2 ty) true))
  = emitted_types 2 (entry_of "Bond" (bond_entry (Bond.Build_t a2 a1 ty') true)).
Proof.
  rewrite !bond_types_unique. cbn [Bond.atom1 Bond.atom2].
  now rewrite sorted2_sym.
Qed.

(** An angle read end-to-start gets the same key. *)
Lemma angle_key_symmetric (a1 a2 a3 : Atom.t) (ty ty' : option AngleType.t) :
  emitted_types 3 (entry_of "Angle" (angle_entry (Angle.Build_t a1 a2 a3 ty) true))
  = emitted_types 3 (entry_of "Angle" (angle_entry (Angle.Build_t a3 a2 a1 ty') true)).
Proof.
  rewrite !angle_types_unique. cbn [Angle.atom1 Angle.atom2 Angle.atom3].
  now rewrite sorted2_sym.
Qed.

(** A proper torsion read end-to-start gets the same key as soon as its two
    end names differ, or its two inner names agree. *)
Lemma proper_key_symmetric (a1 a2 a3 a4 : Atom.t) (ty ty' : option DihedralType.t) :
  Atom.type a1 <> Atom.type a4 \/ Atom.type a2 = Atom.type a3 ->
  emitted_types 4
    (entry_of "Proper" (dihedral_entry (Dihedral.Build_t a1 a2 a3 a4 false ty) true))
  = emitted_types 4
      (entry_of "Proper" (dihedral_entry (Dihedral.Build_t a4 a3 a2 a1 false ty') true)).
Proof.
  intros H. rewrite !proper_types_unique.
  destruct (String.ltb (Atom.type a4) (Atom.type a1)) eqn:H41,
           (String.ltb (Atom.type a1) (Atom.type a4)) eqn:H14; try reflexivity.
  - now rewrite (ltb_asym _ _ H41) in H14.
  - pose proof (ltb_trichotomy _ _ H14 H41) as E.
    destruct H as [H|H]; [contradiction|]. now rewrite E, H.
Qed.

(** And only then: with equal end names and different inner names the two
    readings keep their own order. *)
Lemma proper_key_asymmetric (a1 a2 a3 a4 : Atom.t) (ty ty' : option DihedralType.t) :
  Atom.type a1 = Atom.type a4 -> Atom.type a2 <> Atom.type a3 ->
  emitted_types 4
    (entry_of "Proper" (dihedral_entry (Dihedral.Build_t a1 a2 a3 a4 false ty) true))
  <> emitted_types 4
       (entry_of "Proper" (dihedral_entry (Dihedral.Build_t a4 a3 a2 a1 false ty') true)).
Proof.
  intros H14 H23. rewrite !proper_types_unique, H14, ltb_irrefl.
  cbn [map]. intros [= E]. now apply H23.
Qed.

Lemma rb_key_symmetric (a1 a2 a3 a4 : Atom.t) (ty ty' : option RBTorsionType.t) :
  Atom.type a1 <> Atom.type a4 \/ Atom.type a2 = Atom.type a3 ->
  emitted_types 4
    (entry_of "Proper" (rb_torsion_entry (RBTorsion.Build_t a1 a2 a3 a4 ty) true))
  = emitted_types 4
      (entry_of "Proper" (rb_torsion_entry (RBTorsion.Build_t a4 a3 a2 a1 ty') true)).
Proof.
  intros H. rewrite !rb_types_unique.
  cbn [RBTorsion.atom1 RBTorsion.atom2 RBTorsion.atom3 RBTorsion.atom4].
  destruct (String.ltb (Atom.type a4) (Atom.type a1)) eqn:H41,
           (String.ltb (Atom.type a1) (Atom.type a4)) eqn:H14; try reflexivity.
  - now rewrite (ltb_asym _ _ H41) in H14.
  - pose proof (ltb_trichotomy _ _ H14 H41) as E.
    destruct H as [H|H]; [contradiction|]. now rewrite E, H.
Qed.


(** ** Improper torsions in unique mode *)

(** C2. In unique mode the entry of an improper dihedral with atom types
    (t1, t2, t3, t4) carries type1 = t3, the type of the third-listed
    (central) atom, and under type2..type4 the names t2, t1, t4 in ascending
    order. *)
Theorem improper_central_first_rest_sorted (d : Dihedral.t) :
  Dihedral.improper d = true ->
  exists x y z,
    emitted_types 4 (entry_of "Improper" (dihedral_entry d true))
    = map Some [Atom.type (Dihedral.atom3 d); x; y; z]
    /\ Py.sorted String.ltb [Atom.type (Dihedral.atom2 d);
                             Atom.type (Dihedral.atom1 d);
                             Atom.type (Dihedral.atom4 d)] = [x; y; z]
    /\ Permutation [x; y; z] [Atom.type (Dihedral.atom2 d);
                              Atom.type (Dihedral.atom1 d);
                              Atom.type (Dihedral.atom4 d)]
    /\ String.leb x y = true /\ String.leb y z = true.
Proof.
  intros Himp.
  destruct (sorted3 (Atom.type (Dihedral.atom2 d)) (Atom.type (Dihedral.atom1 d))
                    (Atom.type (Dihedral.atom4 d)))
    as (x & y & z & E & P & Lxy & Lyz).
  exists x, y, z. repeat split; auto.
  run_entry. rewrite Himp. cbv [Py.swap02 Py.set_tail tl]. rewrite E.
  destruct (Dihedral.type d); reflexivity.
Qed.

(** The scenario of the specification: atoms listed (H, N, C, O) give the
    key (C, H, N, O). *)
Lemma improper_HNCO_key :
  emitted_types 4 (entry_of "Improper" (dihedral_entry improper_HNCO true))
  = map Some ["C"; "H"; "N"; "O"].
Proof.
  destruct (improper_central_first_rest_sorted improper_HNCO eq_refl)
    as (x & y & z & E & S & _).
  rewrite E. injection S as <- <- <-. reflexivity.
Defined.


(** ** The key of a torsion whose end names tie *)

(** C1. The two C-C-O-C torsions of diethyl ether are the same term read
    in opposite directions; their end names tie, so neither tuple is
    reversed and the two keys differ, for periodic and for RB torsions
    alike.  The written document then holds two [Proper] entries for the
    one torsion type. *)
Theorem torsion_keys_differ_when_ends_tie :
  emitted_types 4 (entry_of "Proper" (dihedral_entry torsion_fwd true))
  = map Some ["CT"; "CT"; "OS"; "CT"]
  /\ emitted_types 4 (entry_of "Proper" (dihedral_entry torsion_bwd true))
     = map Some ["CT"; "OS"; "CT"; "CT"]
  /\ emitted_types 4 (entry_of "Proper" (rb_torsion_entry rb_fwd true))
     = map Some ["CT"; "CT"; "OS"; "CT"]
  /\ emitted_types 4 (entry_of "Proper" (rb_torsion_entry rb_bwd true))
     = map Some ["CT"; "OS"; "CT"; "CT"]
  /\ exists root,
       write_foyer diethyl_ether "ether.xml" None true no_output
       = ({| tree := Some root; files := [("ether.xml", root)] |}, Ok tt)
       /\ option_map (fun s => map (emitted_types 4) (children s))
                     (section_of root "PeriodicTorsionForce")
          = Some [map Some ["CT"; "CT"; "OS"; "CT"];
                  map Some ["CT"; "OS"; "CT"; "CT"]].
Proof.
  repeat split; try reflexivity.
  eexists. split; vm_compute; reflexivity.
Qed.

(** ** Per-instance mode *)

Lemma bond_instance (bond : Bond.t) :
  emitted_types 2 (entry_of "Bond" (bond_entry bond false))
  = map Some [Atom.type (Bond.atom1 bond); Atom.type (Bond.atom2 bond)]
  /\ emitted_ids 2 (entry_of "Bond" (bond_entry bond false))
     = map Some [Py.str_int (Atom.idx (Bond.atom1 bond));
                 Py.str_int (Atom.idx (Bond.atom2 bond))].
Proof. run_entry. destruct (Bond.type bond); split; reflexivity. Qed.

Lemma angle_instance (angle : Angle.t) :
  emitted_types 3 (entry_of "Angle" (angle_entry angle false))
  = map Some [Atom.type (Angle.atom1 angle); Atom.type (Angle.atom2 angle);
              Atom.type (Angle.atom3 angle)]
  /\ emitted_ids 3 (entry_of "Angle" (angle_entry angle false))
     = map Some [Py.str_int (Atom.idx (Angle.atom1 angle));
                 Py.str_int (Atom.idx (Angle.atom2 angle));
                 Py.str_int (Atom.idx (Angle.atom3 angle))].
Proof. run_entry. destruct (Angle.type angle); split; reflexivity. Qed.

Lemma proper_instance (a1 a2 a3 a4 : Atom.t) (ty : option DihedralType.t) :
  let e := entry_of "Proper"
             (dihedral_entry (Dihedral.Build_t a1 a2 a3 a4 false ty) false) in
  emitted_types 4 e
  = map Some [Atom.type a1; Atom.type a2; Atom.type a3; Atom.type a4]
  /\ emitted_ids 4 e
     = map Some [Py.str_int (Atom.idx a1); Py.str_int (Atom.idx a2);
                 Py.str_int (Atom.idx a3); Py.str_int (Atom.idx a4)].
Proof. run_entry. destruct ty; split; reflexivity. Qed.

Lemma rb_instance (rb : RBTorsion.t) :
  let e := entry_of "Proper" (rb_torsion_entry rb false) in
  emitted_types 4 e
  = map Some [Atom.type (RBTorsion.atom1 rb); Atom.type (RBTorsion.atom2 rb);
              Atom.type (RBTorsion.atom3 rb); Atom.type (RBTorsion.atom4 rb)]
  /\ emitted_ids 4 e
     = map Some [Py.str_int (Atom.idx (RBTorsion.atom1 rb));
                 Py.str_int (Atom.idx (RBTorsion.atom2 rb));
                 Py.str_int (Atom.idx (RBTorsion.atom3 rb));
                 Py.str_int (Atom.idx (RBTorsion.atom4 rb))].
Proof. run_entry. destruct (RBTorsion.type rb); split; reflexivity. Qed.

(** An improper keeps the swap of its first and third atom in this mode
    too: names and indices both come out as (3, 2, 1, 4), not re-sorted. *)
Lemma improper_instance (a1 a2 a3 a4 : Atom.t) (ty : option DihedralType.t) :
  let e := entry_of "Improper"
             (dihedral_entry (Dihedral.Build_t a1 a2 a3 a4 true ty) false) in
  emitted_types 4 e
  = map Some [Atom.type a3; Atom.type a2; Atom.type a1; Atom.type a4]
  /\ emitted_ids 4 e
     = map Some [Py.str_int (Atom.idx a3); Py.str_int (Atom.idx a2);
                 Py.str_int (Atom.idx a1); Py.str_int (Atom.idx a4)].
Proof. run_entry. destruct ty; split; reflexivity. Qed.

(** In this mode the de-duplicator leaves every section but [AtomTypes] as
    the emitter built it. *)
Lemma dedup_sections_instance_mode (prev : option Element) (sections : list Element) :
  filter (fun c => negb (String.eqb (tag c) "AtomTypes"))
         (fst (dedup_sections false prev sections))
  = filter (fun c => negb (String.eqb (tag c) "AtomTypes")) sections.
Proof.
  revert prev. induction sections as [|child rest IH]; intros prev; [reflexivity|].
  cbn [dedup_sections negb andb].
  destruct (String.eqb (tag child) "AtomTypes") eqn:Htag; cbn [negb].
  - destruct (sorted_children child) as [elems|e].
    + destruct (scan prev elems) as [prev' kept].
      specialize (IH prev'). destruct (dedup_sections false prev' rest) as [rest' r].
      cbn [fst filter] in *.
      assert (Ht : tag (set_children child kept) = tag child) by now destruct child.
      now rewrite Ht, Htag, IH.
    + reflexivity.
  - specialize (IH prev). destruct (dedup_sections false prev rest) as [rest' r].
    cbn [fst filter] in *. now rewrite Htag, IH.
Qed.

(** C8 (as amended). In per-instance mode every entry carries id1..idN next
    to type1..typeN.  For bonds, angles, proper torsions and RB torsions both
    follow the order in which the term lists its atoms.  For an improper
    torsion both follow the order (atom3, atom2, atom1, atom4): the central
    atom is still moved to the front, and nothing is sorted.  The
    de-duplicator does not touch these sections in this mode. *)
Theorem instance_mode_types_and_ids :
  (forall bond : Bond.t,
      emitted_types 2 (entry_of "Bond" (bond_entry bond false))
      = map Some [Atom.type (Bond.atom1 bond); Atom.type (Bond.atom2 bond)]
      /\ emitted_ids 2 (entry_of "Bond" (bond_entry bond false))
         = map Some [Py.str_int (Atom.idx (Bond.atom1 bond));
                     Py.str_int (Atom.idx (Bond.atom2 bond))])
  /\ (forall angle : Angle.t,
         emitted_types 3 (entry_of "Angle" (angle_entry angle false))
         = map Some [Atom.type (Angle.atom1 angle); Atom.type (Angle.atom2 angle);
                     Atom.type (Angle.atom3 angle)]
         /\ emitted_ids 3 (entry_of "Angle" (angle_entry angle false))
            = map Some [Py.str_int (Atom.idx (Angle.atom1 angle));
                        Py.str_int (Atom.idx (Angle.atom2 angle));
                        Py.str_int (Atom.idx (Angle.atom3 angle))])
  /\ (forall (a1 a2 a3 a4 : Atom.t) (ty : option DihedralType.t),
         let e := entry_of "Proper"
                    (dihedral_entry (Dihedral.Build_t a1 a2 a3 a4 false ty) false) in
         emitted_types 4 e
         = map Some [Atom.type a1; Atom.type a2; Atom.type a3; Atom.type a4]
         /\ emitted_ids 4 e
            = map Some [Py.str_int (Atom.idx a1); Py.str_int (Atom.idx a2);
                        Py.str_int (Atom.idx a3); Py.str_int (Atom.idx a4)])
  /\ (forall rb : RBTorsion.t,
         let e := entry_of "Proper" (rb_torsion_entry rb false) in
         emitted_types 4 e
         = map Some [Atom.type (RBTorsion.atom1 rb); Atom.type (RBTorsion.atom2 rb);
                     Atom.type (RBTorsion.atom3 rb); Atom.type (RBTorsion.atom4 rb)]
         /\ emitted_ids 4 e
            = map Some [Py.str_int (Atom.idx (RBTorsion.atom1 rb));
                        Py.str_int (Atom.idx (RBTorsion.atom2 rb));
                        Py.str_int (Atom.idx (RBTorsion.atom3 rb));
                        Py.str_int (Atom.idx (RBTorsion.atom4 rb))])
  /\ (forall (a1 a2 a3 a4 : Atom.t) (ty : option DihedralType.t),
         let e := entry_of "Improper"
                    (dihedral_entry (Dihedral.Build_t a1 a2 a3 a4 true ty) false) in
         emitted_types 4 e
         = map Some [Atom.type a3; Atom.type a2; Atom.type a1; Atom.type a4]
         /\ emitted_ids 4 e
            = map Some [Py.str_int (Atom.idx a3); Py.str_int (Atom.idx a2);
                        Py.str_int (Atom.idx a1); Py.str_int (Atom.idx a4)])
  /\ (forall root : Element,
         filter (fun c => negb (String.eqb (tag c) "AtomTypes"))
                (children (fst (_remove_duplicate_elements false root)))
         = filter (fun c => negb (String.eqb (tag c) "AtomTypes")) (children root)).
Proof.
  split; [exact bond_instance|].
  split; [exact angle_instance|].
  split; [exact proper_instance|].
  split; [exact rb_instance|].
  split; [exact improper_instance|].
  intros root. unfold _remove_duplicate_elements.
  pose proof (dedup_sections_instance_mode None (children root)) as H.
  destruct (dedup_sections false None (children root)) as [sections r].
  destruct root; exact H.
Qed.

(** The improper listed (H, N, C, O) comes out as (C, N, H, O) in
    per-instance mode: its names are not left in the order of the term. *)
Lemma improper_instance_order_changed :
  emitted_types 4 (entry_of "Improper" (dihedral_entry improper_HNCO false))
  = map Some ["C"; "N"; "H"; "O"]
  /\ emitted_types 4 (entry_of "Improper" (dihedral_entry improper_HNCO false))
     <> map Some [Atom.type (Dihedral.atom1 improper_HNCO);
                  Atom.type (Dihedral.atom2 improper_HNCO);
                  Atom.type (Dihedral.atom3 improper_HNCO);
                  Atom.type (Dihedral.atom4 improper_HNCO)].
Proof. split; [reflexivity | discriminate]. Qed.

(** ** The Coulomb 1-4 scale *)






(** ** Sections as the emitters build them *)

(** A loop of [SubElement]s whose bodies all end normally appends one
    finished entry per item, in order. *)
Lemma for_SubElement {X} (l : list X) (t : X -> string) (body : X -> M Element unit)
      (sec : Element) :
  Forall (fun x => outcome_of (t x) (body x) = Ok tt) l ->
  for_ l (fun x => SubElement (t x) (body x)) sec
  = (mkElement (tag sec) (text sec) (tail sec) (attrib sec)
               (children sec ++ map (fun x => entry_of (t x) (body x)) l)%list,
     Ok tt).
Proof.
  intros H. revert sec. induction H as [|x l Hx Hl IH]; intros sec.
  - simpl. rewrite app_nil_r. now destruct sec.
  - cbn [for_ map]. unfold bind at 1. unfold SubElement at 1.
    unfold outcome_of in Hx. unfold entry_of at 1.
    destruct (body x (Element_ (t x))) as [child r]. cbn [snd fst] in *. subst r.
    rewrite IH. destruct sec. cbn [append tag text tail attrib children].
    now rewrite <- app_assoc.
Qed.

Lemma atomtype_entry_ok (atom : Atom.t) (forcefield : option Forcefield.t) :
  outcome_of "Type" (atomtype_entry atom forcefield) = Ok tt.
Proof. reflexivity. Qed.

Lemma nb_force_entry_ok (atom : Atom.t) (unique : bool) :
  outcome_of "Atom" (nb_force_entry atom unique) = Ok tt.
Proof. destruct unique; reflexivity. Qed.

(** The loop of [_write_atoms] over the atoms: it cannot raise, and it adds
    one [Type] and one [Atom] entry per atom. *)
Lemma write_atoms_loop (atoms : list Atom.t) (forcefield : option Forcefield.t)
      (unique : bool) (s1 s2 : Element) :
  for_ atoms (fun atom =>
    in_fst (SubElement "Type" (atomtype_entry atom forcefield)) ;;
    in_snd (SubElement "Atom" (nb_force_entry atom unique))) (s1, s2)
  = ((mkElement (tag s1) (text s1) (tail s1) (attrib s1)
        (children s1
         ++ map (fun a => entry_of "Type" (atomtype_entry a forcefield)) atoms)%list,
      mkElement (tag s2) (text s2) (tail s2) (attrib s2)
        (children s2
         ++ map (fun a => entry_of "Atom" (nb_force_entry a unique)) atoms)%list),
     Ok tt).
Proof.
  revert s1 s2. induction atoms as [|atom atoms IH]; intros s1 s2.
  - simpl. rewrite !app_nil_r. now destruct s1, s2.
  - cbn [for_ map]. unfold bind at 1. unfold bind at 1.
    unfold in_fst at 1, in_snd at 1, SubElement at 1 2. cbn [fst snd].
    pose proof (atomtype_entry_ok atom forcefield) as H1.
    pose proof (nb_force_entry_ok atom unique) as H2.
    unfold outcome_of in H1, H2. unfold entry_of at 1 3.
    destruct (atomtype_entry atom forcefield (Element_ "Type")) as [c1 r1].
    destruct (nb_force_entry atom unique (Element_ "Atom")) as [c2 r2].
    cbn [fst snd] in *. subst r1 r2.
    rewrite IH. destruct s1, s2. cbn [append tag text tail attrib children].
    now rewrite <- !app_assoc.
Qed.

(** [_write_atoms] once both scales are inferred. *)
Lemma write_atoms_ok (self : Structure.t) (atoms : list Atom.t)
      (forcefield : option Forcefield.t) (unique : bool) (root : Element)
      (c l : float) :
  _infer_coulomb14scale self = Ok c ->
  _infer_lj14scale self = Ok l ->
  _write_atoms self atoms forcefield unique root
  = (append
       (append root
          (mkElement "AtomTypes" None None []
             (map (fun a => entry_of "Type" (atomtype_entry a forcefield)) atoms)))
       (mkElement "NonbondedForce" None None
          [("coulomb14scale", PyFloat.str c); ("lj14scale", PyFloat.str l)]
          (map (fun a => entry_of "Atom" (nb_force_entry a unique)) atoms)),
     Ok tt).
Proof.
  intros Hc Hl. unfold _write_atoms, SubElement2.
  unfold bind at 1. unfold lift at 1. rewrite Hc.
  unfold bind at 1. unfold in_snd at 1, set_ at 1, modify at 1. cbn [fst snd].
  unfold bind at 1. unfold lift at 1. rewrite Hl.
  unfold bind at 1. unfold in_snd at 1, set_ at 1, modify at 1. cbn [fst snd].
  rewrite write_atoms_loop. reflexivity.
Qed.

(** [_write_atoms] when the Coulomb scale cannot be inferred: the two empty
    sections are in the tree and the error leaves the function. *)
Lemma write_atoms_raises (self : Structure.t) (atoms : list Atom.t)
      (forcefield : option Forcefield.t) (unique : bool) (root : Element)
      (e : PyError) :
  _infer_coulomb14scale self = Raise e ->
  _write_atoms self atoms forcefield unique root
  = (append (append root (Element_ "AtomTypes")) (Element_ "NonbondedForce"),
     Raise e).
Proof.
  intros Hc. unfold _write_atoms, SubElement2.
  unfold bind at 1. unfold lift at 1. now rewrite Hc.
Qed.

(** ** What stops [write_foyer] *)

Lemma first_has_type_false (self : Structure.t) :
  first_has_type Bond.type (Structure.bonds self) = false <-> unparametrized self.
Proof.
  unfold unparametrized, first_has_type.
  destruct (Structure.bonds self) as [|bond rest]; simpl.
  - split; auto.
  - destruct (Bond.type bond) eqn:E; simpl; split.
    + discriminate.
    + intros [H | (b & r & H & Hb)]; [discriminate|].
      injection H as <- <-. congruence.
    + intros _. right. now exists bond, rest.
    + reflexivity.
Qed.

(** Past the first check a root element exists, however the call ends. *)
Lemma write_foyer_tree (self : Structure.t) (filename : string)
      (forcefield : option Forcefield.t) (unique : bool) (w : World) :
  first_has_type Bond.type (Structure.bonds self) = true ->
  tree (fst (write_foyer self filename forcefield unique w)) <> None.
Proof.
  intros H. unfold write_foyer. rewrite H. cbn [negb].
  unfold bind at 1. unfold new_tree at 1.
  match goal with |- context [let '(root, r) := ?b (Element_ "ForceField") in _] =>
    destruct (b (Element_ "ForceField")) as [root [a|e]] end.
  - unfold write. cbn. discriminate.
  - cbn. discriminate.
Qed.

(** C9. [write_foyer] raises before a tree exists exactly when the
    topology has no bonds or its first bond has no type: in that case, and
    in no other, the call ends with the unparameterised-structure error and
    leaves the world as it found it (no root element, no section, no file),
    whatever the angles, torsions and adjusts are; in every other case a
    root element has been created by the time the call ends. *)
Theorem write_foyer_unparametrized_iff (self : Structure.t) (filename : string)
        (forcefield : option Forcefield.t) (unique : bool) :
  (unparametrized self
   <-> forall w, write_foyer self filename forcefield unique w
                 = (w, Raise Unparametrized))
  /\ (unparametrized self
      <-> tree (fst (write_foyer self filename forcefield unique no_output)) = None).
Proof.
  destruct (first_has_type Bond.type (Structure.bonds self)) eqn:E.
  - pose proof (write_foyer_tree self filename forcefield unique no_output E) as T.
    assert (N : ~ unparametrized self).
    { intros U. apply first_has_type_false in U. congruence. }
    split; split; intros H; try contradiction.
    + rewrite (H no_output) in T. now contradiction T.
  - assert (U : unparametrized self) by now apply first_has_type_false.
    assert (R : forall w, write_foyer self filename forcefield unique w
                          = (w, Raise Unparametrized)).
    { intros w. unfold write_foyer. now rewrite E. }
    rewrite R. repeat split; auto.
Qed.

(** C10. With no adjusts at all, each scale inference raises its
    inconsistency error (there are zero distinct values, not one), and a
    parameterised topology cannot be written: [write_foyer] ends with the
    Coulomb error and leaves no file. *)
Theorem no_adjusts_cannot_be_written (self : Structure.t) (filename : string)
        (forcefield : option Forcefield.t) (unique : bool) (w : World) :
  Structure.adjusts self = [] ->
  _infer_coulomb14scale self = Raise InconsistentCoulomb14
  /\ _infer_lj14scale self = Raise (InconsistentLJ14 [])
  /\ (unparametrized self
      \/ snd (write_foyer self filename forcefield unique w)
         = Raise InconsistentCoulomb14
         /\ files (fst (write_foyer self filename forcefield unique w)) = files w).
Proof.
  intros H.
  assert (Hc : _infer_coulomb14scale self = Raise InconsistentCoulomb14).
  { unfold _infer_coulomb14scale. now rewrite H. }
  split; [assumption|]. split.
  - unfold _infer_lj14scale. now rewrite H.
  - destruct (first_has_type Bond.type (Structure.bonds self)) eqn:E.
    + right.
      assert (R : write_foyer self filename forcefield unique w
                  = ({| tree := Some (append (append (Element_ "ForceField")
                                                     (Element_ "AtomTypes"))
                                             (Element_ "NonbondedForce"));
                        files := files w |},
                     Raise InconsistentCoulomb14)).
      { unfold write_foyer. rewrite E. cbn [negb].
        unfold bind at 1. unfold new_tree at 1. unfold bind at 1.
        now rewrite (write_atoms_raises _ _ _ _ _ _ Hc). }
      rewrite R. split; reflexivity.
    + left. now apply first_has_type_false.
Qed.

(** Water has typed bonds and no 1-4 pair. *)
Lemma water_cannot_be_written :
  Structure.adjusts water = []
  /\ ~ unparametrized water
  /\ snd (write_foyer water "water.xml" None true no_output)
     = Raise InconsistentCoulomb14.
Proof.
  assert (N : ~ unparametrized water).
  { intros [U | (b & r & U & Hb)]; [discriminate|].
    injection U as <- <-. discriminate. }
  split; [reflexivity|]. split; [exact N|].
  destruct (no_adjusts_cannot_be_written water "water.xml" None true no_output
                                         eq_refl) as (_ & _ & [U | [R _]]).
  - contradiction.
  - exact R.
Defined.

(** ** Numbers in the document *)

(** The fields of the table. *)
Lemma nonbonded_numbers (atom : Atom.t) (unique : bool) :
  let e := entry_of "Atom" (nb_force_entry atom unique) in
  get e "charge" = Some (convert charge_row (Atom.charge atom))
  /\ get e "sigma" = Some (convert sigma_row (AtomType.sigma (Atom.atom_type atom)))
  /\ get e "epsilon"
     = Some (convert epsilon_row (AtomType.epsilon (Atom.atom_type atom))).
Proof. destruct unique; repeat split; reflexivity. Qed.

Lemma bond_numbers (a1 a2 : Atom.t) (ty : BondType.t) (unique : bool) :
  let e := entry_of "Bond" (bond_entry (Bond.Build_t a1 a2 (Some ty)) unique) in
  get e "length" = Some (convert bond_length_row (BondType.req ty))
  /\ get e "k" = Some (convert bond_k_row (BondType.k ty)).
Proof.
  destruct unique; run_entry; cbv [Py.sorted fold_right Py.insert];
    [destruct (String.ltb _ _)|]; split; reflexivity.
Qed.

Lemma angle_numbers (a1 a2 a3 : Atom.t) (ty : AngleType.t) (unique : bool) :
  let e := entry_of "Angle" (angle_entry (Angle.Build_t a1 a2 a3 (Some ty)) unique) in
  get e "angle" = Some (convert angle_row (AngleType.theteq ty))
  /\ get e "k" = Some (convert angle_k_row (AngleType.k ty)).
Proof.
  destruct unique; run_entry;
    cbv [Py.sorted fold_right Py.insert Py.step2 Py.set_step2];
    [destruct (String.ltb _ _)|]; split; reflexivity.
Qed.

Lemma dihedral_numbers (a1 a2 a3 a4 : Atom.t) (improper : bool)
      (ty : DihedralType.t) (unique : bool) :
  let e := entry_of (if improper then "Improper" else "Proper")
             (dihedral_entry (Dihedral.Build_t a1 a2 a3 a4 improper (Some ty))
                             unique) in
  get e "phase1" = Some (convert phase_row (DihedralType.phase ty))
  /\ get e "k1" = Some (convert torsion_k_row (DihedralType.phi_k ty))
  /\ get e "periodicity1" = Some (Py.str_int (DihedralType.per ty)).
Proof.
  destruct improper, unique; run_entry;
    cbv [Dihedral.improper Dihedral.atom1 Dihedral.atom2 Dihedral.atom3
         Dihedral.atom4 Py.last_item Py.item last nth Z.to_nat
         Py.swap02 Py.set_tail tl];
    try (repeat split; reflexivity).
  destruct (String.ltb _ _); repeat split; reflexivity.
Qed.

Lemma rb_numbers (a1 a2 a3 a4 : Atom.t) (ty : RBTorsionType.t) (unique : bool) :
  let e := entry_of "Proper"
             (rb_torsion_entry (RBTorsion.Build_t a1 a2 a3 a4 (Some ty)) unique) in
  get e "c0" = Some (convert rb_row (RBTorsionType.c0 ty))
  /\ get e "c1" = Some (convert rb_row (RBTorsionType.c1 ty))
  /\ get e "c2" = Some (convert rb_row (RBTorsionType.c2 ty))
  /\ get e "c3" = Some (convert rb_row (RBTorsionType.c3 ty))
  /\ get e "c4" = Some (convert rb_row (RBTorsionType.c4 ty))
  /\ get e "c5" = Some (convert rb_row (RBTorsionType.c5 ty)).
Proof.
  destruct unique; run_entry;
    cbv [Py.last_item Py.item last nth Z.to_nat RBTorsion.atom1 RBTorsion.atom4];
    [destruct (String.ltb _ _)|]; repeat split; reflexivity.
Qed.

(** The numbers that do not go through the table. *)
Lemma nonbonded_id (atom : Atom.t) :
  get (entry_of "Atom" (nb_force_entry atom false)) "id"
  = Some (Py.str_int (Atom.idx atom)).
Proof. reflexivity. Qed.

Lemma mass_as_is (atom : Atom.t) (forcefield : option Forcefield.t) :
  get (entry_of "Type" (atomtype_entry atom forcefield)) "mass"
  = Some (PyFloat.str (Atom.mass atom)).
Proof. reflexivity. Qed.

Lemma scales_as_is (self : Structure.t) (atoms : list Atom.t)
      (forcefield : option Forcefield.t) (unique : bool) (c l : float) :
  _infer_coulomb14scale self = Ok c ->
  _infer_lj14scale self = Ok l ->
  exists root,
    _write_atoms self atoms forcefield unique (Element_ "ForceField") = (root, Ok tt)
    /\ option_map attrib (section_of root "NonbondedForce")
       = Some [("coulomb14scale", PyFloat.str c); ("lj14scale", PyFloat.str l)].
Proof.
  intros Hc Hl. rewrite (write_atoms_ok _ _ _ _ _ _ _ Hc Hl).
  eexists. split; reflexivity.
Qed.

(** C7 (as amended). The ten fields of the table are written through their
    row: charge and sigma rounded to 4 places, epsilon times 4.184 to 6, bond
    length divided by 10 to 4, bond k times 4.184 times 200 to 1, angle times
    pi/180 to 10, angle k times 4.184 times 2 to 3, phase times pi/180 to 8,
    torsion k times 4.184 to 3, and c0..c5 times 4.184 to 4.  The other
    numbers of the document are written with [str] alone, neither scaled nor
    rounded: the mass of an atom type, the periodicity of a torsion, the two
    inferred 1-4 scales, and the atom index of a per-instance [Atom] entry. *)
Theorem numbers_through_table_or_as_is :
  (forall (atom : Atom.t) (unique : bool),
      let e := entry_of "Atom" (nb_force_entry atom unique) in
      get e "charge" = Some (convert charge_row (Atom.charge atom))
      /\ get e "sigma"
         = Some (convert sigma_row (AtomType.sigma (Atom.atom_type atom)))
      /\ get e "epsilon"
         = Some (convert epsilon_row (AtomType.epsilon (Atom.atom_type atom))))
  /\ (forall (a1 a2 : Atom.t) (ty : BondType.t) (unique : bool),
         let e := entry_of "Bond"
                    (bond_entry (Bond.Build_t a1 a2 (Some ty)) unique) in
         get e "length" = Some (convert bond_length_row (BondType.req ty))
         /\ get e "k" = Some (convert bond_k_row (BondType.k ty)))
  /\ (forall (a1 a2 a3 : Atom.t) (ty : AngleType.t) (unique : bool),
         let e := entry_of "Angle"
                    (angle_entry (Angle.Build_t a1 a2 a3 (Some ty)) unique) in
         get e "angle" = Some (convert angle_row (AngleType.theteq ty))
         /\ get e "k" = Some (convert angle_k_row (AngleType.k ty)))
  /\ (forall (a1 a2 a3 a4 : Atom.t) (improper : bool) (ty : DihedralType.t)
             (unique : bool),
         let e := entry_of (if improper then "Improper" else "Proper")
                    (dihedral_entry
                       (Dihedral.Build_t a1 a2 a3 a4 improper (Some ty)) unique) in
         get e "phase1" = Some (convert phase_row (DihedralType.phase ty))
         /\ get e "k1" = Some (convert torsion_k_row (DihedralType.phi_k ty))
         /\ get e "periodicity1" = Some (Py.str_int (DihedralType.per ty)))
  /\ (forall (a1 a2 a3 a4 : Atom.t) (ty : RBTorsionType.t) (unique : bool),
         let e := entry_of "Proper"
                    (rb_torsion_entry (RBTorsion.Build_t a1 a2 a3 a4 (Some ty))
                                      unique) in
         get e "c0" = Some (convert rb_row (RBTorsionType.c0 ty))
         /\ get e "c1" = Some (convert rb_row (RBTorsionType.c1 ty))
         /\ get e "c2" = Some (convert rb_row (RBTorsionType.c2 ty))
         /\ get e "c3" = Some (convert rb_row (RBTorsionType.c3 ty))
         /\ get e "c4" = Some (convert rb_row (RBTorsionType.c4 ty))
         /\ get e "c5" = Some (convert rb_row (RBTorsionType.c5 ty)))
  /\ (forall (atom : Atom.t) (forcefield : option Forcefield.t),
         get (entry_of "Type" (atomtype_entry atom forcefield)) "mass"
         = Some (PyFloat.str (Atom.mass atom)))
  /\ (forall atom : Atom.t,
         get (entry_of "Atom" (nb_force_entry atom false)) "id"
         = Some (Py.str_int (Atom.idx atom)))
  /\ (forall (self : Structure.t) (atoms : list Atom.t)
             (forcefield : option Forcefield.t) (unique : bool) (c l : float),
         _infer_coulomb14scale self = Ok c ->
         _infer_lj14scale self = Ok l ->
         exists root,
           _write_atoms self atoms forcefield unique (Element_ "ForceField")
           = (root, Ok tt)
           /\ option_map attrib (section_of root "NonbondedForce")
              = Some [("coulomb14scale", PyFloat.str c);
                      ("lj14scale", PyFloat.str l)]).
Proof.
  split; [exact nonbonded_numbers|].
  split; [exact bond_numbers|].
  split; [exact angle_numbers|].
  split; [exact dihedral_numbers|].
  split; [exact rb_numbers|].
  split; [exact mass_as_is|].
  split; [exact nonbonded_id | exact scales_as_is].
Qed.

(** Diethyl ether: its scales are inferred and written as they are. *)
Lemma diethyl_ether_scales :
  _infer_coulomb14scale diethyl_ether = Ok 0.5
  /\ _infer_lj14scale diethyl_ether = Ok 0.5
  /\ exists root,
       _write_atoms diethyl_ether (Structure.atoms diethyl_ether) None true
                    (Element_ "ForceField") = (root, Ok tt)
       /\ option_map attrib (section_of root "NonbondedForce")
          = Some [("coulomb14scale", PyFloat.str 0.5);
                  ("lj14scale", PyFloat.str 0.5)].
Proof.
  split; [reflexivity|]. split; [reflexivity|].
  apply (proj2 (proj2 (proj2 (proj2 (proj2 (proj2 (proj2
           numbers_through_table_or_as_is))))))); reflexivity.
Defined.

(** The mass of fluorine, 18.9984032, is written with all its digits: no
    row of the table, applied to it, gives the string in the document. *)
Lemma mass_bypasses_table :
  get (entry_of "Type" (atomtype_entry fluorine None)) "mass" = Some "18.9984032"
  /\ ~ In "18.9984032"
          (map (fun row => convert row (Atom.mass fluorine)) conversion_table).
Proof.
  split; [vm_compute; reflexivity|].
  vm_compute. intuition discriminate.
Qed.

(** ** The Lennard-Jones 1-4 scale *)

Lemma lj14_body_cases (adj : Adjust.t) (acc : list float) :
  lj14_body adj acc
  = if negb (sigma_close adj)
    then (acc, Raise (SigmaMismatch adj
                        (NonbondedExceptionType.sigma (Adjust.type adj))
                        (expected_sigma adj)))
    else if PrimFloat.eqb (expected_epsilon adj) 0
         then (acc, Raise ZeroDivisionError)
         else ((acc ++ [ratio adj])%list, Ok tt).
Proof.
  unfold lj14_body, sigma_close, ratio. fold (expected_sigma adj).
  fold (expected_epsilon adj).
  destruct (PyFloat.isclose _ _); cbn [negb]; [|reflexivity].
  unfold bind, lift, truediv, PyFloat.div_checked, modify.
  change zero with 0%float.
  destruct (PrimFloat.eqb (expected_epsilon adj) 0); reflexivity.
Qed.

(** The loop, when no expected well depth is zero: it stops at the first
    adjust whose sigma is off, and otherwise collects every ratio. *)
Lemma lj14_loop (adjs : list Adjust.t) (acc : list float) :
  Forall (fun adj => PrimFloat.eqb (expected_epsilon adj) 0 = false) adjs ->
  match find (fun adj => negb (sigma_close adj)) adjs with
  | Some adj =>
      snd (for_ adjs lj14_body acc)
      = Raise (SigmaMismatch adj (NonbondedExceptionType.sigma (Adjust.type adj))
                             (expected_sigma adj))
  | None => for_ adjs lj14_body acc = ((acc ++ map ratio adjs)%list, Ok tt)
  end.
Proof.
  intros H. revert acc. induction H as [|adj adjs Hz _ IH]; intros acc.
  - simpl. now rewrite app_nil_r.
  - cbn [find for_ map]. specialize (IH (acc ++ [ratio adj])%list).
    destruct (sigma_close adj) eqn:Hs; cbn [negb].
    + destruct (find _ adjs); unfold bind;
        rewrite lj14_body_cases, Hs, Hz; cbn [negb]; [exact IH|].
      now rewrite IH, <- app_assoc.
    + unfold bind. now rewrite lj14_body_cases, Hs.
Qed.

(** Away from zero well depths [_infer_lj14scale] does what is asked of it:
    the first sigma that is not close to the arithmetic mean raises the
    mismatch error with the adjust and both values; otherwise the ratios are
    rounded to 8 places and, if they have one distinct value, the first
    ratio is returned unrounded, else the distinct values are reported. *)
Lemma infer_lj14scale_nonzero (struct : Structure.t) :
  Forall (fun adj => PrimFloat.eqb (expected_epsilon adj) 0 = false)
         (Structure.adjusts struct) ->
  match find (fun adj => negb (sigma_close adj)) (Structure.adjusts struct) with
  | Some adj =>
      _infer_lj14scale struct
      = Raise (SigmaMismatch adj (NonbondedExceptionType.sigma (Adjust.type adj))
                             (expected_sigma adj))
  | None =>
      let scales :=
        PyFloat.np_unique (map (fun x => PyFloat.np_round x 8)
                               (map ratio (Structure.adjusts struct))) in
      match Structure.adjusts struct with
      | adj :: _ =>
          _infer_lj14scale struct
          = if (Z.of_nat (List.length scales) =? 1)%Z
            then Ok (ratio adj) else Raise (InconsistentLJ14 scales)
      | [] => _infer_lj14scale struct = Raise (InconsistentLJ14 [])
      end
  end.
Proof.
  intros H. pose proof (lj14_loop _ [] H) as L. unfold _infer_lj14scale.
  destruct (find _ (Structure.adjusts struct)) as [adj|].
  - destruct (for_ (Structure.adjusts struct) lj14_body []) as [s r].
    cbn [snd] in L. now subst r.
  - rewrite L. cbn [app]. destruct (Structure.adjusts struct); reflexivity.
Qed.

(** C5. Methanol has a 1-4 pair that ends on its hydroxyl hydrogen.  The
    stored sigma of the pair is the arithmetic mean, so the sigma check
    passes; the expected well depth is 0.0, and the division that gives the
    ratio raises [ZeroDivisionError].  The error leaves [write_foyer], which
    writes no file. *)
Theorem infer_lj14scale_zero_epsilon :
  Forall (fun adj => sigma_close adj = true) (Structure.adjusts methanol)
  /\ map expected_epsilon (Structure.adjusts methanol) = [0]
  /\ _infer_lj14scale methanol = Raise ZeroDivisionError
  /\ snd (write_foyer methanol "methanol.xml" None true no_output)
     = Raise ZeroDivisionError
  /\ files (fst (write_foyer methanol "methanol.xml" None true no_output)) = [].
Proof.
  split; [repeat constructor|]. repeat split; vm_compute; reflexivity.
Qed.

(** ** The carried-over entry in the trees the writer builds *)

Lemma assoc_get_In (a : list (string * string)) (k v : string) :
  assoc_get a k = Some v -> In (k, v) a.
Proof.
  induction a as [|[k' v'] a IH]; simpl; [discriminate|].
  destruct (String.eqb k' k) eqn:E.
  - apply String.eqb_eq in E. intros [= ->]. left. now subst.
  - intros H. right. now apply IH.
Qed.

Lemma attrib_eqb_get (a1 a2 : list (string * string)) (k v : string) :
  attrib_eqb a1 a2 = true -> assoc_get a1 k = Some v -> assoc_get a2 k = Some v.
Proof.
  unfold attrib_eqb. intros H G. apply andb_true_iff in H as [_ H].
  rewrite forallb_forall in H. specialize (H _ (assoc_get_In _ _ _ G)).
  cbn [fst snd] in H. destruct (assoc_get a2 k) as [v2|]; [|discriminate].
  cbn in H. apply String.eqb_eq in H. now subst.
Qed.

Lemma elements_equal_attrib (e1 e2 : Element) :
  _elements_equal e1 (Some e2) = true -> attrib_eqb (attrib e1) (attrib e2) = true.
Proof.
  destruct e1 as [t1 tx1 tl1 a1 c1]. cbn [_elements_equal attrib].
  destruct (negb (t1 =? t1)%string); [discriminate|].
  destruct (negb (opt_eqb tx1 (text e2))); [discriminate|].
  destruct (negb (opt_eqb tl1 (tail e2))); [discriminate|].
  destruct (attrib_eqb a1 (attrib e2)); [reflexivity | discriminate].
Qed.

Lemma elements_equal_has (e1 e2 : Element) (k : string) :
  _elements_equal e1 (Some e2) = true -> has e1 k = true -> has e2 k = true.
Proof.
  intros E. apply elements_equal_attrib in E. unfold has, get.
  destruct (assoc_get (attrib e1) k) as [v|] eqn:G; [|discriminate].
  now rewrite (attrib_eqb_get _ _ _ _ E G).
Qed.

(** Equal elements: the second is on a level at least as high. *)
Lemma elements_equal_level (e1 e2 : Element) :
  _elements_equal e1 (Some e2) = true -> (level e1 <= level e2)%nat.
Proof.
  intros E. pose proof (elements_equal_has e1 e2) as H. unfold level.
  destruct (has e1 "c0") eqn:H5; [rewrite (H "c0" E H5); lia|].
  destruct (has e1 "phase1") eqn:H4;
    [rewrite (H "phase1" E H4); destruct (has e2 "c0"); lia|].
  destruct (has e1 "angle") eqn:H3;
    [rewrite (H "angle" E H3); destruct (has e2 "c0"), (has e2 "phase1"); lia|].
  destruct (has e1 "length") eqn:H2;
    [rewrite (H "length" E H2);
     destruct (has e2 "c0"), (has e2 "phase1"), (has e2 "angle"); lia|].
  destruct (has e1 "charge") eqn:H1;
    [rewrite (H "charge" E H1);
     destruct (has e2 "c0"), (has e2 "phase1"), (has e2 "angle"), (has e2 "length");
     lia|].
  lia.
Qed.

(** What the inner loop keeps does not depend on an entry carried over from
    a lower level, and the entry it hands on is not on a higher level than
    the section. *)
Lemma scan_below (n : nat) (prev : option Element) (elems : list Element) :
  below n prev -> Forall (fun e => level e = n) elems ->
  snd (scan prev elems) = snd (scan None elems)
  /\ below (S n) (fst (scan prev elems)).
Proof.
  intros B F. destruct F as [|elem rest Hl F].
  - split; [reflexivity|]. destruct prev; simpl in *; [lia | exact I].
  - assert (Hk : forall p rest', Forall (fun e => level e = n) rest' ->
                   (level p <= n)%nat -> below (S n) (fst (scan (Some p) rest'))).
    { intros p rest' F'. revert p. induction F' as [|e r He _ IH]; intros p Hp.
      - simpl. lia.
      - simpl. destruct (_elements_equal e (Some p)); [now apply IH|].
        specialize (IH e). destruct (scan (Some e) r). simpl in *. apply IH. lia. }
    cbn [scan].
    assert (N : _elements_equal elem prev = false).
    { destruct prev as [p|]; [|now destruct elem].
      destruct (_elements_equal elem (Some p)) eqn:E; [|reflexivity].
      apply elements_equal_level in E. simpl in B. lia. }
    rewrite N. replace (_elements_equal elem None) with false by now destruct elem.
    split; [reflexivity|].
    specialize (Hk elem rest F). destruct (scan (Some elem) rest).
    simpl in *. apply Hk. lia.
Qed.

Lemma sorted_children_Forall (P : Element -> Prop) (child : Element)
      (elems : list Element) :
  sorted_children child = Ok elems -> Forall P (children child) -> Forall P elems.
Proof.
  unfold sorted_children. intros H F.
  destruct (children child) as [|c cs] eqn:C; [injection H as <-; constructor|].
  destruct (sortby_get sortby (tag child)); [|discriminate].
  injection H as <-. rewrite Forall_forall in *. intros x Hx. apply F.
  eapply Permutation_in; [apply sorted_perm | exact Hx].
Qed.

(** On sections whose levels grow the two de-duplicators agree. *)
Lemma dedup_sections_scoped_eq (unique : bool) (sections : list Element) :
  forall (lo : nat) (prev : option Element),
    below lo prev -> levels_increasing lo sections ->
    dedup_sections unique prev sections = dedup_sections_scoped unique sections.
Proof.
  induction sections as [|child rest IH]; intros lo prev B L; [reflexivity|].
  destruct L as (n & Hn & F & L).
  assert (B' : below (S n) prev) by (destruct prev; simpl in *; [lia | exact I]).
  cbn [dedup_sections dedup_sections_scoped].
  destruct (negb unique && negb (tag child =? "AtomTypes")%string).
  - now rewrite (IH (S n) prev B' L).
  - destruct (sorted_children child) as [elems|e] eqn:Hs; [|reflexivity].
    assert (B0 : below n prev) by (destruct prev; simpl in *; [lia | exact I]).
    destruct (scan_below n prev elems B0 (sorted_children_Forall _ _ _ Hs F))
      as [K P].
    destruct (scan prev elems) as [prev' kept], (scan None elems) as [p0 kept0].
    cbn [fst snd] in *. subst kept0. now rewrite (IH (S n) prev' P L).
Qed.

(** A loop of [SubElement]s that ends normally ran every body to its end. *)
Lemma for_SubElement_inv {X} (l : list X) (t : X -> string)
      (body : X -> M Element unit) (sec sec' : Element) :
  for_ l (fun x => SubElement (t x) (body x)) sec = (sec', Ok tt) ->
  Forall (fun x => outcome_of (t x) (body x) = Ok tt) l.
Proof.
  revert sec. induction l as [|x l IH]; intros sec H; [constructor|].
  cbn [for_] in H. unfold bind at 1, SubElement at 1 in H.
  destruct (body x (Element_ (t x))) as [child [[]|e]] eqn:Eb; [|discriminate].
  constructor; [unfold outcome_of; now rewrite Eb | exact (IH _ H)].
Qed.

(** A section emitter that ends normally has added one section, made of
    the finished entries. *)
Lemma section_built {X} (tagS : string) (l : list X) (t : X -> string)
      (body : X -> M Element unit) (root root' : Element) :
  SubElement tagS (for_ l (fun x => SubElement (t x) (body x))) root = (root', Ok tt) ->
  children root'
  = (children root
     ++ [mkElement tagS None None []
           (map (fun x => entry_of (t x) (body x)) l)])%list
  /\ Forall (fun x => outcome_of (t x) (body x) = Ok tt) l.
Proof.
  unfold SubElement at 1. intros H.
  destruct (for_ l _ (Element_ tagS)) as [sec r] eqn:E.
  injection H as <- ->.
  pose proof (for_SubElement_inv _ _ _ _ _ E) as F. split; [|exact F].
  rewrite (for_SubElement _ _ _ _ F) in E. injection E as <-.
  now destruct root.
Qed.

(** The same for an emitter that [write_foyer] runs under a test. *)
Lemma optional_section_built {X} (cond : bool) (tagS : string) (l : list X)
      (t : X -> string) (body : X -> M Element unit) (k : nat)
      (root root' : Element) :
  (forall x, outcome_of (t x) (body x) = Ok tt -> level (entry_of (t x) (body x)) = k) ->
  (if cond then SubElement tagS (for_ l (fun x => SubElement (t x) (body x)))
   else ret tt) root = (root', Ok tt) ->
  exists extra,
    children root' = (children root ++ extra)%list
    /\ (List.length extra <= 1)%nat
    /\ Forall (fun s => Forall (fun e => level e = k) (children s)) extra.
Proof.
  intros Hk H. destruct cond.
  - apply section_built in H as [C F]. eexists. split; [exact C|].
    split; [simpl; lia|]. constructor; [|constructor].
    cbn [children]. apply Forall_map. revert F. apply Forall_impl. exact Hk.
  - injection H as <-. exists []. rewrite app_nil_r. repeat split; auto.
Qed.

Lemma type_level (atom : Atom.t) (forcefield : option Forcefield.t) :
  level (entry_of "Type" (atomtype_entry atom forcefield)) = 0%nat.
Proof. reflexivity. Qed.

Lemma atom_level (atom : Atom.t) (unique : bool) :
  level (entry_of "Atom" (nb_force_entry atom unique)) = 1%nat.
Proof. destruct unique; reflexivity. Qed.

Lemma bond_level (bond : Bond.t) (unique : bool) :
  outcome_of "Bond" (bond_entry bond unique) = Ok tt ->
  level (entry_of "Bond" (bond_entry bond unique)) = 2%nat.
Proof.
  run_entry. cbv [Py.sorted fold_right Py.insert].
  destruct unique, (Bond.type bond); try destruct (String.ltb _ _);
    try discriminate; intros _; reflexivity.
Qed.

Lemma angle_level (angle : Angle.t) (unique : bool) :
  outcome_of "Angle" (angle_entry angle unique) = Ok tt ->
  level (entry_of "Angle" (angle_entry angle unique)) = 3%nat.
Proof.
  run_entry. cbv [Py.sorted fold_right Py.insert Py.step2 Py.set_step2].
  destruct unique, (Angle.type angle); try destruct (String.ltb _ _);
    try discriminate; intros _; reflexivity.
Qed.

Lemma dihedral_level (dihedral : Dihedral.t) (unique : bool) :
  let t := if Dihedral.improper dihedral then "Improper" else "Proper" in
  outcome_of t (dihedral_entry dihedral unique) = Ok tt ->
  level (entry_of t (dihedral_entry dihedral unique)) = 4%nat.
Proof.
  run_entry. cbv [Py.last_item Py.item last nth Z.to_nat Py.swap02 Py.set_tail tl].
  destruct (Dihedral.improper dihedral), unique, (Dihedral.type dihedral);
    try destruct (String.ltb _ _); try discriminate; intros _; reflexivity.
Qed.

Lemma rb_level (rb : RBTorsion.t) (unique : bool) :
  outcome_of "Proper" (rb_torsion_entry rb unique) = Ok tt ->
  level (entry_of "Proper" (rb_torsion_entry rb unique)) = 5%nat.
Proof.
  run_entry. cbv [Py.last_item Py.item last nth Z.to_nat].
  destruct unique, (RBTorsion.type rb); try destruct (String.ltb _ _);
    try discriminate; intros _; reflexivity.
Qed.

Lemma write_atoms_inv (self : Structure.t) (atoms : list Atom.t)
      (forcefield : option Forcefield.t) (unique : bool) (root root' : Element) :
  _write_atoms self atoms forcefield unique root = (root', Ok tt) ->
  exists c l, _infer_coulomb14scale self = Ok c /\ _infer_lj14scale self = Ok l.
Proof.
  unfold _write_atoms, SubElement2. unfold bind at 1. unfold lift at 1.
  destruct (_infer_coulomb14scale self) as [c|e]; [|discriminate].
  unfold bind at 1. unfold in_snd at 1, set_ at 1, modify at 1. cbn [fst snd].
  unfold bind at 1. unfold lift at 1.
  destruct (_infer_lj14scale self) as [l|e]; [|discriminate].
  intros _. now exists c, l.
Qed.

Lemma levels_increasing_optional (k lo : nat) (extra rest : list Element) :
  (List.length extra <= 1)%nat ->
  Forall (fun s => Forall (fun e => level e = k) (children s)) extra ->
  (lo <= k)%nat ->
  levels_increasing (S k) rest ->
  levels_increasing lo (extra ++ rest).
Proof.
  intros Hlen F Hlo L. destruct extra as [|s [|s' extra]]; simpl in *; try lia.
  - clear - Hlo L. revert lo Hlo. destruct rest as [|r rest]; [constructor|].
    intros lo Hlo. destruct L as (n & Hn & Fn & L). exists n. repeat split; auto. lia.
  - exists k. inversion F; subst. repeat split; auto.
Qed.

(** The tree that the emitters leave: its sections are on growing levels. *)
Lemma emit_sections_levels (self : Structure.t) (forcefield : option Forcefield.t)
      (unique : bool) (root : Element) :
  emit_sections self forcefield unique (Element_ "ForceField") = (root, Ok tt) ->
  levels_increasing 0 (children root).
Proof.
  unfold emit_sections. intros H.
  unfold bind at 1 in H.
  destruct (_write_atoms _ _ _ _ _) as [r1 [[]|e]] eqn:E1; [|discriminate].
  unfold bind at 1 in H.
  match type of H with context [match ?m r1 with _ => _ end] =>
    destruct (m r1) as [r2 [[]|e]] eqn:E2; [|discriminate] end.
  unfold bind at 1 in H.
  match type of H with context [match ?m r2 with _ => _ end] =>
    destruct (m r2) as [r3 [[]|e]] eqn:E3; [|discriminate] end.
  unfold bind at 1 in H.
  match type of H with context [match ?m r3 with _ => _ end] =>
    destruct (m r3) as [r4 [[]|e]] eqn:E4; [|discriminate] end.
  rename H into E5.
  destruct (write_atoms_inv _ _ _ _ _ _ E1) as (c & l & Hc & Hl).
  rewrite (write_atoms_ok _ _ _ _ _ _ _ Hc Hl) in E1. injection E1 as <-.
  apply (optional_section_built _ _ _ (fun _ => "Bond") _ 2%nat) in E2
    as (B & C2 & L2 & F2); [|intros; now apply bond_level].
  apply (optional_section_built _ _ _ (fun _ => "Angle") _ 3%nat) in E3
    as (A & C3 & L3 & F3); [|intros; now apply angle_level].
  apply (optional_section_built _ _ _
           (fun d => if Dihedral.improper d then "Improper" else "Proper") _ 4%nat)
    in E4 as (P & C4 & L4 & F4); [|intros d; apply dihedral_level].
  apply (optional_section_built _ _ _ (fun _ => "Proper") _ 5%nat) in E5
    as (R & C5 & L5 & F5); [|intros; now apply rb_level].
  rewrite C5, C4, C3, C2. cbn [children append Element_ app].
  rewrite <- !app_assoc. cbn [app].
  exists 0%nat. split; [lia|]. split.
  { apply Forall_map, Forall_forall. intros; apply type_level. }
  exists 1%nat. split; [lia|]. split.
  { apply Forall_map, Forall_forall. intros; apply atom_level. }
  apply (levels_increasing_optional 2 _ B _ L2 F2); [lia|].
  apply (levels_increasing_optional 3 _ A _ L3 F3); [lia|].
  apply (levels_increasing_optional 4 _ P _ L4 F4); [lia|].
  rewrite <- (app_nil_r R).
  apply (levels_increasing_optional 5 _ R _ L5 F5); [lia | exact I].
Qed.

(** On every tree that the emitters leave, [_remove_duplicate_elements]
    and the scoped de-duplicator give the same tree: the entries of two
    sections never share their attribute names, so the entry carried over
    from one section is never equal to the first entry of the next. *)
Lemma written_tree_dedup_scoped (self : Structure.t)
      (forcefield : option Forcefield.t) (unique : bool) (root : Element) :
  emit_sections self forcefield unique (Element_ "ForceField") = (root, Ok tt) ->
  _remove_duplicate_elements unique root = remove_duplicates_scoped unique root.
Proof.
  intros H. apply emit_sections_levels in H.
  unfold _remove_duplicate_elements, remove_duplicates_scoped.
  now rewrite (dedup_sections_scoped_eq unique _ 0%nat None I H).
Qed.

Lemma block_assoc {S} (a b c d e f : M S unit) (s : S) :
  (a ;; b ;; c ;; d ;; e ;; f) s = ((a ;; b ;; c ;; d ;; e) ;; f) s.
Proof.
  unfold bind.
  destruct (a s) as [s1 [[]|?]]; [|reflexivity].
  destruct (b s1) as [s2 [[]|?]]; [|reflexivity].
  destruct (c s2) as [s3 [[]|?]]; [|reflexivity].
  destruct (d s3) as [s4 [[]|?]]; [|reflexivity].
  destruct (e s4) as [s5 [[]|?]]; reflexivity.
Qed.

Lemma new_tree_ext {A B} (t : string) (body1 body2 : M Element A)
      (k : A -> M World B) (w : World) :
  body1 (Element_ t) = body2 (Element_ t) ->
  bind (new_tree t body1) k w = bind (new_tree t body2) k w.
Proof. intros H. unfold bind, new_tree. now rewrite H. Qed.

(** [write_foyer], with its emitters read as one block. *)
Lemma write_foyer_blocks (self : Structure.t) (filename : string)
      (forcefield : option Forcefield.t) (unique : bool) (w : World) :
  write_foyer self filename forcefield unique w
  = (if negb (first_has_type Bond.type (Structure.bonds self))
     then raise Unparametrized
     else
       new_tree "ForceField" (
         emit_sections self forcefield unique ;;
         _remove_duplicate_elements unique) ;;
       write filename) w.
Proof.
  unfold write_foyer.
  destruct (negb (first_has_type Bond.type (Structure.bonds self)));
    [reflexivity|].
  apply new_tree_ext. unfold emit_sections. apply block_assoc.
Qed.


(** ** The de-duplicator on two equal sections, and on two tags *)

(** Neither tag reaches the result of [_elements_equal]. *)
Lemma elements_equal_any_tag (t1 t1' t2 t2' : string) (tx1 tl1 tx2 tl2 : option string)
      (a1 a2 : list (string * string)) (c1 c2 : list Element) :
  _elements_equal (mkElement t1 tx1 tl1 a1 c1) (Some (mkElement t2 tx2 tl2 a2 c2))
  = _elements_equal (mkElement t1' tx1 tl1 a1 c1) (Some (mkElement t2' tx2 tl2 a2 c2)).
Proof.
  cbn [_elements_equal text tail attrib children].
  now rewrite !String.eqb_refl.
Qed.

(** C4. Two elements with different tags, [Proper] and [Improper], and the
    same attributes are equal for [_elements_equal]: the tag test compares
    the first element with itself, so that no tag has a part in the result.
    In the document of a ring that has a
    proper and an improper torsion with the same constants, the [Improper]
    entry is therefore dropped as a duplicate of the [Proper] one. *)
Theorem elements_equal_ignores_tag :
  (forall (t1 t1' t2 t2' : string) (tx1 tl1 tx2 tl2 : option string)
          (a1 a2 : list (string * string)) (c1 c2 : list Element),
      _elements_equal (mkElement t1 tx1 tl1 a1 c1) (Some (mkElement t2 tx2 tl2 a2 c2))
      = _elements_equal (mkElement t1' tx1 tl1 a1 c1)
                        (Some (mkElement t2' tx2 tl2 a2 c2)))
  /\ tag proper_elem <> tag improper_elem
  /\ _elements_equal proper_elem (Some improper_elem) = true
  /\ map tag (children (entry_of "ForceField"
                          (_write_periodic_torsions (Structure.dihedrals ring) true)))
     = ["PeriodicTorsionForce"]
  /\ option_map (fun s => map tag (children s))
       (section_of (entry_of "ForceField"
                      (_write_periodic_torsions (Structure.dihedrals ring) true))
                   "PeriodicTorsionForce")
     = Some ["Proper"; "Improper"]
  /\ exists root,
       write_foyer ring "ring.xml" None true no_output
       = ({| tree := Some root; files := [("ring.xml", root)] |}, Ok tt)
       /\ option_map (fun s => map tag (children s))
                     (section_of root "PeriodicTorsionForce")
          = Some ["Proper"].
Proof.
  split; [exact elements_equal_any_tag|].
  split; [discriminate|]. repeat split; try (vm_compute; reflexivity).
  eexists. split; vm_compute; reflexivity.
Qed.


(* ================================================================= *)
(** * Further properties *)

(** ** The order of sort keys *)

Lemma ascii_compare_lt_trans (a b c : ascii) :
  Ascii.compare a b = Lt -> Ascii.compare b c = Lt -> Ascii.compare a c = Lt.
Proof.
  unfold Ascii.compare. rewrite !N.compare_lt_iff. apply N.lt_trans.
Qed.

Lemma ascii_compare_eq (a b : ascii) : Ascii.compare a b = Eq -> a = b.
Proof. apply Ascii.compare_eq_iff. Qed.

Lemma string_compare_lt_trans (a b c : string) :
  String.compare a b = Lt -> String.compare b c = Lt -> String.compare a c = Lt.
Proof.
  revert b c. induction a as [|x a IH]; intros [|y b] [|z c]; simpl;
    try congruence.
  destruct (Ascii.compare x y) eqn:Exy; try discriminate;
    destruct (Ascii.compare y z) eqn:Eyz; try discriminate; intros Hab Hbc.
  - apply ascii_compare_eq in Exy, Eyz. subst.
    assert (E : Ascii.compare z z = Eq)
      by (unfold Ascii.compare; apply N.compare_refl).
    rewrite E. now apply IH with b.
  - apply ascii_compare_eq in Exy. subst. now rewrite Eyz.
  - apply ascii_compare_eq in Eyz. subst. now rewrite Exy.
  - now rewrite (ascii_compare_lt_trans _ _ _ Exy Eyz).
Qed.

Lemma ltb_trans (a b c : string) :
  String.ltb a b = true -> String.ltb b c = true -> String.ltb a c = true.
Proof.
  unfold String.ltb.
  destruct (String.compare a b) eqn:Hab; try discriminate.
  destruct (String.compare b c) eqn:Hbc; try discriminate.
  now rewrite (string_compare_lt_trans _ _ _ Hab Hbc).
Qed.

Lemma opt_eqb_eq (a b : option string) : ET.opt_eqb a b = true <-> a = b.
Proof.
  destruct a as [x|], b as [y|]; simpl; split; try congruence.
  - intros H. apply String.eqb_eq in H. now subst.
  - intros [= ->]. apply String.eqb_refl.
Qed.

Lemma key_lt1_asym (a b : option string) : key_lt1 a b = true -> key_lt1 b a = false.
Proof. destruct a, b; simpl; auto. apply ltb_asym. Qed.

Lemma key_lt1_trans (a b c : option string) :
  key_lt1 a b = true -> key_lt1 b c = true -> key_lt1 a c = true.
Proof. destruct a, b, c; simpl; try congruence. apply ltb_trans. Qed.

Lemma key_lt1_total (a b : option string) :
  key_lt1 a b = false -> key_lt1 b a = false -> a = b.
Proof.
  destruct a, b; simpl; try congruence. intros H1 H2.
  now rewrite (ltb_trichotomy _ _ H1 H2).
Qed.

Lemma key_lt_asym (a b : list (option string)) :
  key_lt a b = true -> key_lt b a = false.
Proof.
  revert b. induction a as [|x a IH]; intros [|y b]; simpl; auto.
  destruct (ET.opt_eqb x y) eqn:E.
  - apply opt_eqb_eq in E. subst.
    rewrite (proj2 (opt_eqb_eq y y) eq_refl). apply IH.
  - intros H. destruct (ET.opt_eqb y x) eqn:E'.
    + apply opt_eqb_eq in E'. subst.
      now rewrite (proj2 (opt_eqb_eq x x) eq_refl) in E.
    + now apply key_lt1_asym.
Qed.

Lemma key_lt_trans (a b c : list (option string)) :
  key_lt a b = true -> key_lt b c = true -> key_lt a c = true.
Proof.
  revert b c. induction a as [|x a IH]; intros [|y b] [|z c]; simpl;
    try congruence.
  destruct (ET.opt_eqb x y) eqn:Exy, (ET.opt_eqb y z) eqn:Eyz; intros Hab Hbc.
  - apply opt_eqb_eq in Exy, Eyz. subst.
    rewrite (proj2 (opt_eqb_eq z z) eq_refl). now apply IH with b.
  - apply opt_eqb_eq in Exy. subst. now rewrite Eyz.
  - apply opt_eqb_eq in Eyz. subst. now rewrite Exy.
  - destruct (ET.opt_eqb x z) eqn:Exz.
    + apply opt_eqb_eq in Exz. subst.
      now rewrite (key_lt1_asym _ _ Hab) in Hbc.
    + now apply key_lt1_trans with y.
Qed.

Lemma key_lt_total (a b : list (option string)) :
  key_lt a b = false -> key_lt b a = false -> a = b.
Proof.
  revert b. induction a as [|x a IH]; intros [|y b]; simpl; try congruence.
  destruct (ET.opt_eqb x y) eqn:E.
  - apply opt_eqb_eq in E. subst.
    rewrite (proj2 (opt_eqb_eq y y) eq_refl). intros H1 H2. f_equal. now apply IH.
  - destruct (ET.opt_eqb y x) eqn:E'.
    + apply opt_eqb_eq in E'. subst.
      now rewrite (proj2 (opt_eqb_eq x x) eq_refl) in E.
    + intros H1 H2. rewrite (key_lt1_total _ _ H1 H2) in E.
      now rewrite (proj2 (opt_eqb_eq y y) eq_refl) in E.
Qed.

Lemma key_le_trans (a b c : list (option string)) :
  key_le a b -> key_le b c -> key_le a c.
Proof.
  unfold key_le. intros Hab Hbc.
  destruct (key_lt c a) eqn:Hca; [|reflexivity].
  destruct (key_lt a b) eqn:Hab'.
  - now rewrite (key_lt_trans _ _ _ Hca Hab') in Hbc.
  - rewrite (key_lt_total _ _ Hab' Hab) in Hca. congruence.
Qed.

Lemma entry_le_trans (ids : list string) : Transitive (entry_le ids).
Proof. intros a b c. apply key_le_trans. Qed.

(** ** Sorting once more changes nothing *)

Lemma subsequence_refl {A} (l : list A) : subsequence l l.
Proof. induction l; [constructor | now apply sub_keep]. Qed.

Lemma subsequence_Forall {A} (P : A -> Prop) (l l' : list A) :
  subsequence l l' -> Forall P l' -> Forall P l.
Proof.
  induction 1; intros F; auto; inversion F; subst; auto.
Qed.

Lemma subsequence_In {A} (l l' : list A) (x : A) :
  subsequence l l' -> In x l -> In x l'.
Proof.
  induction 1; simpl; intros H0; auto. destruct H0; auto.
Qed.

Lemma subsequence_length {A} (l l' : list A) :
  subsequence l l' -> (List.length l <= List.length l')%nat.
Proof. induction 1; simpl; lia. Qed.

Lemma subsequence_StronglySorted {A} (R : A -> A -> Prop) (l l' : list A) :
  subsequence l l' -> StronglySorted R l' -> StronglySorted R l.
Proof.
  induction 1; intros S; auto; inversion S; subst; auto.
  constructor; auto. eapply subsequence_Forall; eauto.
Qed.

Lemma sorted_fixed {A} (lt : A -> A -> bool) (l : list A) :
  Sorted (before lt) l -> Py.sorted lt l = l.
Proof.
  induction 1 as [|x l S IH H]; [reflexivity|].
  simpl. fold (Py.sorted lt l). rewrite IH.
  destruct H as [|y l' H]; [reflexivity|]. simpl.
  unfold before in H. now rewrite H.
Qed.

(** What [sorted_children] returns is in ascending order of the keys. *)
Lemma sorted_children_sorted (child : Element) (elems : list Element)
      (ids : list string) :
  sorted_children child = Ok elems ->
  sortby_get sortby (tag child) = Ok ids ->
  StronglySorted (entry_le ids) elems.
Proof.
  unfold sorted_children. intros H G.
  destruct (children child) as [|c cs]; [injection H as <-; constructor|].
  rewrite G in H. injection H as <-.
  apply Sorted_StronglySorted; [apply entry_le_trans|].
  exact (sorted_Sorted (fun a b => key_lt (entry_key ids a) (entry_key ids b))
                       (fun a b => key_lt_asym _ _) (c :: cs)).
Qed.

Lemma sorted_children_perm (child : Element) (elems : list Element) :
  sorted_children child = Ok elems -> Permutation elems (children child).
Proof.
  unfold sorted_children. intros H.
  destruct (children child) as [|c cs]; [injection H as <-; constructor|].
  destruct (sortby_get sortby (tag child)) as [ids|]; [|discriminate].
  injection H as <-.
  exact (sorted_perm (fun a b => key_lt (entry_key ids a) (entry_key ids b))
                     (c :: cs)).
Qed.

(** ** The inner loop *)

Lemma scan_subsequence (prev : option Element) (elems : list Element) :
  subsequence (snd (scan prev elems)) elems.
Proof.
  revert prev. induction elems as [|elem rest IH]; intros prev; simpl.
  - constructor.
  - destruct (_elements_equal elem prev).
    + apply sub_skip. apply IH.
    + specialize (IH (Some elem)). destruct (scan (Some elem) rest).
      simpl in *. now apply sub_keep.
Qed.

Lemma scan_nothing_kept (prev : option Element) (elems : list Element) :
  snd (scan prev elems) = [] -> fst (scan prev elems) = prev.
Proof.
  revert prev. induction elems as [|elem rest IH]; intros prev; simpl; auto.
  destruct (_elements_equal elem prev); auto.
  destruct (scan (Some elem) rest). simpl. discriminate.
Qed.

Lemma scan_again (prev : option Element) (elems : list Element) :
  scan prev (snd (scan prev elems)) = scan prev elems.
Proof.
  revert prev. induction elems as [|elem rest IH]; intros prev; simpl; auto.
  destruct (_elements_equal elem prev) eqn:E; auto.
  specialize (IH (Some elem)). destruct (scan (Some elem) rest) as [p kept].
  simpl in *. now rewrite E, IH.
Qed.

Lemma scan_no_repeat (prev : option Element) (elems : list Element) :
  no_repeat (snd (scan prev elems))
  /\ match prev with
     | Some p => HdRel (fun a b => _elements_equal b (Some a) = false) p
                       (snd (scan prev elems))
     | None => True
     end.
Proof.
  revert prev. induction elems as [|elem rest IH]; intros prev; simpl.
  - split; [constructor | destruct prev; auto].
  - destruct (_elements_equal elem prev) eqn:E; [apply IH|].
    destruct (IH (Some elem)) as [N H]. destruct (scan (Some elem) rest) as [p kept].
    simpl in *. split; [now constructor|].
    destruct prev; auto.
Qed.

(** ** The de-duplicator as a whole *)

Lemma pruned_refl (c : Element) : pruned c c.
Proof.
  repeat split; auto. exists (children c). split; [apply Permutation_refl|].
  apply subsequence_refl.
Qed.

Lemma Forall2_pruned_refl (l : list Element) : Forall2 pruned l l.
Proof. induction l; constructor; auto using pruned_refl. Qed.

Lemma dedup_sections_pruned (unique : bool) (sections : list Element) :
  forall prev, Forall2 pruned sections (fst (dedup_sections unique prev sections)).
Proof.
  induction sections as [|child rest IH]; intros prev; [constructor|].
  cbn [dedup_sections].
  destruct (negb unique && negb (tag child =? "AtomTypes")%string).
  - specialize (IH prev). destruct (dedup_sections unique prev rest).
    constructor; [apply pruned_refl | exact IH].
  - destruct (sorted_children child) as [elems|e] eqn:S.
    + pose proof (scan_subsequence prev elems) as Sub.
      destruct (scan prev elems) as [prev' kept].
      specialize (IH prev'). destruct (dedup_sections unique prev' rest).
      cbn [fst snd] in *. constructor; [|exact IH].
      destruct child. cbn. repeat split; auto.
      exists elems. split; [|exact Sub].
      now apply sorted_children_perm in S.
    + apply Forall2_pruned_refl.
Qed.

Lemma sorted_children_again (child : Element) (elems kept : list Element) :
  sorted_children child = Ok elems -> subsequence kept elems ->
  sorted_children (set_children child kept) = Ok kept.
Proof.
  intros S Sub. unfold sorted_children.
  replace (children (set_children child kept)) with kept by now destruct child.
  replace (tag (set_children child kept)) with (tag child) by now destruct child.
  destruct kept as [|k kept']; [reflexivity|].
  destruct (sortby_get sortby (tag child)) as [ids|e] eqn:G.
  - pose proof (sorted_children_sorted _ _ _ S G) as St.
    apply (subsequence_StronglySorted _ _ _ Sub) in St.
    apply StronglySorted_Sorted in St. f_equal.
    exact (sorted_fixed (fun a b => key_lt (entry_key ids a) (entry_key ids b))
                        (k :: kept') St).
  - unfold sorted_children in S. rewrite G in S.
    destruct (children child); [|discriminate].
    injection S as <-. inversion Sub.
Qed.

Lemma dedup_sections_again (unique : bool) (sections : list Element) :
  forall prev,
    dedup_sections unique prev (fst (dedup_sections unique prev sections))
    = dedup_sections unique prev sections.
Proof.
  induction sections as [|child rest IH]; intros prev; [reflexivity|].
  cbn [dedup_sections].
  destruct (negb unique && negb (tag child =? "AtomTypes")%string) eqn:Skip.
  - specialize (IH prev). destruct (dedup_sections unique prev rest) as [rest' r].
    cbn [fst] in *. cbn [dedup_sections]. now rewrite Skip, IH.
  - destruct (sorted_children child) as [elems|e] eqn:S.
    + pose proof (scan_subsequence prev elems) as Sub.
      pose proof (scan_again prev elems) as Again.
      destruct (scan prev elems) as [prev' kept] eqn:Sc. cbn [snd] in *.
      specialize (IH prev'). destruct (dedup_sections unique prev' rest) as [rest' r].
      cbn [fst] in *. cbn [dedup_sections].
      replace (tag (set_children child kept)) with (tag child) by now destruct child.
      rewrite Skip, (sorted_children_again _ _ _ S Sub), Again, IH.
      now destruct child.
    + cbn [fst dedup_sections]. now rewrite Skip, S.
Qed.

Lemma dedup_sections_sorted (unique : bool) (sections : list Element) :
  forall prev sections',
    dedup_sections unique prev sections = (sections', Ok tt) ->
    Forall (fun c =>
              processed unique c = true ->
              no_repeat (children c)
              /\ match sortby_get sortby (tag c) with
                 | Ok ids => StronglySorted (entry_le ids) (children c)
                 | Raise _ => children c = []
                 end) sections'.
Proof.
  induction sections as [|child rest IH]; intros prev sections' H.
  - injection H as <-. constructor.
  - cbn [dedup_sections] in H.
    destruct (negb unique && negb (tag child =? "AtomTypes")%string) eqn:Skip.
    + destruct (dedup_sections unique prev rest) as [rest' r] eqn:D.
      injection H as <- ->. constructor; [|now apply (IH prev)].
      unfold processed. intros P.
      destruct unique, (tag child =? "AtomTypes")%string; discriminate.
    + destruct (sorted_children child) as [elems|e] eqn:S; [|discriminate].
      pose proof (scan_subsequence prev elems) as Sub.
      pose proof (proj1 (scan_no_repeat prev elems)) as NR.
      destruct (scan prev elems) as [prev' kept]. cbn [snd] in *.
      destruct (dedup_sections unique prev' rest) as [rest' r] eqn:D.
      injection H as <- ->. constructor; [|now apply (IH prev')].
      intros _.
      replace (tag (set_children child kept)) with (tag child) by now destruct child.
      replace (children (set_children child kept)) with kept by now destruct child.
      split; [exact NR|].
      destruct (sortby_get sortby (tag child)) as [ids|e] eqn:G.
      * eapply subsequence_StronglySorted; [exact Sub|].
        now apply sorted_children_sorted with child.
      * unfold sorted_children in S. rewrite G in S.
        destruct (children child); [|discriminate].
        injection S as <-. now inversion Sub.
Qed.

(** ** How the emitters end *)










(** ** The tree the emitters leave *)

Lemma section_exact {X} (tagS : string) (l : list X) (t : X -> string)
      (body : X -> M Element unit) (root root' : Element) :
  SubElement tagS (for_ l (fun x => SubElement (t x) (body x))) root = (root', Ok tt) ->
  root' = append root (mkElement tagS None None []
                         (map (fun x => entry_of (t x) (body x)) l)).
Proof.
  unfold SubElement at 1. intros H.
  destruct (for_ l _ (Element_ tagS)) as [sec r] eqn:E.
  injection H as <- ->.
  pose proof (for_SubElement_inv _ _ _ _ _ E) as F.
  rewrite (for_SubElement _ _ _ _ F) in E. now injection E as <-.
Qed.

Lemma optional_section_exact {X} (cond : bool) (tagS : string) (l : list X)
      (t : X -> string) (body : X -> M Element unit) (root root' : Element) :
  (if cond then SubElement tagS (for_ l (fun x => SubElement (t x) (body x)))
   else ret tt) root = (root', Ok tt) ->
  root' = mkElement (tag root) (text root) (tail root) (attrib root)
            (children root
             ++ section_if cond
                  (mkElement tagS None None []
                     (map (fun x => entry_of (t x) (body x)) l)))%list.
Proof.
  destruct cond; intros H.
  - apply section_exact in H. subst. now destruct root.
  - injection H as <-. cbn [section_if]. rewrite app_nil_r. now destruct root.
Qed.

Lemma emit_sections_built (self : Structure.t) (forcefield : option Forcefield.t)
      (unique : bool) (root : Element) :
  emit_sections self forcefield unique (Element_ "ForceField") = (root, Ok tt) ->
  exists c l,
    _infer_coulomb14scale self = Ok c /\ _infer_lj14scale self = Ok l
    /\ root = mkElement "ForceField" None None []
                (emitted_sections self forcefield unique c l).
Proof.
  unfold emit_sections. intros H.
  unfold bind at 1 in H.
  destruct (_write_atoms _ _ _ _ _) as [r1 [[]|e]] eqn:E1; [|discriminate].
  unfold bind at 1 in H.
  match type of H with context [match ?m r1 with _ => _ end] =>
    destruct (m r1) as [r2 [[]|e]] eqn:E2; [|discriminate] end.
  unfold bind at 1 in H.
  match type of H with context [match ?m r2 with _ => _ end] =>
    destruct (m r2) as [r3 [[]|e]] eqn:E3; [|discriminate] end.
  unfold bind at 1 in H.
  match type of H with context [match ?m r3 with _ => _ end] =>
    destruct (m r3) as [r4 [[]|e]] eqn:E4; [|discriminate] end.
  rename H into E5.
  destruct (write_atoms_inv _ _ _ _ _ _ E1) as (c & l & Hc & Hl).
  rewrite (write_atoms_ok _ _ _ _ _ _ _ Hc Hl) in E1. injection E1 as <-.
  unfold _write_bonds, _write_angles, _write_periodic_torsions,
    _write_rb_torsions in *.
  apply (optional_section_exact _ _ _ (fun _ => "Bond")) in E2.
  apply (optional_section_exact _ _ _ (fun _ => "Angle")) in E3.
  apply (optional_section_exact _ _ _
           (fun d => if Dihedral.improper d then "Improper" else "Proper")) in E4.
  apply (optional_section_exact _ _ _ (fun _ => "Proper")) in E5.
  exists c, l. split; [exact Hc|]. split; [exact Hl|].
  subst. cbn [tag text tail attrib children append Element_ app].
  unfold emitted_sections. now rewrite <- !app_assoc.
Qed.

(** ** [write_foyer] as a whole *)




(** The whole effect of a call that ends normally. *)
Lemma write_foyer_success (self : Structure.t) (filename : string)
      (forcefield : option Forcefield.t) (unique : bool) (w w' : World) :
  write_foyer self filename forcefield unique w = (w', Ok tt) ->
  exists c l root',
    _infer_coulomb14scale self = Ok c /\ _infer_lj14scale self = Ok l
    /\ _remove_duplicate_elements unique
         (mkElement "ForceField" None None []
            (emitted_sections self forcefield unique c l))
       = (root', Ok tt)
    /\ w' = {| tree := Some root'; files := (filename, root') :: files w |}.
Proof.
  rewrite write_foyer_blocks.
  destruct (negb (first_has_type Bond.type (Structure.bonds self)));
    [discriminate|].
  unfold bind at 1, new_tree at 1. unfold bind at 1.
  destruct (emit_sections self forcefield unique (Element_ "ForceField"))
    as [root [[]|e]] eqn:E; [|discriminate].
  destruct (emit_sections_built _ _ _ _ E) as (c & l & Hc & Hl & ->).
  destruct (_remove_duplicate_elements unique _) as [root' [[]|e]] eqn:D;
    [|discriminate].
  unfold write. cbn [tree files]. intros H. injection H as <-.
  now exists c, l, root'.
Qed.

(** ** The inner loop loses no entry *)

Lemma scan_covers (prev : option Element) (elems : list Element) :
  forall e, In e elems ->
    exists k, (In k (snd (scan prev elems)) \/ prev = Some k)
              /\ (e = k \/ _elements_equal e (Some k) = true).
Proof.
  revert prev. induction elems as [|elem rest IH]; intros prev e H; [inversion H|].
  cbn [scan]. destruct (_elements_equal elem prev) eqn:E.
  - destruct H as [<-|H]; [|now apply IH].
    destruct prev as [p|]; [|now destruct elem]. exists p. auto.
  - specialize (IH (Some elem)). destruct (scan (Some elem) rest) as [p kept].
    cbn [snd] in *. destruct H as [<-|H].
    + exists elem. split; [left; now left | now left].
    + destruct (IH e H) as (k & [Hk|Hk] & Hek).
      * exists k. split; [left; now right | exact Hek].
      * injection Hk as <-. exists elem. split; [left; now left | exact Hek].
Qed.

Lemma represents_refl (s : Element) : represents s s.
Proof.
  split; [reflexivity|]. split; [auto|]. intros e H. exists e. auto.
Qed.

Lemma dedup_sections_scoped_represents (unique : bool) (sections : list Element) :
  Forall2 represents sections (fst (dedup_sections_scoped unique sections)).
Proof.
  induction sections as [|child rest IH]; [constructor|].
  cbn [dedup_sections_scoped].
  destruct (negb unique && negb (tag child =? "AtomTypes")%string).
  - destruct (dedup_sections_scoped unique rest).
    constructor; [apply represents_refl | exact IH].
  - destruct (sorted_children child) as [elems|e] eqn:S.
    + pose proof (scan_subsequence None elems) as Sub.
      pose proof (scan_covers None elems) as Cov.
      destruct (scan None elems) as [p kept].
      destruct (dedup_sections_scoped unique rest). cbn [fst snd] in *.
      constructor; [|exact IH].
      apply sorted_children_perm in S. unfold represents.
      replace (tag (set_children child kept)) with (tag child) by now destruct child.
      replace (children (set_children child kept)) with kept by now destruct child.
      split; [reflexivity|]. split.
      * intros k Hk. eapply Permutation_in; [exact S|].
        eapply subsequence_In; eauto.
      * intros e He. apply Permutation_sym in S.
        destruct (Cov e (Permutation_in _ S He)) as (k & [Hk|Hk] & Hek);
          [|discriminate]. now exists k.
    + clear IH. induction (child :: rest); constructor; auto using represents_refl.
Qed.

(* ================================================================= *)
(** ** Canonical keys *)

Lemma sorted2 (a b : string) :
  exists x y,
    Py.sorted String.ltb [a; b] = [x; y]
    /\ Permutation [x; y] [a; b] /\ String.leb x y = true.
Proof.
  pose proof (sorted_perm String.ltb [a; b]) as P.
  pose proof (sorted_Sorted String.ltb ltb_asym [a; b]) as S.
  destruct (Py.sorted String.ltb [a; b]) as [|x [|y [|z l]]] eqn:E;
    try (apply Permutation_length in P; simpl in P; discriminate).
  exists x, y. repeat split; auto.
  inversion S as [|? ? _ H]; subst. inversion H; subst. now apply not_ltb_leb.
Qed.

Lemma ltb_leb (a b : string) : String.ltb a b = true -> String.leb a b = true.
Proof. intros H. apply not_ltb_leb. now apply ltb_asym. Qed.

Lemma rb_key_asymmetric (a1 a2 a3 a4 : Atom.t) (ty ty' : option RBTorsionType.t) :
  Atom.type a1 = Atom.type a4 -> Atom.type a2 <> Atom.type a3 ->
  emitted_types 4
    (entry_of "Proper" (rb_torsion_entry (RBTorsion.Build_t a1 a2 a3 a4 ty) true))
  <> emitted_types 4
       (entry_of "Proper" (rb_torsion_entry (RBTorsion.Build_t a4 a3 a2 a1 ty') true)).
Proof.
  intros H14 H23. rewrite !rb_types_unique.
  cbn [RBTorsion.atom1 RBTorsion.atom2 RBTorsion.atom3 RBTorsion.atom4].
  rewrite H14, ltb_irrefl. cbn [map]. intros [= E]. now apply H23.
Qed.

(** In unique mode a term listed from its other end fills its entry in the
    same way and ends in the same way. *)
Lemma bond_entry_flip (a1 a2 : Atom.t) (ty : option BondType.t) (e : Element) :
  bond_entry (Bond.Build_t a2 a1 ty) true e
  = bond_entry (Bond.Build_t a1 a2 ty) true e.
Proof.
  unfold bond_entry. cbn [Bond.atom1 Bond.atom2 Bond.type].
  now rewrite (sorted2_sym (Atom.type a1) (Atom.type a2)).
Qed.

Lemma angle_entry_flip (a1 a2 a3 : Atom.t) (ty : option AngleType.t) (e : Element) :
  angle_entry (Angle.Build_t a3 a2 a1 ty) true e
  = angle_entry (Angle.Build_t a1 a2 a3 ty) true e.
Proof.
  unfold angle_entry.
  cbn [Angle.atom1 Angle.atom2 Angle.atom3 Angle.type Py.step2].
  rewrite (sorted2_sym (Atom.type a3) (Atom.type a1)).
  destruct (sorted2 (Atom.type a1) (Atom.type a3)) as (x & z & -> & _).
  reflexivity.
Qed.

Lemma dihedral_entry_flip (a1 a2 a3 a4 : Atom.t) (ty : option DihedralType.t)
      (e : Element) :
  reversible a1 a2 a3 a4 ->
  dihedral_entry (Dihedral.Build_t a4 a3 a2 a1 false ty) true e
  = dihedral_entry (Dihedral.Build_t a1 a2 a3 a4 false ty) true e.
Proof.
  intros H. unfold dihedral_entry.
  cbn [Dihedral.improper Dihedral.atom1 Dihedral.atom2 Dihedral.atom3
       Dihedral.atom4 Dihedral.type].
  cbv [Py.last_item Py.item last nth Z.to_nat].
  destruct (String.ltb (Atom.type a4) (Atom.type a1)) eqn:H41,
           (String.ltb (Atom.type a1) (Atom.type a4)) eqn:H14; try reflexivity.
  - now rewrite (ltb_asym _ _ H41) in H14.
  - pose proof (ltb_trichotomy _ _ H14 H41) as E.
    destruct H as [H|H]; [contradiction|]. now rewrite E, H.
Qed.

Lemma rb_torsion_entry_flip (a1 a2 a3 a4 : Atom.t) (ty : option RBTorsionType.t)
      (e : Element) :
  reversible a1 a2 a3 a4 ->
  rb_torsion_entry (RBTorsion.Build_t a4 a3 a2 a1 ty) true e
  = rb_torsion_entry (RBTorsion.Build_t a1 a2 a3 a4 ty) true e.
Proof.
  intros H. unfold rb_torsion_entry.
  cbn [RBTorsion.atom1 RBTorsion.atom2 RBTorsion.atom3 RBTorsion.atom4
       RBTorsion.type].
  cbv [Py.last_item Py.item last nth Z.to_nat].
  destruct (String.ltb (Atom.type a4) (Atom.type a1)) eqn:H41,
           (String.ltb (Atom.type a1) (Atom.type a4)) eqn:H14; try reflexivity.
  - now rewrite (ltb_asym _ _ H41) in H14.
  - pose proof (ltb_trichotomy _ _ H14 H41) as E.
    destruct H as [H|H]; [contradiction|]. now rewrite E, H.
Qed.

(** X1. In unique mode it does not matter which atom of a bond is listed
    first: the two readings get the same type1, type2 whatever their bond
    types, and with the same bond type the two entries are the same
    attribute for attribute, so that one of them is a duplicate. *)
Theorem bond_read_backwards (a1 a2 : Atom.t) :
  (forall ty ty' : option BondType.t,
      emitted_types 2 (entry_of "Bond" (bond_entry (Bond.Build_t a1 a2 ty) true))
      = emitted_types 2 (entry_of "Bond" (bond_entry (Bond.Build_t a2 a1 ty') true)))
  /\ (forall ty : option BondType.t,
         entry_of "Bond" (bond_entry (Bond.Build_t a1 a2 ty) true)
         = entry_of "Bond" (bond_entry (Bond.Build_t a2 a1 ty) true)).
Proof.
  split.
  - intros ty ty'. rewrite !bond_types_unique. cbn [Bond.atom1 Bond.atom2].
    now rewrite sorted2_sym.
  - intros ty. unfold entry_of. now rewrite bond_entry_flip.
Qed.

(** X2. In unique mode an angle listed as (1, 2, 3) and the same angle
    listed as (3, 2, 1) get the same type1, type2, type3 whatever their
    angle types, and with the same angle type the two entries are the same
    attribute for attribute. *)
Theorem angle_read_backwards (a1 a2 a3 : Atom.t) :
  (forall ty ty' : option AngleType.t,
      emitted_types 3
        (entry_of "Angle" (angle_entry (Angle.Build_t a1 a2 a3 ty) true))
      = emitted_types 3
          (entry_of "Angle" (angle_entry (Angle.Build_t a3 a2 a1 ty') true)))
  /\ (forall ty : option AngleType.t,
         entry_of "Angle" (angle_entry (Angle.Build_t a1 a2 a3 ty) true)
         = entry_of "Angle" (angle_entry (Angle.Build_t a3 a2 a1 ty) true)).
Proof.
  split.
  - intros ty ty'. rewrite !angle_types_unique.
    cbn [Angle.atom1 Angle.atom2 Angle.atom3]. now rewrite sorted2_sym.
  - intros ty. unfold entry_of. now rewrite angle_entry_flip.
Qed.

(** X3. In unique mode a proper periodic torsion listed as (1, 2, 3, 4) and
    the same torsion listed as (4, 3, 2, 1) get the same type1..type4
    exactly when the names of atoms 1 and 4 differ or the names of atoms 2
    and 3 agree; and then, with the same dihedral type, the two entries are
    the same attribute for attribute. *)
Theorem proper_read_backwards (a1 a2 a3 a4 : Atom.t) :
  (forall ty ty' : option DihedralType.t,
      emitted_types 4
        (entry_of "Proper"
           (dihedral_entry (Dihedral.Build_t a1 a2 a3 a4 false ty) true))
      = emitted_types 4
          (entry_of "Proper"
             (dihedral_entry (Dihedral.Build_t a4 a3 a2 a1 false ty') true))
      <-> Atom.type a1 <> Atom.type a4 \/ Atom.type a2 = Atom.type a3)
  /\ (forall ty : option DihedralType.t,
         Atom.type a1 <> Atom.type a4 \/ Atom.type a2 = Atom.type a3 ->
         entry_of "Proper"
           (dihedral_entry (Dihedral.Build_t a1 a2 a3 a4 false ty) true)
         = entry_of "Proper"
             (dihedral_entry (Dihedral.Build_t a4 a3 a2 a1 false ty) true)).
Proof.
  split.
  - intros ty ty'. split; [|apply proper_key_symmetric].
    intros E. destruct (string_dec (Atom.type a1) (Atom.type a4)) as [H14|H14];
      [|now left].
    destruct (string_dec (Atom.type a2) (Atom.type a3)) as [H23|H23]; [now right|].
    exfalso. exact (proper_key_asymmetric a1 a2 a3 a4 ty ty' H14 H23 E).
  - intros ty H. unfold entry_of. now rewrite (dihedral_entry_flip a1 a2 a3 a4).
Qed.

Lemma proper_read_backwards_witness :
  entry_of "Proper"
    (dihedral_entry (Dihedral.Build_t o2 c1 c0 c4 false (Some torsion_CA)) true)
  = entry_of "Proper"
      (dihedral_entry (Dihedral.Build_t c4 c0 c1 o2 false (Some torsion_CA)) true).
Proof.
  apply (proj2 (proper_read_backwards o2 c1 c0 c4)). left. vm_compute.
  discriminate.
Defined.

(** X4. The same for a Ryckaert-Bellemans torsion: the two readings get
    the same type1..type4 exactly when the end names differ or the inner
    names agree, and then, with the same torsion type, the same entry. *)
Theorem rb_read_backwards (a1 a2 a3 a4 : Atom.t) :
  (forall ty ty' : option RBTorsionType.t,
      emitted_types 4
        (entry_of "Proper"
           (rb_torsion_entry (RBTorsion.Build_t a1 a2 a3 a4 ty) true))
      = emitted_types 4
          (entry_of "Proper"
             (rb_torsion_entry (RBTorsion.Build_t a4 a3 a2 a1 ty') true))
      <-> Atom.type a1 <> Atom.type a4 \/ Atom.type a2 = Atom.type a3)
  /\ (forall ty : option RBTorsionType.t,
         Atom.type a1 <> Atom.type a4 \/ Atom.type a2 = Atom.type a3 ->
         entry_of "Proper"
           (rb_torsion_entry (RBTorsion.Build_t a1 a2 a3 a4 ty) true)
         = entry_of "Proper"
             (rb_torsion_entry (RBTorsion.Build_t a4 a3 a2 a1 ty) true)).
Proof.
  split.
  - intros ty ty'. split; [|apply rb_key_symmetric].
    intros E. destruct (string_dec (Atom.type a1) (Atom.type a4)) as [H14|H14];
      [|now left].
    destruct (string_dec (Atom.type a2) (Atom.type a3)) as [H23|H23]; [now right|].
    exfalso. exact (rb_key_asymmetric a1 a2 a3 a4 ty ty' H14 H23 E).
  - intros ty H. unfold entry_of.
    now rewrite (rb_torsion_entry_flip a1 a2 a3 a4).
Qed.

Lemma rb_read_backwards_witness :
  entry_of "Proper" (rb_torsion_entry (RBTorsion.Build_t o2 c1 c0 c4 None) true)
  = entry_of "Proper" (rb_torsion_entry (RBTorsion.Build_t c4 c0 c1 o2 None) true).
Proof.
  apply (proj2 (rb_read_backwards o2 c1 c0 c4)). left. vm_compute. discriminate.
Defined.

(** X5. In unique mode the entry of a bond carries the two type names of
    its atoms with type1 <= type2, and the entry of an angle carries the
    name of its middle atom under type2 and the names of its end atoms under
    type1 and type3 with type1 <= type3. *)
Theorem bond_and_angle_keys_ascending :
  (forall bond : Bond.t,
      exists x y,
        emitted_types 2 (entry_of "Bond" (bond_entry bond true)) = [Some x; Some y]
        /\ Permutation [x; y]
                       [Atom.type (Bond.atom1 bond); Atom.type (Bond.atom2 bond)]
        /\ String.leb x y = true)
  /\ (forall angle : Angle.t,
         exists x z,
           emitted_types 3 (entry_of "Angle" (angle_entry angle true))
           = [Some x; Some (Atom.type (Angle.atom2 angle)); Some z]
           /\ Permutation [x; z] [Atom.type (Angle.atom1 angle);
                                  Atom.type (Angle.atom3 angle)]
           /\ String.leb x z = true).
Proof.
  split.
  - intros bond. rewrite bond_types_unique.
    destruct (sorted2 (Atom.type (Bond.atom1 bond)) (Atom.type (Bond.atom2 bond)))
      as (x & y & E & P & L).
    exists x, y. now rewrite E.
  - intros angle. rewrite angle_types_unique.
    destruct (sorted2 (Atom.type (Angle.atom1 angle)) (Atom.type (Angle.atom3 angle)))
      as (x & z & E & P & L).
    exists x, z. now rewrite E.
Qed.

(** X6. In unique mode the entry of a proper torsion, periodic or
    Ryckaert-Bellemans, carries the four names in the order of the term or
    in the reverse order, and always with type1 <= type4. *)
Theorem torsion_keys_ends_ascending :
  (forall (a1 a2 a3 a4 : Atom.t) (ty : option DihedralType.t),
      exists x1 x2 x3 x4,
        emitted_types 4
          (entry_of "Proper"
             (dihedral_entry (Dihedral.Build_t a1 a2 a3 a4 false ty) true))
        = map Some [x1; x2; x3; x4]
        /\ ([x1; x2; x3; x4]
            = [Atom.type a1; Atom.type a2; Atom.type a3; Atom.type a4]
            \/ [x1; x2; x3; x4]
               = [Atom.type a4; Atom.type a3; Atom.type a2; Atom.type a1])
        /\ String.leb x1 x4 = true)
  /\ (forall rb : RBTorsion.t,
         exists x1 x2 x3 x4,
           emitted_types 4 (entry_of "Proper" (rb_torsion_entry rb true))
           = map Some [x1; x2; x3; x4]
           /\ ([x1; x2; x3; x4]
               = [Atom.type (RBTorsion.atom1 rb); Atom.type (RBTorsion.atom2 rb);
                  Atom.type (RBTorsion.atom3 rb); Atom.type (RBTorsion.atom4 rb)]
               \/ [x1; x2; x3; x4]
                  = [Atom.type (RBTorsion.atom4 rb); Atom.type (RBTorsion.atom3 rb);
                     Atom.type (RBTorsion.atom2 rb); Atom.type (RBTorsion.atom1 rb)])
           /\ String.leb x1 x4 = true).
Proof.
  split.
  - intros a1 a2 a3 a4 ty. rewrite proper_types_unique.
    destruct (String.ltb (Atom.type a4) (Atom.type a1)) eqn:E.
    + exists (Atom.type a4), (Atom.type a3), (Atom.type a2), (Atom.type a1).
      split; [reflexivity|]. split; [now right | now apply ltb_leb].
    + exists (Atom.type a1), (Atom.type a2), (Atom.type a3), (Atom.type a4).
      split; [reflexivity|]. split; [now left | now apply not_ltb_leb].
  - intros rb. rewrite rb_types_unique.
    destruct (String.ltb (Atom.type (RBTorsion.atom4 rb))
                         (Atom.type (RBTorsion.atom1 rb))) eqn:E.
    + do 4 eexists. split; [reflexivity|]. split; [now right | now apply ltb_leb].
    + do 4 eexists. split; [reflexivity|].
      split; [now left | now apply not_ltb_leb].
Qed.

(** ** What an entry is made of *)

(** X7. The attributes of the entry of a typed bonded term, by name and in
    order: the type names, then the numbers of the term; in per-instance
    mode, and only then, the atom indices come first.  No name is set twice
    and none is left out, for all atoms and all parameters. *)
Theorem bonded_entry_attribute_names (a1 a2 a3 a4 : Atom.t) (unique : bool) :
  (forall ty : BondType.t,
      attribute_names
        (entry_of "Bond" (bond_entry (Bond.Build_t a1 a2 (Some ty)) unique))
      = ((if unique then [] else ["id1"; "id2"])
         ++ ["type1"; "type2"; "length"; "k"])%list)
  /\ (forall ty : AngleType.t,
         attribute_names
           (entry_of "Angle" (angle_entry (Angle.Build_t a1 a2 a3 (Some ty)) unique))
         = ((if unique then [] else ["id1"; "id2"; "id3"])
            ++ ["type1"; "type2"; "type3"; "angle"; "k"])%list)
  /\ (forall (improper : bool) (ty : DihedralType.t),
         attribute_names
           (entry_of (if improper then "Improper" else "Proper")
              (dihedral_entry (Dihedral.Build_t a1 a2 a3 a4 improper (Some ty))
                              unique))
         = ((if unique then [] else ["id1"; "id2"; "id3"; "id4"])
            ++ ["type1"; "type2"; "type3"; "type4";
                "periodicity1"; "phase1"; "k1"])%list)
  /\ (forall ty : RBTorsionType.t,
         attribute_names
           (entry_of "Proper"
              (rb_torsion_entry (RBTorsion.Build_t a1 a2 a3 a4 (Some ty)) unique))
         = ((if unique then [] else ["id1"; "id2"; "id3"; "id4"])
            ++ ["type1"; "type2"; "type3"; "type4";
                "c0"; "c1"; "c2"; "c3"; "c4"; "c5"])%list).
Proof.
  split.
  { intros ty. destruct unique; run_entry; cbv [Py.sorted fold_right Py.insert];
      [destruct (String.ltb _ _)|]; reflexivity. }
  split.
  { intros ty. destruct unique; run_entry;
      cbv [Py.sorted fold_right Py.insert Py.step2 Py.set_step2];
      [destruct (String.ltb _ _)|]; reflexivity. }
  split.
  { intros [] ty; destruct unique; run_entry;
      cbv [Dihedral.improper Py.last_item Py.item last nth Z.to_nat
           Py.swap02 Py.set_tail tl];
      try reflexivity; destruct (String.ltb _ _); reflexivity. }
  intros ty. destruct unique; run_entry;
    cbv [Py.last_item Py.item last nth Z.to_nat RBTorsion.atom1 RBTorsion.atom4];
    [destruct (String.ltb _ _)|]; reflexivity.
Qed.

(** X8. The entry of an atom type never fails for want of an annotation:
    it carries the type name, the mass written with [str], and for class,
    element, def, desc and doi the value the force field holds for the name,
    or the empty string when no force field is given or the name is not in
    its dictionary. *)
Theorem atomtype_entry_annotations (atom : Atom.t)
        (forcefield : option Forcefield.t) :
  let name := AtomType.name (Atom.atom_type atom) in
  atomtype_entry atom forcefield (Element_ "Type")
  = (mkElement "Type" None None
       [("name", name);
        ("class", annotation forcefield Forcefield.atomTypeClasses name);
        ("element", annotation forcefield Forcefield.atomTypeElements name);
        ("mass", PyFloat.str (Atom.mass atom));
        ("def", annotation forcefield Forcefield.atomTypeDefinitions name);
        ("desc", annotation forcefield Forcefield.atomTypeDesc name);
        ("doi", annotation forcefield Forcefield.atomTypeRefs name)] [],
     Ok tt).
Proof.
  destruct forcefield as [ff|]; [|reflexivity].
  cbv [atomtype_entry atomtype_attrs for_ bind set_ modify ret str_eval
       String.eqb Ascii.eqb Bool.eqb ff_lookup getitem annotation].
  destruct (assoc_get (Forcefield.atomTypeClasses ff) _),
    (assoc_get (Forcefield.atomTypeElements ff) _),
    (assoc_get (Forcefield.atomTypeDefinitions ff) _),
    (assoc_get (Forcefield.atomTypeDesc ff) _),
    (assoc_get (Forcefield.atomTypeRefs ff) _); reflexivity.
Qed.

(* ================================================================= *)
(** ** The Lennard-Jones 1-4 scale, every case *)



(* ================================================================= *)
(** ** [_remove_duplicate_elements] on any tree *)

(** X10. Whatever tree it is given, in either mode and whether or not it
    ends normally, [_remove_duplicate_elements] only reorders and drops
    entries: the root keeps its tag, text, tail and attributes and its
    sections in their order, and every section keeps its own and holds a
    sub-list of a rearrangement of the entries it had. *)
Theorem remove_duplicates_only_removes (unique : bool) (root : Element) :
  let root' := fst (_remove_duplicate_elements unique root) in
  tag root' = tag root /\ text root' = text root /\ tail root' = tail root
  /\ attrib root' = attrib root
  /\ Forall2 pruned (children root) (children root').
Proof.
  unfold _remove_duplicate_elements.
  pose proof (dedup_sections_pruned unique (children root) None) as P.
  destruct (dedup_sections unique None (children root)) as [sections r].
  destruct root. cbn [fst] in *. now repeat split.
Qed.

(** X11. Running [_remove_duplicate_elements] on its own result changes
    nothing more and ends as the first run did. *)
Theorem remove_duplicates_idempotent (unique : bool) (root : Element) :
  _remove_duplicate_elements unique (fst (_remove_duplicate_elements unique root))
  = _remove_duplicate_elements unique root.
Proof.
  unfold _remove_duplicate_elements.
  pose proof (dedup_sections_again unique (children root) None) as A.
  destruct (dedup_sections unique None (children root)) as [sections r].
  destruct root. cbn [fst children set_children] in *. rewrite A.
  reflexivity.
Qed.

(** X12. After a normal end, every section that was processed (all of them
    in unique mode, AtomTypes alone otherwise) is in ascending order of its
    sort key, and no entry of it equals the entry just before it. *)
Theorem remove_duplicates_sorted (unique : bool) (root root' : Element) :
  _remove_duplicate_elements unique root = (root', Ok tt) ->
  Forall (fun c =>
            processed unique c = true ->
            no_repeat (children c)
            /\ match sortby_get sortby (tag c) with
               | Ok ids => StronglySorted (entry_le ids) (children c)
               | Raise _ => children c = []
               end) (children root').
Proof.
  unfold _remove_duplicate_elements.
  destruct (dedup_sections unique None (children root)) as [sections r] eqn:D.
  intros [= <- ->]. destruct root. cbn [children set_children].
  exact (dedup_sections_sorted unique _ None sections D).
Qed.

Lemma remove_duplicates_sorted_witness :
  Forall (fun c =>
            processed true c = true ->
            no_repeat (children c)
            /\ match sortby_get sortby (tag c) with
               | Ok ids => StronglySorted (entry_le ids) (children c)
               | Raise _ => children c = []
               end)
         (children (fst (_remove_duplicate_elements true unsorted_bonds))).
Proof.
  apply (remove_duplicates_sorted true unsorted_bonds).
  vm_compute. reflexivity.
Defined.

(* ================================================================= *)
(** ** A call of [write_foyer], from outside *)



(** X15. The document of a call that ends normally: the root is
    ForceField, and its sections are AtomTypes, NonbondedForce,
    HarmonicBondForce, then HarmonicAngleForce, PeriodicTorsionForce and
    RBTorsionForce, each present exactly when the first term of its list is
    typed, in this order and in both modes. *)
Theorem written_sections_in_order (self : Structure.t) (filename : string)
        (forcefield : option Forcefield.t) (unique : bool) (w w' : World) :
  write_foyer self filename forcefield unique w = (w', Ok tt) ->
  exists root,
    tree w' = Some root /\ tag root = "ForceField"
    /\ map tag (children root)
       = (["AtomTypes"; "NonbondedForce"; "HarmonicBondForce"]
          ++ (if first_has_type Angle.type (Structure.angles self)
              then ["HarmonicAngleForce"] else [])
          ++ (if first_has_type Dihedral.type (Structure.dihedrals self)
              then ["PeriodicTorsionForce"] else [])
          ++ (if first_has_type RBTorsion.type (Structure.rb_torsions self)
              then ["RBTorsionForce"] else []))%list.
Proof.
  intros H.
  assert (P : first_has_type Bond.type (Structure.bonds self) = true).
  { destruct (first_has_type Bond.type (Structure.bonds self)) eqn:P;
      [reflexivity|].
    rewrite write_foyer_blocks, P in H. unfold raise in H. discriminate. }
  destruct (write_foyer_success _ _ _ _ _ _ H) as (c & l & root' & _ & _ & D & ->).
  exists root'. cbn [tree]. split; [reflexivity|].
  pose proof (dedup_sections_pruned unique
                (emitted_sections self forcefield unique c l) None) as Pr.
  unfold _remove_duplicate_elements in D. cbn [children set_children] in D.
  destruct (dedup_sections unique None _) as [sections r].
  injection D as <- _. cbn [tag children fst] in *. split; [reflexivity|].
  assert (T : map tag sections
              = map tag (emitted_sections self forcefield unique c l)).
  { clear -Pr. induction Pr as [|s s' l1 l2 (Ht & _) _ IH]; [reflexivity|].
    cbn [map]. now rewrite Ht, IH. }
  rewrite T. unfold emitted_sections, section_if. rewrite P.
  destruct (first_has_type Angle.type _), (first_has_type Dihedral.type _),
    (first_has_type RBTorsion.type _); reflexivity.
Qed.

Lemma written_sections_in_order_witness :
  exists root,
    tree (fst (write_foyer diethyl_ether "ether.xml" None true no_output))
    = Some root
    /\ tag root = "ForceField"
    /\ map tag (children root)
       = (["AtomTypes"; "NonbondedForce"; "HarmonicBondForce"]
          ++ (if first_has_type Angle.type (Structure.angles diethyl_ether)
              then ["HarmonicAngleForce"] else [])
          ++ (if first_has_type Dihedral.type (Structure.dihedrals diethyl_ether)
              then ["PeriodicTorsionForce"] else [])
          ++ (if first_has_type RBTorsion.type (Structure.rb_torsions diethyl_ether)
              then ["RBTorsionForce"] else []))%list.
Proof.
  apply (written_sections_in_order diethyl_ether "ether.xml" None true no_output).
  vm_compute. reflexivity.
Defined.

Lemma dedup_sections_skipped (sections : list Element) :
  Forall (fun c => String.eqb (tag c) "AtomTypes" = false) sections ->
  forall prev, dedup_sections false prev sections = (sections, Ok tt).
Proof.
  induction 1 as [|child rest T _ IH]; intros prev; [reflexivity|].
  cbn [dedup_sections]. rewrite T. cbn [negb andb]. now rewrite IH.
Qed.

(** X16. The document of a per-instance call ([unique=False]) that ends
    normally: apart from AtomTypes, which is pruned as in unique mode, every
    section is written as emitted, with one entry for each atom, bond,
    angle, dihedral and torsion of the structure in the order of the
    structure. *)
Theorem per_instance_document (self : Structure.t) (filename : string)
        (forcefield : option Forcefield.t) (w w' : World) :
  write_foyer self filename forcefield false w = (w', Ok tt) ->
  exists c l atomtypes atomtypes' rest root,
    _infer_coulomb14scale self = Ok c /\ _infer_lj14scale self = Ok l
    /\ emitted_sections self forcefield false c l = atomtypes :: rest
    /\ tree w' = Some root
    /\ children root = atomtypes' :: rest
    /\ pruned atomtypes atomtypes'.
Proof.
  intros H.
  destruct (write_foyer_success _ _ _ _ _ _ H) as (c & l & root' & Hc & Hl & D & ->).
  pose proof (dedup_sections_pruned false
                (emitted_sections self forcefield false c l) None) as Pr.
  unfold _remove_duplicate_elements in D. cbn [children set_children] in D.
  assert (R : exists atomtypes rest,
             emitted_sections self forcefield false c l = atomtypes :: rest
             /\ String.eqb (tag atomtypes) "AtomTypes" = true
             /\ Forall (fun c => String.eqb (tag c) "AtomTypes" = false) rest).
  { unfold emitted_sections, section_if. do 2 eexists.
    split; [reflexivity|]. split; [reflexivity|].
    destruct (first_has_type Bond.type _), (first_has_type Angle.type _),
      (first_has_type Dihedral.type _), (first_has_type RBTorsion.type _);
      cbn [app]; repeat constructor. }
  destruct R as (atomtypes & rest & E & T & F). rewrite E in D, Pr.
  cbn [dedup_sections] in D, Pr. rewrite T in D, Pr. cbn [negb andb] in D, Pr.
  destruct (sorted_children atomtypes) as [elems|e]; [|discriminate].
  destruct (scan None elems) as [prev' kept].
  rewrite (dedup_sections_skipped rest F prev') in D, Pr. cbn [fst] in Pr.
  injection D as <-. inversion Pr as [|? ? ? ? Pa _]; subst.
  exists c, l, atomtypes, (set_children atomtypes kept), rest.
  eexists. repeat split; try eassumption; try reflexivity; apply Pa.
Qed.

Lemma per_instance_document_witness :
  exists c l atomtypes atomtypes' rest root,
    _infer_coulomb14scale diethyl_ether = Ok c
    /\ _infer_lj14scale diethyl_ether = Ok l
    /\ emitted_sections diethyl_ether None false c l = atomtypes :: rest
    /\ tree (fst (write_foyer diethyl_ether "ether.xml" None false no_output))
       = Some root
    /\ children root = atomtypes' :: rest
    /\ pruned atomtypes atomtypes'.
Proof.
  apply (per_instance_document diethyl_ether "ether.xml" None no_output).
  vm_compute. reflexivity.
Defined.

(** X17. No entry is lost from a document [write_foyer] writes: section by
    section, every entry written is one that was emitted, and every entry
    emitted is written or is [_elements_equal] to one written in the same
    section (same text, tail, attributes and children; the tag is not
    compared).  The comparison that [_remove_duplicate_elements] carries
    from one section into the next never succeeds on a tree built by the
    emitters. *)
Theorem written_document_represents (self : Structure.t) (filename : string)
        (forcefield : option Forcefield.t) (unique : bool) (w w' : World) :
  write_foyer self filename forcefield unique w = (w', Ok tt) ->
  exists c l root,
    _infer_coulomb14scale self = Ok c /\ _infer_lj14scale self = Ok l
    /\ tree w' = Some root
    /\ Forall2 represents (emitted_sections self forcefield unique c l)
                          (children root).
Proof.
  rewrite write_foyer_blocks.
  destruct (negb (first_has_type Bond.type (Structure.bonds self)));
    [discriminate|].
  unfold bind at 1, new_tree at 1. unfold bind at 1.
  destruct (emit_sections self forcefield unique (Element_ "ForceField"))
    as [root [[]|e]] eqn:E; [|discriminate].
  rewrite (written_tree_dedup_scoped _ _ _ _ E).
  destruct (emit_sections_built _ _ _ _ E) as (c & l & Hc & Hl & ->).
  pose proof (dedup_sections_scoped_represents unique
                (emitted_sections self forcefield unique c l)) as Rp.
  unfold remove_duplicates_scoped. cbn [children set_children].
  destruct (dedup_sections_scoped unique _) as [sections [[]|e]];
    [|discriminate].
  unfold write. cbn [tree files fst] in *. intros H. injection H as <-.
  exists c, l. eexists. cbn [tree].
  split; [exact Hc|]. split; [exact Hl|]. split; [reflexivity | exact Rp].
Qed.

Lemma written_document_represents_witness :
  exists c l root,
    _infer_coulomb14scale ring = Ok c /\ _infer_lj14scale ring = Ok l
    /\ tree (fst (write_foyer ring "ring.xml" None true no_output)) = Some root
    /\ Forall2 represents (emitted_sections ring None true c l) (children root).
Proof.
  apply (written_document_represents ring "ring.xml" None true no_output).
  vm_compute. reflexivity.
Defined.

(** X18. The scales in the document of a call that ends normally are the
    inferred ones: the second section is NonbondedForce and its attributes
    are coulomb14scale and lj14scale, the values [_infer_coulomb14scale] and
    [_infer_lj14scale] return, written with [str] and not rounded. *)
Theorem written_scales (self : Structure.t) (filename : string)
        (forcefield : option Forcefield.t) (unique : bool) (w w' : World) :
  write_foyer self filename forcefield unique w = (w', Ok tt) ->
  exists c l root nonbonded,
    _infer_coulomb14scale self = Ok c /\ _infer_lj14scale self = Ok l
    /\ tree w' = Some root
    /\ nth_error (children root) 1 = Some nonbonded
    /\ tag nonbonded = "NonbondedForce"
    /\ attrib nonbonded
       = [("coulomb14scale", PyFloat.str c); ("lj14scale", PyFloat.str l)].
Proof.
  intros H.
  destruct (write_foyer_success _ _ _ _ _ _ H) as (c & l & root' & Hc & Hl & D & ->).
  pose proof (dedup_sections_pruned unique
                (emitted_sections self forcefield unique c l) None) as Pr.
  unfold _remove_duplicate_elements in D. cbn [children set_children] in D.
  destruct (dedup_sections unique None _) as [sections r].
  injection D as <- _. cbn [fst] in Pr.
  unfold emitted_sections in Pr. cbn [app] in Pr.
  inversion Pr as [|s0 s0' l0 l0' _ Pr1]; subst.
  inversion Pr1 as [|s1 s1' l1 l1' (Ht & _ & _ & Ha & _) _]; subst.
  exists c, l. do 2 eexists. cbn [tree children nth_error].
  split; [exact Hc|]. split; [exact Hl|]. split; [reflexivity|].
  split; [reflexivity|]. split; [exact Ht | exact Ha].
Qed.

Lemma written_scales_witness :
  exists c l root nonbonded,
    _infer_coulomb14scale diethyl_ether = Ok c
    /\ _infer_lj14scale diethyl_ether = Ok l
    /\ tree (fst (write_foyer diethyl_ether "ether.xml" None false no_output))
       = Some root
    /\ nth_error (children root) 1 = Some nonbonded
    /\ tag nonbonded = "NonbondedForce"
    /\ attrib nonbonded
       = [("coulomb14scale", PyFloat.str c); ("lj14scale", PyFloat.str l)].
Proof.
  apply (written_scales diethyl_ether "ether.xml" None false no_output).
  vm_compute. reflexivity.
Defined.

(* ================================================================= *)
(** ** What the de-duplicator leaves in *)

Lemma key_lt_irrefl (k : list (option string)) : key_lt k k = false.
Proof.
  destruct (key_lt k k) eqn:E; [|reflexivity].
  now rewrite (key_lt_asym _ _ E) in E.
Qed.

Lemma elements_equal_None (e : Element) : _elements_equal e None = false.
Proof. now destruct e. Qed.

(** X19. Only neighbours are compared.  Where two entries have the same
    type names and are not equal (a bond between the same types with another
    length, say), a second copy of the first that comes after the other one
    stays in the section: the sort is stable, it leaves the three in their
    order, and each is compared with the one before it alone. *)
Theorem interleaved_duplicate_stays (section : string) (ids : list string)
        (a b : Element) :
  sortby_get sortby section = Ok ids ->
  entry_key ids a = entry_key ids b ->
  _elements_equal b (Some a) = false ->
  _elements_equal a (Some b) = false ->
  _remove_duplicate_elements true
    (mkElement "ForceField" None None []
       [mkElement section None None [] [a; b; a]])
  = (mkElement "ForceField" None None []
       [mkElement section None None [] [a; b; a]], Ok tt).
Proof.
  intros G K Hba Hab.
  assert (S : sorted_children (mkElement section None None [] [a; b; a])
              = Ok [a; b; a]).
  { unfold sorted_children. cbn [children tag]. rewrite G. f_equal.
    apply (sorted_fixed (fun x y => key_lt (entry_key ids x) (entry_key ids y))).
    unfold before. repeat constructor; rewrite ?K; apply key_lt_irrefl. }
  unfold _remove_duplicate_elements. cbn [children dedup_sections andb negb].
  rewrite S. cbn [scan]. rewrite elements_equal_None, Hba, Hab. reflexivity.
Qed.

Lemma interleaved_duplicate_stays_witness :
  _remove_duplicate_elements true
    (mkElement "ForceField" None None []
       [mkElement "HarmonicBondForce" None None []
          [bond_short; bond_long; bond_short]])
  = (mkElement "ForceField" None None []
       [mkElement "HarmonicBondForce" None None []
          [bond_short; bond_long; bond_short]], Ok tt).
Proof.
  apply (interleaved_duplicate_stays "HarmonicBondForce" ["type1"; "type2"]);
    vm_compute; reflexivity.
Defined.

(* ================================================================= *)
(** ** [_elements_equal] is an equivalence *)

Lemma Element_induction (P : Element -> Prop) :
  (forall t tx tl a cs, Forall P cs -> P (mkElement t tx tl a cs)) ->
  forall e, P e.
Proof.
  intros H. fix IH 1. intros [t tx tl a cs]. apply H.
  revert cs. fix IHcs 1. intros [|c cs]; constructor; [apply IH | apply IHcs].
Qed.

Lemma elements_equal_unfold (e1 e2 : Element) :
  _elements_equal e1 (Some e2)
  = opt_eqb (text e1) (text e2) && opt_eqb (tail e1) (tail e2)
    && attrib_eqb (attrib e1) (attrib e2)
    && (List.length (children e1) =? List.length (children e2))%nat
    && all_equal (children e1) (children e2).
Proof.
  destruct e1 as [t1 tx1 tl1 a1 c1]. cbn [_elements_equal text tail attrib children].
  rewrite String.eqb_refl. cbn [negb].
  destruct (opt_eqb tx1 (text e2)); [|reflexivity].
  destruct (opt_eqb tl1 (tail e2)); [|reflexivity].
  destruct (attrib_eqb a1 (attrib e2)); [|reflexivity].
  destruct (List.length c1 =? List.length (children e2))%nat; reflexivity.
Qed.

Lemma opt_eqb_refl (a : option string) : opt_eqb a a = true.
Proof. destruct a; [apply String.eqb_refl | reflexivity]. Qed.

Lemma opt_eqb_sym (a b : option string) : opt_eqb a b = opt_eqb b a.
Proof. destruct a, b; try reflexivity. apply String.eqb_sym. Qed.

Lemma opt_eqb_trans (a b c : option string) :
  opt_eqb a b = true -> opt_eqb b c = true -> opt_eqb a c = true.
Proof. intros H1 H2. apply opt_eqb_eq in H1, H2. subst. apply opt_eqb_refl. Qed.

Lemma distinct_NoDup (ks : list string) : distinct ks = true -> NoDup ks.
Proof.
  induction ks as [|k ks IH]; [constructor|]. cbn [distinct].
  intros H. apply andb_true_iff in H as [H1 H2]. constructor; [|now apply IH].
  intros I. apply negb_true_iff in H1.
  assert (E : existsb (String.eqb k) ks = true).
  { apply existsb_exists. exists k. split; [exact I | apply String.eqb_refl]. }
  congruence.
Qed.

Lemma assoc_get_distinct (a : list (string * string)) (k v : string) :
  NoDup (map fst a) -> In (k, v) a -> assoc_get a k = Some v.
Proof.
  induction a as [|[k' v'] a IH]; [contradiction|]. cbn [map fst assoc_get].
  intros N [E|I].
  - injection E as -> ->. now rewrite String.eqb_refl.
  - inversion N as [|? ? Nk N']; subst.
    destruct (String.eqb k' k) eqn:E; [|now apply IH].
    apply String.eqb_eq in E. subst k'. exfalso. apply Nk.
    change k with (fst (k, v)). now apply in_map.
Qed.

Lemma attrib_eqb_refl (a : list (string * string)) :
  NoDup (map fst a) -> attrib_eqb a a = true.
Proof.
  intros N. unfold attrib_eqb. rewrite Nat.eqb_refl. cbn [andb].
  apply forallb_forall. intros [k v] I. cbn [fst snd].
  rewrite (assoc_get_distinct a k v N I). cbn [opt_eqb]. apply String.eqb_refl.
Qed.

Lemma attrib_eqb_length (a1 a2 : list (string * string)) :
  attrib_eqb a1 a2 = true -> List.length a1 = List.length a2.
Proof.
  unfold attrib_eqb. intros H. apply andb_true_iff in H as [H _].
  now apply Nat.eqb_eq.
Qed.

Lemma attrib_eqb_In (a1 a2 : list (string * string)) (k v : string) :
  attrib_eqb a1 a2 = true -> In (k, v) a1 -> assoc_get a2 k = Some v.
Proof.
  unfold attrib_eqb. intros H I. apply andb_true_iff in H as [_ H].
  rewrite forallb_forall in H. specialize (H _ I). cbn [fst snd] in H.
  destruct (assoc_get a2 k) as [v2|]; [|discriminate].
  cbn in H. apply String.eqb_eq in H. now subst.
Qed.

Lemma attrib_eqb_trans (a1 a2 a3 : list (string * string)) :
  attrib_eqb a1 a2 = true -> attrib_eqb a2 a3 = true -> attrib_eqb a1 a3 = true.
Proof.
  intros H1 H2. unfold attrib_eqb.
  rewrite (attrib_eqb_length _ _ H1), (attrib_eqb_length _ _ H2), Nat.eqb_refl.
  cbn [andb]. apply forallb_forall. intros [k v] I. cbn [fst snd].
  rewrite (attrib_eqb_get a2 a3 k v H2 (attrib_eqb_In a1 a2 k v H1 I)).
  cbn [opt_eqb]. apply String.eqb_refl.
Qed.

Lemma attrib_eqb_sym (a1 a2 : list (string * string)) :
  NoDup (map fst a1) -> NoDup (map fst a2) ->
  attrib_eqb a1 a2 = true -> attrib_eqb a2 a1 = true.
Proof.
  intros N1 N2 H. pose proof (attrib_eqb_length _ _ H) as L.
  assert (I12 : incl (map fst a1) (map fst a2)).
  { intros k I. apply in_map_iff in I as ([k' v] & <- & I). cbn [fst].
    apply attrib_eqb_In with (a2 := a2) in I; [|exact H].
    apply assoc_get_In in I. change k' with (fst (k', v)). now apply in_map. }
  assert (I21 : incl (map fst a2) (map fst a1)).
  { apply NoDup_length_incl; [exact N1 | | exact I12].
    rewrite !length_map. lia. }
  unfold attrib_eqb. rewrite <- L, Nat.eqb_refl. cbn [andb].
  apply forallb_forall. intros [k v] I. cbn [fst snd].
  assert (Ik : In k (map fst a1)).
  { apply I21. change k with (fst (k, v)). now apply in_map. }
  apply in_map_iff in Ik as ([k' v'] & Ek & I1). cbn [fst] in Ek. subst k'.
  pose proof (attrib_eqb_In a1 a2 k v' H I1) as G.
  rewrite (assoc_get_distinct a2 k v N2 I) in G. injection G as <-.
  rewrite (assoc_get_distinct a1 k v N1 I1). cbn [opt_eqb].
  apply String.eqb_refl.
Qed.

Lemma well_formed_inv (t : string) (tx tl : option string)
      (a : list (string * string)) (cs : list Element) :
  well_formed (mkElement t tx tl a cs) = true ->
  NoDup (map fst a) /\ Forall (fun c => well_formed c = true) cs.
Proof.
  cbn [well_formed]. intros H. apply andb_true_iff in H as [H1 H2].
  split; [now apply distinct_NoDup|]. apply Forall_forall.
  now apply forallb_forall.
Qed.

Lemma elements_equal_refl (e : Element) :
  well_formed e = true -> _elements_equal e (Some e) = true.
Proof.
  induction e as [t tx tl a cs IH] using Element_induction. intros W.
  apply well_formed_inv in W as [N F]. rewrite elements_equal_unfold.
  cbn [text tail attrib children].
  rewrite !opt_eqb_refl, (attrib_eqb_refl a N), Nat.eqb_refl. cbn [andb].
  induction cs as [|c cs IHcs]; [reflexivity|].
  inversion IH; subst. inversion F; subst. cbn [all_equal].
  apply andb_true_iff. split; auto.
Qed.

Lemma elements_equal_sym_imp (e1 : Element) :
  forall e2, well_formed e1 = true -> well_formed e2 = true ->
             _elements_equal e1 (Some e2) = true ->
             _elements_equal e2 (Some e1) = true.
Proof.
  induction e1 as [t1 tx1 tl1 a1 cs1 IH] using Element_induction.
  intros [t2 tx2 tl2 a2 cs2] W1 W2.
  apply well_formed_inv in W1 as [N1 F1]. apply well_formed_inv in W2 as [N2 F2].
  rewrite !elements_equal_unfold. cbn [text tail attrib children].
  intros H. apply andb_true_iff in H as [H Hc].
  apply andb_true_iff in H as [H Hl]. apply andb_true_iff in H as [H Ha].
  apply andb_true_iff in H as [Hx Ht].
  rewrite (opt_eqb_sym tx2 tx1), Hx, (opt_eqb_sym tl2 tl1), Ht,
    (attrib_eqb_sym a1 a2 N1 N2 Ha), Nat.eqb_sym, Hl.
  cbn [andb]. clear -IH F1 F2 Hc. revert cs2 F2 Hc.
  induction cs1 as [|c1 cs1 IHcs]; intros [|c2 cs2] F2 Hc; try reflexivity.
  inversion IH; subst. inversion F1; subst. inversion F2; subst.
  cbn [all_equal] in *. apply andb_true_iff in Hc as [Hc1 Hc2].
  apply andb_true_iff. split; auto.
Qed.

Lemma elements_equal_trans (e1 : Element) :
  forall e2 e3, _elements_equal e1 (Some e2) = true ->
                _elements_equal e2 (Some e3) = true ->
                _elements_equal e1 (Some e3) = true.
Proof.
  induction e1 as [t1 tx1 tl1 a1 cs1 IH] using Element_induction.
  intros [t2 tx2 tl2 a2 cs2] [t3 tx3 tl3 a3 cs3].
  rewrite !elements_equal_unfold. cbn [text tail attrib children].
  intros H H'. apply andb_true_iff in H as [H Hc].
  apply andb_true_iff in H as [H Hl]. apply andb_true_iff in H as [H Ha].
  apply andb_true_iff in H as [Hx Ht].
  apply andb_true_iff in H' as [H' Hc']. apply andb_true_iff in H' as [H' Hl'].
  apply andb_true_iff in H' as [H' Ha']. apply andb_true_iff in H' as [Hx' Ht'].
  rewrite (opt_eqb_trans _ _ _ Hx Hx'), (opt_eqb_trans _ _ _ Ht Ht'),
    (attrib_eqb_trans _ _ _ Ha Ha').
  apply Nat.eqb_eq in Hl, Hl'. rewrite Hl, Hl', Nat.eqb_refl. cbn [andb].
  clear -IH Hc Hc' Hl Hl'. revert cs2 cs3 Hc Hc' Hl Hl'.
  induction cs1 as [|c1 cs1 IHcs]; intros [|c2 cs2] [|c3 cs3] Hc Hc' Hl Hl';
    try reflexivity; try discriminate.
  inversion IH; subst. cbn [all_equal List.length] in *.
  apply andb_true_iff in Hc as [Hc1 Hc2]. apply andb_true_iff in Hc' as [Hc1' Hc2'].
  apply andb_true_iff. split; [eauto|]. apply (IHcs H2 cs2 cs3); auto.
Qed.

(** X20. On elements as lxml can hold them (distinct attribute names at
    every node) [_elements_equal] is an equivalence: every element equals
    itself, the answer does not depend on which of the two is given first,
    and two elements equal to a third are equal.  No tag has a part in it,
    at the top or below. *)
Theorem elements_equal_equivalence (e1 e2 e3 : Element) :
  well_formed e1 = true -> well_formed e2 = true ->
  _elements_equal e1 (Some e1) = true
  /\ _elements_equal e2 (Some e1) = _elements_equal e1 (Some e2)
  /\ (_elements_equal e1 (Some e2) = true ->
      _elements_equal e2 (Some e3) = true ->
      _elements_equal e1 (Some e3) = true).
Proof.
  intros W1 W2. split; [now apply elements_equal_refl|].
  split; [|apply elements_equal_trans].
  destruct (_elements_equal e1 (Some e2)) eqn:E12.
  - now apply elements_equal_sym_imp.
  - destruct (_elements_equal e2 (Some e1)) eqn:E21; [|reflexivity].
    apply elements_equal_sym_imp in E21; auto. congruence.
Qed.

Lemma elements_equal_equivalence_witness :
  _elements_equal proper_elem (Some proper_elem) = true
  /\ _elements_equal improper_elem (Some proper_elem)
     = _elements_equal proper_elem (Some improper_elem)
  /\ (_elements_equal proper_elem (Some improper_elem) = true ->
      _elements_equal improper_elem (Some torsion_elem) = true ->
      _elements_equal proper_elem (Some torsion_elem) = true).
Proof.
  apply (elements_equal_equivalence proper_elem improper_elem torsion_elem);
    vm_compute; reflexivity.
Defined.

(* ================================================================= *)
(** ** One entry per key *)

Lemma Forall2_nth_error_l {A B} (R : A -> B -> Prop) (l : list A) (l' : list B) :
  Forall2 R l l' ->
  forall i a, nth_error l i = Some a ->
              exists b, nth_error l' i = Some b /\ R a b.
Proof.
  induction 1 as [|x y l l' Hxy _ IH]; intros [|i] a; cbn [nth_error];
    try discriminate.
  - intros [= <-]. now exists y.
  - apply IH.
Qed.

Lemma strictly_ascending (ids : list string) (l : list Element) :
  no_repeat l -> StronglySorted (entry_le ids) l ->
  (forall a b, In a l -> In b l ->
               entry_key ids a = entry_key ids b ->
               _elements_equal b (Some a) = true) ->
  one_per_key ids l.
Proof.
  intros N S C. apply Sorted_StronglySorted.
  { intros a b c. apply key_lt_trans. }
  apply StronglySorted_Sorted in S. unfold no_repeat in N.
  induction l as [|a l IH]; [constructor|].
  inversion N as [|? ? N' Hn]; subst. inversion S as [|? ? S' Hs]; subst.
  constructor.
  - apply IH; auto. intros x y Ix Iy. apply C; now right.
  - destruct l as [|b l]; constructor.
    inversion Hn as [|? ? Hba]; subst. inversion Hs as [|? ? Hle]; subst.
    unfold entry_le, key_le in Hle.
    destruct (key_lt (entry_key ids a) (entry_key ids b)) eqn:E; [reflexivity|].
    pose proof (key_lt_total _ _ E Hle) as K.
    rewrite (C a b) in Hba; [discriminate | now left | right; now left | exact K].
Qed.

Lemma consistent_spec (ids : list string) (l : list Element) :
  consistent ids l = true ->
  forall a b, In a l -> In b l ->
              entry_key ids a = entry_key ids b ->
              _elements_equal b (Some a) = true.
Proof.
  unfold consistent. intros H a b Ia Ib K. rewrite forallb_forall in H.
  specialize (H a Ia). rewrite forallb_forall in H. specialize (H b Ib).
  rewrite K, key_lt_irrefl in H. exact H.
Qed.

Lemma pruned_In (c c' : Element) (x : Element) :
  pruned c c' -> In x (children c') -> In x (children c).
Proof.
  intros (_ & _ & _ & _ & l & P & S) I.
  apply (Permutation_in _ P). now apply (subsequence_In _ _ _ S).
Qed.

Lemma Forall2_Forall_r {A B} (R : A -> B -> Prop) (Q : B -> Prop)
      (l : list A) (l' : list B) :
  Forall2 R l l' -> Forall Q l' -> Forall2 (fun a b => R a b /\ Q b) l l'.
Proof.
  induction 1; intros F; constructor; inversion F; subst; auto.
Qed.

(** X21. Where the type names settle the entry (any two entries of the
    section have different sort keys or are equal), a processed section
    comes out with one entry per key, in strictly ascending order of the
    keys, and this whatever the sections before it hold. *)
Theorem remove_duplicates_one_per_key (unique : bool) (root root' : Element)
        (i : nat) (c : Element) (ids : list string) :
  _remove_duplicate_elements unique root = (root', Ok tt) ->
  nth_error (children root) i = Some c ->
  processed unique c = true ->
  sortby_get sortby (tag c) = Ok ids ->
  consistent ids (children c) = true ->
  exists c',
    nth_error (children root') i = Some c' /\ tag c' = tag c
    /\ (forall x, In x (children c') -> In x (children c))
    /\ one_per_key ids (children c').
Proof.
  unfold _remove_duplicate_elements.
  destruct (dedup_sections unique None (children root)) as [sections r] eqn:D.
  intros [= <- ->] Hi Hp G C.
  pose proof (dedup_sections_pruned unique (children root) None) as Pr.
  rewrite D in Pr. cbn [fst] in Pr.
  pose proof (dedup_sections_sorted unique _ None sections D) as So.
  destruct (Forall2_nth_error_l _ _ _ (Forall2_Forall_r _ _ _ _ Pr So) i c Hi)
    as (c' & Hi' & P & Q).
  exists c'. destruct root. cbn [children set_children] in *.
  split; [exact Hi'|]. pose proof P as (Ht & _).
  split; [exact Ht|]. split; [intros x; now apply pruned_In|].
  unfold processed in Q, Hp. rewrite Ht, G in Q. destruct (Q Hp) as [N S].
  apply strictly_ascending; auto.
  intros a b Ia Ib. apply (consistent_spec ids _ C); now apply (pruned_In c c').
Qed.

Lemma remove_duplicates_one_per_key_witness :
  exists c',
    nth_error (children (fst (_remove_duplicate_elements true unsorted_bonds))) 0
    = Some c'
    /\ tag c' = "HarmonicBondForce"
    /\ (forall x, In x (children c') ->
                  In x [bond_short; bond_elem "CT" "CT" "0.1529" "224262.4";
                        bond_short])
    /\ one_per_key ["type1"; "type2"] (children c').
Proof.
  apply (remove_duplicates_one_per_key true unsorted_bonds
           (fst (_remove_duplicate_elements true unsorted_bonds)) 0
           (mkElement "HarmonicBondForce" None None []
              [bond_short; bond_elem "CT" "CT" "0.1529" "224262.4"; bond_short])
           ["type1"; "type2"]);
    vm_compute; reflexivity.
Defined.

(* ================================================================= *)
(** ** The direction in which a term is listed *)

Lemma bind_ext {S A B} (m m' : M S A) (k k' : A -> M S B) (s : S) :
  m s = m' s -> (forall a s', k a s' = k' a s') -> bind m k s = bind m' k' s.
Proof.
  intros Hm Hk. unfold bind. rewrite Hm.
  destruct (m' s) as [s' [a|e]]; [apply Hk | reflexivity].
Qed.

Lemma for_SubElement_ext {X} (t : X -> string) (body : X -> M Element unit)
      (l l' : list X) :
  Forall2 (fun x x' => t x' = t x
                       /\ body x' (Element_ (t x)) = body x (Element_ (t x))) l l' ->
  forall sec, for_ l' (fun x => SubElement (t x) (body x)) sec
              = for_ l (fun x => SubElement (t x) (body x)) sec.
Proof.
  induction 1 as [|x x' l l' (Ht & Hb) _ IH]; intros sec; [reflexivity|].
  cbn [for_]. apply bind_ext; [|intros _ s'; apply IH].
  unfold SubElement. now rewrite Ht, Hb.
Qed.

Lemma first_has_type_ext {X T} (type : X -> option T) (l l' : list X) :
  Forall2 (fun x x' => type x' = type x) l l' ->
  first_has_type type l' = first_has_type type l.
Proof.
  intros H. unfold first_has_type. rewrite (Forall2_length H).
  destruct H as [|x x' l l' Hx _]; [reflexivity|]. now rewrite Hx.
Qed.

Lemma optional_section_ext {X T} (type : X -> option T) (tagS : string)
      (t : X -> string) (body : X -> M Element unit) (l l' : list X) :
  Forall2 (fun x x' => type x' = type x /\ t x' = t x
                       /\ body x' (Element_ (t x)) = body x (Element_ (t x))) l l' ->
  forall root,
    (if first_has_type type l'
     then SubElement tagS (for_ l' (fun x => SubElement (t x) (body x)))
     else ret tt) root
    = (if first_has_type type l
       then SubElement tagS (for_ l (fun x => SubElement (t x) (body x)))
       else ret tt) root.
Proof.
  intros H root.
  rewrite (first_has_type_ext type l l').
  2:{ eapply Forall2_impl; [|exact H]. now intros x x' (Hx & _). }
  destruct (first_has_type type l); [|reflexivity].
  unfold SubElement at 1 3. rewrite (for_SubElement_ext t body l l'); [reflexivity|].
  eapply Forall2_impl; [|exact H]. now intros x x' (_ & Hx).
Qed.

(** X22. In unique mode the outcome of [write_foyer], the tree and the
    file do not depend on the end from which a bond or an angle is listed,
    nor on the end from which a proper torsion, periodic or
    Ryckaert-Bellemans, is listed when its end names differ or its inner
    names agree. *)
Theorem write_foyer_direction (self : Structure.t) (bonds' : list Bond.t)
        (angles' : list Angle.t) (dihedrals' : list Dihedral.t)
        (rb_torsions' : list RBTorsion.t) (filename : string)
        (forcefield : option Forcefield.t) (w : World) :
  bonds_relisted (Structure.bonds self) bonds' ->
  angles_relisted (Structure.angles self) angles' ->
  dihedrals_relisted (Structure.dihedrals self) dihedrals' ->
  rb_torsions_relisted (Structure.rb_torsions self) rb_torsions' ->
  write_foyer {| Structure.atoms := Structure.atoms self;
                 Structure.bonds := bonds';
                 Structure.angles := angles';
                 Structure.dihedrals := dihedrals';
                 Structure.rb_torsions := rb_torsions';
                 Structure.adjusts := Structure.adjusts self |}
              filename forcefield true w
  = write_foyer self filename forcefield true w.
Proof.
  intros Hb Ha Hd Hr.
  assert (Eb : Forall2 (fun x x' =>
                          Bond.type x' = Bond.type x /\ "Bond" = "Bond"
                          /\ bond_entry x' true (Element_ "Bond")
                             = bond_entry x true (Element_ "Bond"))
                       (Structure.bonds self) bonds').
  { eapply Forall2_impl; [|exact Hb]. intros [a1 a2 ty] b' [->| ->].
    - now repeat split.
    - split; [reflexivity|]. split; [reflexivity|]. apply bond_entry_flip. }
  assert (Ea : Forall2 (fun x x' =>
                          Angle.type x' = Angle.type x /\ "Angle" = "Angle"
                          /\ angle_entry x' true (Element_ "Angle")
                             = angle_entry x true (Element_ "Angle"))
                       (Structure.angles self) angles').
  { eapply Forall2_impl; [|exact Ha]. intros [a1 a2 a3 ty] a' [->| ->].
    - now repeat split.
    - split; [reflexivity|]. split; [reflexivity|]. apply angle_entry_flip. }
  pose (tagd := fun d : Dihedral.t =>
                  if Dihedral.improper d then "Improper" else "Proper").
  assert (Ed : Forall2 (fun x x' =>
                          Dihedral.type x' = Dihedral.type x /\ tagd x' = tagd x
                          /\ dihedral_entry x' true (Element_ (tagd x))
                             = dihedral_entry x true (Element_ (tagd x)))
                       (Structure.dihedrals self) dihedrals').
  { eapply Forall2_impl; [|exact Hd].
    intros [a1 a2 a3 a4 imp ty] d' [->|(-> & I & R)].
    - now repeat split.
    - cbn [Dihedral.improper Dihedral.atom1 Dihedral.atom2 Dihedral.atom3
           Dihedral.atom4] in *. subst imp.
      split; [reflexivity|]. split; [reflexivity|].
      now apply dihedral_entry_flip. }
  assert (Er : Forall2 (fun x x' =>
                          RBTorsion.type x' = RBTorsion.type x /\ "Proper" = "Proper"
                          /\ rb_torsion_entry x' true (Element_ "Proper")
                             = rb_torsion_entry x true (Element_ "Proper"))
                       (Structure.rb_torsions self) rb_torsions').
  { eapply Forall2_impl; [|exact Hr].
    intros [a1 a2 a3 a4 ty] r' [->|(-> & R)].
    - now repeat split.
    - cbn [RBTorsion.atom1 RBTorsion.atom2 RBTorsion.atom3 RBTorsion.atom4] in *.
      split; [reflexivity|]. split; [reflexivity|].
      now apply rb_torsion_entry_flip. }
  unfold write_foyer.
  cbn [Structure.atoms Structure.bonds Structure.angles Structure.dihedrals
       Structure.rb_torsions].
  assert (Fb : first_has_type Bond.type bonds'
               = first_has_type Bond.type (Structure.bonds self)).
  { apply first_has_type_ext. eapply Forall2_impl; [|exact Eb].
    now intros x x' (Hx & _). }
  set (c' := first_has_type Bond.type bonds') at 1.
  assert (Fc : c' = first_has_type Bond.type (Structure.bonds self)) by exact Fb.
  clearbody c'. subst c'.
  destruct (negb (first_has_type Bond.type (Structure.bonds self)));
    [reflexivity|].
  apply new_tree_ext.
  apply bind_ext; [reflexivity|]. intros _ s1.
  apply bind_ext.
  { exact (optional_section_ext Bond.type "HarmonicBondForce" (fun _ => "Bond")
             (fun b => bond_entry b true) _ _ Eb s1). }
  intros _ s2. apply bind_ext.
  { exact (optional_section_ext Angle.type "HarmonicAngleForce" (fun _ => "Angle")
             (fun a => angle_entry a true) _ _ Ea s2). }
  intros _ s3. apply bind_ext.
  { exact (optional_section_ext Dihedral.type "PeriodicTorsionForce" tagd
             (fun d => dihedral_entry d true) _ _ Ed s3). }
  intros _ s4. apply bind_ext; [|reflexivity].
  exact (optional_section_ext RBTorsion.type "RBTorsionForce" (fun _ => "Proper")
           (fun r => rb_torsion_entry r true) _ _ Er s4).
Qed.

Lemma write_foyer_direction_witness :
  write_foyer diethyl_ether_relisted "ether.xml" None true no_output
  = write_foyer diethyl_ether "ether.xml" None true no_output.
Proof.
  apply (write_foyer_direction diethyl_ether
           (map flip_bond (Structure.bonds diethyl_ether))
           (map flip_angle (Structure.angles diethyl_ether))
           (Structure.dihedrals diethyl_ether)
           (Structure.rb_torsions diethyl_ether) "ether.xml" None no_output).
  - repeat (constructor; [right; reflexivity|]). constructor.
  - repeat (constructor; [right; reflexivity|]). constructor.
  - repeat (constructor; [left; reflexivity|]). constructor.
  - constructor.
Defined.

(* ================================================================= *)
(** ** The order in which the entries come in *)





